(** * docx-to-h5p: the extraction engine of [batch_docx_to_h5p.py]

    A shallow embedding of [CompleteH5PConverter]: the three extraction
    passes over the paragraphs of a document (true/false, multiple choice,
    crossword) together with [find_image_near_paragraph], and the
    properties of them that the specification states.

    The development then follows [process_docx] to its end: the images of
    the package, the H5P content built from the three lists and the files
    written, with the properties the code keeps along the way.

    Text.  A Python [str] is modelled as a list of 8-bit characters, read
    as the code points 0..255.  The character classes below ([isspace],
    [\w], [\d], [lower], [upper]) are Python's on that range.  Two code
    points, U+00B5 and U+00FF, have an upper-case form outside the range;
    [upper] leaves them as they are (no pattern of the program tells the
    difference).  Python's IGNORECASE also lets U+0130 and U+0131 stand
    for "i" and U+017F for "s"; these, as every character above 255, are
    outside the model.

    Documents.  python-docx presents a document as a list of paragraphs, a
    paragraph as a list of runs, [Paragraph.text] as the concatenation of
    the texts of its runs, and [Run.bold] as a tri-state ([True], [False],
    [None]). *)

From Stdlib Require Import Ascii String List Bool Arith NArith ZArith Lia.
From Stdlib Require DecimalString DecimalNat.
From stdpp Require Import base option list gmap.
Import ListNotations.

Set Default Goal Selector "!".

(** ** Characters and strings *)

Module Str.

Definition str := list ascii.

Definition L (s : string) : str := list_ascii_of_string s.

Definition code (c : ascii) : N := N_of_ascii c.

Definition between (lo hi : N) (c : ascii) : bool :=
  (lo <=? code c)%N && (code c <=? hi)%N.

(** [str.isspace], which is also [\s] and what [strip] and [split] use. *)
Definition is_space (c : ascii) : bool :=
  between 9 13 c || between 28 32 c || (code c =? 133)%N || (code c =? 160)%N.

Definition is_upper_az (c : ascii) : bool := between 65 90 c.
Definition is_lower_az (c : ascii) : bool := between 97 122 c.

(** [\d] *)
Definition is_digit (c : ascii) : bool := between 48 57 c.

(** [\w]: alphanumeric (in Python's sense) or underscore. *)
Definition is_word (c : ascii) : bool :=
  is_digit c || is_upper_az c || is_lower_az c || (code c =? 95)%N
  || (code c =? 170)%N || between 178 179 c || (code c =? 181)%N
  || between 185 186 c || between 188 190 c
  || between 192 214 c || between 216 246 c || between 248 255 c.

Definition shift_up (c : ascii) : ascii := ascii_of_N (code c + 32).
Definition shift_down (c : ascii) : ascii := ascii_of_N (code c - 32).

Definition lower_char (c : ascii) : ascii :=
  if is_upper_az c || between 192 214 c || between 216 222 c
  then shift_up c else c.

(** One-to-one upper-casing, as case-insensitive matching uses it. *)
Definition upper_char (c : ascii) : ascii :=
  if is_lower_az c || between 224 246 c || between 248 254 c
  then shift_down c else c.

Definition lower (s : str) : str := map lower_char s.

(** [str.upper]: U+00DF becomes "SS". *)
Definition upper (s : str) : str :=
  flat_map (fun c => if (code c =? 223)%N then L "SS" else [upper_char c]) s.

Fixpoint lstrip (s : str) : str :=
  match s with
  | c :: s' => if is_space c then lstrip s' else s
  | [] => []
  end.

Definition rstrip (s : str) : str := rev (lstrip (rev s)).

Definition strip (s : str) : str := rstrip (lstrip s).

(** [s.rstrip('.')] *)
Fixpoint lstrip_char (d : ascii) (s : str) : str :=
  match s with
  | c :: s' => if Ascii.eqb c d then lstrip_char d s' else s
  | [] => []
  end.

Definition rstrip_char (d : ascii) (s : str) : str :=
  rev (lstrip_char d (rev s)).

(** [s.split(sep)] for a one-character separator: always at least one
    piece. *)
Fixpoint split_on (sep : ascii) (s : str) : list str :=
  match s with
  | [] => [[]]
  | c :: s' =>
      if Ascii.eqb c sep then [] :: split_on sep s'
      else match split_on sep s' with
           | piece :: pieces => (c :: piece) :: pieces
           | [] => [[c]]
           end
  end.

(** [s.split()]: the maximal runs of non-space characters. *)
Fixpoint split_ws_aux (cur : str) (s : str) : list str :=
  match s with
  | [] => match cur with [] => [] | _ => [rev cur] end
  | c :: s' =>
      if is_space c
      then match cur with
           | [] => split_ws_aux [] s'
           | _ => rev cur :: split_ws_aux [] s'
           end
      else split_ws_aux (c :: cur) s'
  end.

Definition split_ws (s : str) : list str := split_ws_aux [] s.

(** [sep.join(pieces)] *)
Fixpoint join (sep : str) (pieces : list str) : str :=
  match pieces with
  | [] => []
  | [p] => p
  | p :: ps => p ++ sep ++ join sep ps
  end.

Definition eqb (a b : str) : bool := bool_decide (a = b).

(** [needle in s] *)
Fixpoint is_prefix (needle s : str) : bool :=
  match needle, s with
  | [], _ => true
  | a :: needle', c :: s' => Ascii.eqb a c && is_prefix needle' s'
  | _ :: _, [] => false
  end.

Fixpoint contains (needle s : str) : bool :=
  is_prefix needle s ||
  match s with
  | [] => false
  | _ :: s' => contains needle s'
  end.

(** Python truthiness of a string. *)
Definition nonempty (s : str) : bool :=
  match s with [] => false | _ => true end.

End Str.
Import Str.

(** ** Regular expressions

    The patterns of the program, as syntax trees, and a backtracking
    matcher with Python's order of alternatives: greedy repetition tries
    one more iteration first, lazy repetition tries to stop first, and the
    first way to succeed is the match. *)

Module Re.

Inductive regex : Type :=
  | Lit (s : str)               (* literal text *)
  | Cls (p : ascii -> bool)     (* one character of a class *)
  | Cat (r1 r2 : regex)
  | Or (r1 r2 : regex)
  | Star (r : regex)            (* r*  *)
  | LazyStar (r : regex)        (* r*? *)
  | Opt (r : regex)             (* r?  *)
  | Group (n : nat) (r : regex) (* the n-th capturing group *)
  | Bol                         (* ^  *)
  | Eol                         (* $  *)
  | WordB.                      (* \b *)

(** A pattern read left to right. *)
Fixpoint Seq (rs : list regex) : regex :=
  match rs with
  | [] => Lit []
  | [r] => r
  | r :: rs' => Cat r (Seq rs')
  end.

Definition Plus (r : regex) : regex := Cat r (Star r).
Definition LazyPlus (r : regex) : regex := Cat r (LazyStar r).

(** Classes *)
Definition space : ascii -> bool := is_space.
Definition digit : ascii -> bool := is_digit.
Definition dot (c : ascii) : bool := negb (Ascii.eqb c "010").
Definition range (lo hi : ascii) (c : ascii) : bool :=
  between (code lo) (code hi) c.
Definition one (d : ascii) (c : ascii) : bool := Ascii.eqb c d.
Definition either (p q : ascii -> bool) (c : ascii) : bool := p c || q c.
Definition none_of (p : ascii -> bool) (c : ascii) : bool := negb (p c).

(** A position in the subject: the characters before it, nearest first,
    and the characters from it on. *)
Record cursor : Type := Cursor { before : str; after : str }.

Definition pos (cu : cursor) : nat := length (before cu).

Definition cursor_at_start (s : str) : cursor := Cursor [] s.

Definition step (c : ascii) (cu : cursor) : cursor :=
  Cursor (c :: before cu) (tl (after cu)).

Definition groups := list (nat * str).

Definition is_word_opt (c : option ascii) : bool :=
  match c with Some c => is_word c | None => false end.

Definition at_word_boundary (cu : cursor) : bool :=
  xorb (is_word_opt (head (before cu))) (is_word_opt (head (after cu))).

Definition at_end (cu : cursor) : bool :=
  match after cu with
  | [] => true
  | [c] => Ascii.eqb c "010"
  | _ => false
  end.

(** Under IGNORECASE a character matches a literal when they agree up to
    case, and a class when it or its other case is in the class. *)
Definition chr_eq (ci : bool) (a c : ascii) : bool :=
  if ci then Ascii.eqb (lower_char a) (lower_char c) else Ascii.eqb a c.

Definition in_class (ci : bool) (p : ascii -> bool) (c : ascii) : bool :=
  if ci then p c || p (lower_char c) || p (upper_char c) else p c.

Fixpoint eat (ci : bool) (lit : str) (cu : cursor) : option cursor :=
  match lit with
  | [] => Some cu
  | a :: lit' =>
      match after cu with
      | c :: _ => if chr_eq ci a c then eat ci lit' (step c cu) else None
      | [] => None
      end
  end.

Definition orelse {R} (x y : option R) : option R :=
  match x with Some _ => x | None => y end.

(** The text between two cursors of one subject. *)
Definition consumed (cu cu' : cursor) : str :=
  take (pos cu' - pos cu) (after cu).

Section Matcher.
Context {R : Type} (ci : bool).

(** Repetition of [body]: at most [n] iterations, none of them empty.
    A greedy repetition tries one more iteration before the rest of the
    pattern, a lazy one after it. *)
Fixpoint star_loop
    (body : cursor -> groups -> (cursor -> groups -> option R) -> option R)
    (greedy : bool) (k : cursor -> groups -> option R)
    (n : nat) (cu : cursor) (gs : groups) {struct n} : option R :=
  match n with
  | O => k cu gs
  | S n' =>
      let again :=
        body cu gs (fun cu' gs' =>
          if pos cu' =? pos cu then None
          else star_loop body greedy k n' cu' gs') in
      if greedy then orelse again (k cu gs) else orelse (k cu gs) again
  end.

Fixpoint rmatch (r : regex) (cu : cursor) (gs : groups)
    (k : cursor -> groups -> option R) {struct r} : option R :=
  match r with
  | Lit s =>
      match eat ci s cu with
      | Some cu' => k cu' gs
      | None => None
      end
  | Cls p =>
      match after cu with
      | c :: _ => if in_class ci p c then k (step c cu) gs else None
      | [] => None
      end
  | Cat r1 r2 => rmatch r1 cu gs (fun cu' gs' => rmatch r2 cu' gs' k)
  | Or r1 r2 => orelse (rmatch r1 cu gs k) (rmatch r2 cu gs k)
  | Star r1 => star_loop (rmatch r1) true k (S (length (after cu))) cu gs
  | LazyStar r1 => star_loop (rmatch r1) false k (S (length (after cu))) cu gs
  | Opt r1 => orelse (rmatch r1 cu gs k) (k cu gs)
  | Group n r1 =>
      rmatch r1 cu gs (fun cu' gs' => k cu' ((n, consumed cu cu') :: gs'))
  | Bol => match before cu with [] => k cu gs | _ => None end
  | Eol => if at_end cu then k cu gs else None
  | WordB => if at_word_boundary cu then k cu gs else None
  end.
End Matcher.

(** A match object: [start()], [end()] and the captured groups. *)
Record rmatch_result : Type :=
  Match { m_start : nat; m_end : nat; m_groups : groups }.

Fixpoint lookup_group (n : nat) (gs : groups) : option str :=
  match gs with
  | [] => None
  | (i, s) :: gs' => if i =? n then Some s else lookup_group n gs'
  end.

(** [m.group(n)].  Every group the program reads takes part in every match
    of its pattern; a group that did not would be [None] in Python and is
    the empty text here. *)
Definition group (m : rmatch_result) (n : nat) : str :=
  default [] (lookup_group n (m_groups m)).

Definition match_here (ci : bool) (r : regex) (cu : cursor)
    : option (cursor * rmatch_result) :=
  rmatch ci r cu [] (fun cu' gs => Some (cu', Match (pos cu) (pos cu') gs)).

(** [re.match]: a match that starts at the first character. *)
Definition re_match (ci : bool) (r : regex) (s : str) : option rmatch_result :=
  snd <$> match_here ci r (cursor_at_start s).

Fixpoint search_from (ci : bool) (r : regex) (bef aft : str)
    : option (cursor * rmatch_result) :=
  orelse (match_here ci r (Cursor bef aft))
    match aft with
    | [] => None
    | c :: aft' => search_from ci r (c :: bef) aft'
    end.

(** [re.search]: the leftmost match. *)
Definition re_search (ci : bool) (r : regex) (s : str) : option rmatch_result :=
  snd <$> search_from ci r [] s.

(** [re.finditer]: the leftmost match, then the leftmost match after it,
    and so on.  After an empty match the scan moves on by one character. *)
Fixpoint finditer_from (ci : bool) (r : regex) (fuel : nat) (cu : cursor)
    : list rmatch_result :=
  match fuel with
  | O => []
  | S fuel' =>
      match search_from ci r (before cu) (after cu) with
      | None => []
      | Some (cu', m) =>
          m :: (if m_end m =? m_start m
                then match after cu' with
                     | [] => []
                     | c :: _ => finditer_from ci r fuel' (step c cu')
                     end
                else finditer_from ci r fuel' cu')
      end
  end.

Definition re_finditer (ci : bool) (r : regex) (s : str) : list rmatch_result :=
  finditer_from ci r (S (length s)) (cursor_at_start s).

Definition matches (o : option rmatch_result) : bool :=
  match o with Some _ => true | None => false end.

End Re.
Import Re.

(** ** The document model *)

Record Run : Type := {
  run_text : str;               (* run.text *)
  run_bold : option bool;       (* run.bold: True, False or None *)
  run_blips : list (option str) (* the embed attribute of each a:blip under the run *)
}.

(** [has_pic] and the blips of the runs are read by two XPath queries of
    their own; the model does not tie them together. *)
Record Paragraph : Type := {
  runs : list Run;            (* para.runs *)
  has_pic : bool              (* para._element.xpath('.//pic:pic') is not empty *)
}.

(** [doc.paragraphs] *)
Definition Document := list Paragraph.

(** [para.text] *)
Definition para_text (para : Paragraph) : str := concat (map run_text (runs para)).

(** Python truthiness of [run.bold]. *)
Definition truthy (b : option bool) : bool :=
  match b with Some true => true | _ => false end.

Record ImageInfo : Type := {
  img_name : str; img_bytes : str; img_mime : str;
  img_size : nat; img_width : nat; img_height : nat
}.

Record TrueFalseQuestion : Type := {
  tf_question : str;
  tf_correct_answer : str
}.

Record MCOption : Type := {
  opt_text : str;
  opt_correct : bool
}.

Record MultipleChoiceQuestion : Type := {
  mc_question : str;
  mc_options : list MCOption;
  mc_image_id : option str
}.

Record CrosswordClue : Type := {
  clue_orientation : str;
  clue_clue : str;
  clue_answer : str
}.

Record Crossword : Type := {
  cw_title : str;
  cw_clues : list CrosswordClue
}.

(** The fields of [CompleteH5PConverter]. *)
Record Converter : Type := {
  multiple_choice_questions : list MultipleChoiceQuestion;
  true_false_questions : list TrueFalseQuestion;
  crossword_puzzles : list Crossword;
  images : list (str * ImageInfo);
  shared_image_id : option str
}.

(** [__init__] and [reset] *)
Definition reset : Converter :=
  {| multiple_choice_questions := []; true_false_questions := [];
     crossword_puzzles := []; images := []; shared_image_id := None |}.

(** ** [find_image_near_paragraph] *)

(** [range(lo, hi)] *)
Definition py_range (lo hi : Z) : list Z :=
  map (fun k => (lo + Z.of_nat k)%Z) (seq 0 (Z.to_nat (hi - lo))).

Fixpoint first_some {A B} (f : A -> option B) (l : list A) : option B :=
  match l with
  | [] => None
  | x :: l' => match f x with Some y => Some y | None => first_some f l' end
  end.

(** The embed id a run yields: that of its first blip, when not empty. *)
Definition run_embed (run : Run) : option str :=
  match run_blips run with
  | Some embed :: _ => if nonempty embed then Some embed else None
  | _ => None
  end.

(** The body of the loop for one paragraph: the id returned from it, if
    any. *)
Definition para_embed (para : Paragraph) : option str :=
  if has_pic para then first_some run_embed (runs para) else None.

Definition find_image_near_paragraph (doc : Document) (para_index : Z)
    : option str :=
  let search_range :=
    py_range (Z.max 0 (para_index - 5))
             (Z.min (Z.of_nat (length doc)) (para_index + 3)) in
  first_some
    (fun idx => match doc !! Z.to_nat idx with
                | Some para => para_embed para
                | None => None
                end)
    search_range.

(** ** True/false questions *)

Definition extract_text_with_formatting (paragraph : Paragraph)
    : list (str * option bool) :=
  map (fun run => (run_text run, run_bold run))
      (List.filter (fun run => nonempty (strip (run_text run))) (runs paragraph)).

Definition true_or_false : regex := Or (Lit (L "true")) (Lit (L "false")).

(** [\b(true|false)\s*$] *)
Definition tf_end_pattern : regex :=
  Seq [WordB; Group 1 true_or_false; Star (Cls space); Eol].

(** [\*\*(true|false)\*\*\s*$] *)
Definition tf_end_starred_pattern : regex :=
  Seq [Lit (L "**"); Group 1 true_or_false; Lit (L "**"); Star (Cls space); Eol].

Definition is_true_false_question (text : str) : bool :=
  let clean_text := strip text in
  existsb (fun pattern => matches (re_search true pattern clean_text))
          [tf_end_pattern; tf_end_starred_pattern].

(** [\b(True|False)\b] *)
Definition true_false_pattern : regex :=
  Seq [WordB; Group 1 (Or (Lit (L "True")) (Lit (L "False"))); WordB].

(** The loop that looks up the run holding [answer_start]. *)
Fixpoint bold_at (formatted_parts : list (str * option bool))
    (current_pos answer_start : nat) : option bool :=
  match formatted_parts with
  | [] => Some false
  | (text, bold) :: parts =>
      if (current_pos <=? answer_start) && (answer_start <? current_pos + length text)
      then bold
      else bold_at parts (current_pos + length text) answer_start
  end.

Definition parse_true_false_from_runs (paragraph : Paragraph)
    : option str * option str :=
  let formatted_parts := extract_text_with_formatting paragraph in
  let full_text := concat (map fst formatted_parts) in
  let matches := re_finditer true true_false_pattern full_text in
  match last matches with
  | None => (None, None)
  | Some last_match =>
      let answer_text := group last_match 1 in
      let answer_start := m_start last_match in
      let is_bold := bold_at formatted_parts 0 answer_start in
      let question_text := strip (take answer_start full_text) in
      let correct_answer :=
        if truthy is_bold then lower answer_text
        else if Str.eqb (lower answer_text) (L "true") then L "false"
             else L "true" in
      (Some question_text, Some correct_answer)
  end.

(** Python truthiness of an optional string. *)
Definition truthy_str (s : option str) : bool :=
  match s with Some s => nonempty s | None => false end.

Record tf_state : Type := {
  in_true_false_section : bool;
  tf_out : list TrueFalseQuestion   (* self.true_false_questions *)
}.

(** The test for the header of a true/false section. *)
Definition tf_section_header (text : str) : bool :=
  contains (L "true or false") (lower text)
  || contains (L "true/false") (lower text).

(** The test for the end of a true/false section. *)
Definition tf_section_end (text : str) : bool :=
  is_prefix (L "**") text
  && (contains (L "activity") (lower text) || contains (L "quiz") (lower text))
  && negb (contains (L "true") (lower text))
  && negb (contains (L "false") (lower text)).

(** One iteration of the loop of [extract_true_false_questions]. *)
Definition tf_step (st : tf_state) (para : Paragraph) : tf_state :=
  let text := strip (para_text para) in
  if negb (nonempty text) then st
  else if tf_section_header text
  then {| in_true_false_section := true; tf_out := tf_out st |}
  else if in_true_false_section st && tf_section_end text
  then {| in_true_false_section := false; tf_out := tf_out st |}
  else if in_true_false_section st && is_true_false_question text
  then
    match parse_true_false_from_runs para with
    | (Some question_text, Some correct_answer) =>
        if nonempty question_text && nonempty correct_answer
        then {| in_true_false_section := in_true_false_section st;
                tf_out := tf_out st ++
                  [{| tf_question := question_text;
                      tf_correct_answer := correct_answer |}] |}
        else st
    | _ => st
    end
  else st.

Definition extract_true_false_questions (self : Converter) (doc : Document)
    : Converter :=
  let final := fold_left tf_step doc
                 {| in_true_false_section := false;
                    tf_out := true_false_questions self |} in
  {| multiple_choice_questions := multiple_choice_questions self;
     true_false_questions := tf_out final;
     crossword_puzzles := crossword_puzzles self;
     images := images self;
     shared_image_id := shared_image_id self |}.

(** ** Multiple-choice questions *)

(** [Activity\s*1.*quiz] *)
Definition activity_1_quiz_pattern : regex :=
  Seq [Lit (L "Activity"); Star (Cls space); Lit (L "1"); Star (Cls dot);
       Lit (L "quiz")].

(** [quiz.*question] *)
Definition quiz_question_pattern : regex :=
  Seq [Lit (L "quiz"); Star (Cls dot); Lit (L "question")].

(** [Activity\s*[2-9]] *)
Definition activity_2_9_pattern : regex :=
  Seq [Lit (L "Activity"); Star (Cls space); Cls (range "2" "9")].

(** [^(\d+)\.\s*(.+?)\?\s*$] *)
Definition question_pattern : regex :=
  Seq [Bol; Group 1 (Plus (Cls digit)); Lit (L "."); Star (Cls space);
       Group 2 (LazyPlus (Cls dot)); Lit (L "?"); Star (Cls space); Eol].

(** [^([A-D])\.\s] *)
Definition option_start_pattern : regex :=
  Seq [Bol; Group 1 (Cls (range "A" "D")); Lit (L "."); Cls space].

(** [^([A-D])\.\s+(.+)$] *)
Definition option_pattern : regex :=
  Seq [Bol; Group 1 (Cls (range "A" "D")); Lit (L "."); Plus (Cls space);
       Group 2 (Plus (Cls dot)); Eol].

(** The [while] loop that moves the cursor to the line the next run
    starts on; [rest_lines] is [lines[current_line:]]. *)
Fixpoint skip_lines (rest_lines : list str) (current_line current_pos : nat)
    : nat * nat :=
  match rest_lines with
  | [] => (current_line, current_pos)
  | line_text :: rest_lines' =>
      if current_pos <? length line_text then (current_line, current_pos)
      else skip_lines rest_lines' (S current_line) 0
  end.

Record line_cursor : Type := {
  current_line : nat;
  current_pos : nat;
  option_runs_map : gmap str (list Run)
}.

(** One iteration of the loop over [para.runs]. *)
Definition register_run (lines : list str) (lc : line_cursor) (run : Run)
    : line_cursor :=
  let '(line, pos) :=
    skip_lines (drop (current_line lc) lines) (current_line lc) (current_pos lc) in
  let map' :=
    match lines !! line with
    | Some line_text =>
        match re_match false option_start_pattern line_text with
        | Some option_match =>
            let option_letter := group option_match 1 in
            let registered := default [] (option_runs_map lc !! option_letter) in
            <[option_letter := registered ++ [run]]> (option_runs_map lc)
        | None => option_runs_map lc
        end
    | None => option_runs_map lc
    end in
  {| current_line := line;
     current_pos := pos + length (run_text run);
     option_runs_map := map' |}.

Definition map_runs_to_options (lines : list str) (para : Paragraph)
    : gmap str (list Run) :=
  option_runs_map
    (fold_left (register_run lines) (runs para)
       {| current_line := 0; current_pos := 0; option_runs_map := ∅ |}).

(** One iteration of the loop over [lines[1:]]. *)
Definition add_option (runs_map : gmap str (list Run))
    (options : list MCOption) (line : str) : list MCOption :=
  match re_match false option_pattern line with
  | Some option_match =>
      let option_letter := group option_match 1 in
      let option_text := rstrip_char "." (strip (group option_match 2)) in
      let is_correct :=
        match runs_map !! option_letter with
        | Some registered =>
            existsb (fun run => truthy (run_bold run))
              (List.filter (fun run => nonempty (strip (run_text run))) registered)
        | None => false
        end in
      options ++ [{| opt_text := option_text; opt_correct := is_correct |}]
  | None => options
  end.

Definition extract_options (lines : list str) (para : Paragraph)
    : list MCOption :=
  fold_left (add_option (map_runs_to_options lines para)) (drop 1 lines) [].

Record mc_state : Type := {
  in_mc_section : bool;
  section_image_id : option str;
  questions_in_current_section : list nat;
  mc_out : list MultipleChoiceQuestion;   (* self.multiple_choice_questions *)
  mc_shared : option str                  (* self.shared_image_id *)
}.

(** Python truthiness of a list. *)
Definition truthy_list {A} (l : list A) : bool :=
  match l with [] => false | _ => true end.

(** The test for the header of a multiple-choice section. *)
Definition mc_section_header (text : str) : bool :=
  matches (re_search true activity_1_quiz_pattern text)
  || matches (re_search true quiz_question_pattern text).

(** The test for the end of a multiple-choice section. *)
Definition mc_section_end (text : str) : bool :=
  matches (re_search true activity_2_9_pattern text).

(** One iteration of the loop of [extract_multiple_choice_questions]. *)
Definition mc_step (doc : Document) (st : mc_state) (ip : nat * Paragraph)
    : mc_state :=
  let '(idx, para) := ip in
  let text := strip (para_text para) in
  if negb (nonempty text) then st
  else if mc_section_header text
  then {| in_mc_section := true;
          section_image_id := find_image_near_paragraph doc (Z.of_nat idx);
          questions_in_current_section := questions_in_current_section st;
          mc_out := mc_out st;
          mc_shared := mc_shared st |}
  else if mc_section_end text && in_mc_section st
  then {| in_mc_section := false;
          section_image_id := section_image_id st;
          questions_in_current_section := questions_in_current_section st;
          mc_out := mc_out st;
          mc_shared :=
            if truthy_str (section_image_id st)
               && truthy_list (questions_in_current_section st)
            then section_image_id st else mc_shared st |}
  else if negb (in_mc_section st) then st
  else
    let lines := split_on "010" text in
    let first_line := default [] (head lines) in
    match re_match false question_pattern first_line with
    | Some question_match =>
        if 1 <? length lines then
          let question_text := strip (group question_match 2) ++ L "?" in
          let options := extract_options lines para in
          if truthy_list options then
            let question_image_id :=
              let found := find_image_near_paragraph doc (Z.of_nat idx) in
              if truthy_str found then found else section_image_id st in
            {| in_mc_section := in_mc_section st;
               section_image_id := section_image_id st;
               questions_in_current_section :=
                 questions_in_current_section st ++ [length (mc_out st)];
               mc_out := mc_out st ++
                 [{| mc_question := question_text;
                     mc_options := options;
                     mc_image_id := question_image_id |}];
               mc_shared := mc_shared st |}
          else st
        else st
    | None => st
    end.

(** [enumerate(l)] *)
Definition enumerate {A} (l : list A) : list (nat * A) :=
  combine (seq 0 (length l)) l.

(** [images_info] stands for what [extract_images_from_docx(docx_path)]
    reads from the package. *)
Definition extract_multiple_choice_questions (self : Converter)
    (doc : Document) (images_info : list (str * ImageInfo)) : Converter :=
  let final := fold_left (mc_step doc) (enumerate doc)
                 {| in_mc_section := false;
                    section_image_id := None;
                    questions_in_current_section := [];
                    mc_out := multiple_choice_questions self;
                    mc_shared := shared_image_id self |} in
  {| multiple_choice_questions := mc_out final;
     true_false_questions := true_false_questions self;
     crossword_puzzles := crossword_puzzles self;
     images := images_info;
     shared_image_id := mc_shared final |}.

(** ** Crossword puzzles *)

(** [Activity\s*3,?\s*Part\s+(I+)[-\s]*Crossword\s*Puzzle:?( .* )$]
    (the second group is written with spaces around it here only) *)
Definition crossword_header_pattern : regex :=
  Seq [Lit (L "Activity"); Star (Cls space); Lit (L "3"); Opt (Lit (L ","));
       Star (Cls space); Lit (L "Part"); Plus (Cls space);
       Group 1 (Plus (Lit (L "I"))); Star (Cls (either (one "-") space));
       Lit (L "Crossword"); Star (Cls space); Lit (L "Puzzle");
       Opt (Lit (L ":")); Group 2 (Star (Cls dot)); Eol].

(** [Unit\s*2] *)
Definition unit_2_pattern : regex :=
  Seq [Lit (L "Unit"); Star (Cls space); Lit (L "2")].

(** [Activity\s*4] *)
Definition activity_4_pattern : regex :=
  Seq [Lit (L "Activity"); Star (Cls space); Lit (L "4")].

(** [^Clues?:?\s*$] *)
Definition clues_marker_pattern : regex :=
  Seq [Bol; Lit (L "Clue"); Opt (Lit (L "s")); Opt (Lit (L ":"));
       Star (Cls space); Eol].

(** [^(Across|Down)].  The source tests the paragraph with [re.search] and
    reads the match with [re.match]; with [^] and without MULTILINE both
    match at the first character only. *)
Definition orientation_pattern : regex :=
  Seq [Bol; Group 1 (Or (Lit (L "Across")) (Lit (L "Down")))].

(** [^(\d+)\.\s+(.+)$] *)
Definition inline_clue_pattern : regex :=
  Seq [Bol; Group 1 (Plus (Cls digit)); Lit (L "."); Plus (Cls space);
       Group 2 (Plus (Cls dot)); Eol].

(** [^(\d+)\.\s+(.+?)(?:\s*\(([^)]+)\))?\s*$] *)
Definition numbered_clue_pattern : regex :=
  Seq [Bol; Group 1 (Plus (Cls digit)); Lit (L "."); Plus (Cls space);
       Group 2 (LazyPlus (Cls dot));
       Opt (Seq [Star (Cls space); Lit (L "(");
                 Group 3 (Plus (Cls (none_of (one ")")))); Lit (L ")")]);
       Star (Cls space); Eol].

(** [^[A-Z][A-Z\s-]+$] *)
Definition all_caps_pattern : regex :=
  Seq [Bol; Cls (range "A" "Z");
       Plus (Cls (either (range "A" "Z") (either space (one "-")))); Eol].

Record cw_state : Type := {
  crosswords : list Crossword;
  current_crossword : option Crossword;
  current_orientation : option str;
  in_crossword_section : bool;
  collecting_clues : bool;
  clue_counter : nat;
  i : nat
}.

(** [current_crossword and current_crossword.get('clues')] *)
Definition has_clues (current_crossword : option Crossword) : bool :=
  match current_crossword with
  | Some cw => truthy_list (cw_clues cw)
  | None => false
  end.

(** [current_crossword["clues"].append(...)] *)
Definition append_clues (current_crossword : option Crossword)
    (new : list CrosswordClue) : option Crossword :=
  match current_crossword with
  | Some cw => Some {| cw_title := cw_title cw; cw_clues := cw_clues cw ++ new |}
  | None => None
  end.

(** [' '.join(s.split())] *)
Definition collapse (s : str) : str := join (L " ") (split_ws s).

(** The clues written on the line of the orientation word: each numbered
    line is paired with every bold run of the paragraph longer than two
    characters. *)
Definition inline_clues (orientation : str) (para : Paragraph)
    (rest_of_text : str) : list CrosswordClue :=
  if nonempty rest_of_text then
    let lines := split_on "010" rest_of_text in
    flat_map
      (fun line =>
         match re_match false inline_clue_pattern (strip line) with
         | Some clue_pattern =>
             let clue_text := strip (group clue_pattern 2) in
             let bold_answers :=
               map (fun run => upper (strip (run_text run)))
                 (List.filter
                    (fun run => truthy (run_bold run)
                                && nonempty (strip (run_text run))
                                && (2 <? length (strip (run_text run))))
                    (runs para)) in
             map (fun answer =>
                    {| clue_orientation := orientation;
                       clue_clue := clue_text;
                       clue_answer := collapse answer |})
                 bold_answers
         | None => []
         end)
      lines
  else [].

(** The test for the end of the crossword section. *)
Definition cw_section_end (text : str) : bool :=
  matches (re_search true unit_2_pattern text)
  || matches (re_search true activity_4_pattern text).

Definition advance (n : nat) (st : cw_state) : cw_state :=
  {| crosswords := crosswords st;
     current_crossword := current_crossword st;
     current_orientation := current_orientation st;
     in_crossword_section := in_crossword_section st;
     collecting_clues := collecting_clues st;
     clue_counter := clue_counter st;
     i := i st + n |}.

(** One iteration of the [while] loop of [extract_crossword_puzzles];
    [para] is [doc.paragraphs[i]].  A crossword goes into [crosswords] only
    where [current_crossword] is rebound right after (or the loop is over),
    so no dictionary in the list is filled any further. *)
Definition cw_body (doc : Document) (st : cw_state) (para : Paragraph)
    : cw_state :=
  let text := strip (para_text para) in
  if negb (nonempty text) then advance 1 st
  else
  match re_search true crossword_header_pattern text with
  | Some crossword_match =>
      let part_num := group crossword_match 1 in
      let title_suffix := strip (group crossword_match 2) in
      let full_title :=
        L "Activity 3, Part " ++ part_num ++ L " - Crossword Puzzle" ++
        (if nonempty title_suffix then L ": " ++ title_suffix else []) in
      {| crosswords :=
           if has_clues (current_crossword st)
           then crosswords st ++ option_list (current_crossword st)
           else crosswords st;
         current_crossword := Some {| cw_title := full_title; cw_clues := [] |};
         current_orientation := None;
         in_crossword_section := true;
         collecting_clues := false;
         clue_counter := 1;
         i := i st + 1 |}
  | None =>
  if cw_section_end text
  then
    {| crosswords :=
         if has_clues (current_crossword st)
         then crosswords st ++ option_list (current_crossword st)
         else crosswords st;
       current_crossword :=
         if has_clues (current_crossword st) then None
         else current_crossword st;
       current_orientation := current_orientation st;
       in_crossword_section := false;
       collecting_clues := collecting_clues st;
       clue_counter := clue_counter st;
       i := i st + 1 |}
  else if negb (in_crossword_section st)
          || negb (bool_decide (is_Some (current_crossword st)))
  then advance 1 st
  else if matches (re_match true clues_marker_pattern text)
  then
    {| crosswords := crosswords st;
       current_crossword := current_crossword st;
       current_orientation := current_orientation st;
       in_crossword_section := in_crossword_section st;
       collecting_clues := true;
       clue_counter := clue_counter st;
       i := i st + 1 |}
  else
  match re_match true orientation_pattern text with
  | Some orientation_match =>
      let orientation := lower (group orientation_match 1) in
      let rest_of_text :=
        strip (drop (m_end orientation_match - m_start orientation_match) text) in
      {| crosswords := crosswords st;
         current_crossword :=
           append_clues (current_crossword st)
             (inline_clues orientation para rest_of_text);
         current_orientation := Some orientation;
         in_crossword_section := in_crossword_section st;
         collecting_clues := true;
         clue_counter := 1;
         i := i st + 1 |}
  | None =>
  if negb (collecting_clues st) || negb (truthy_str (current_orientation st))
  then advance 1 st
  else
  let orientation := default [] (current_orientation st) in
  match re_match false numbered_clue_pattern text with
  | Some clue_pattern =>
      (* Pattern 1: numbered clue, answer in the next paragraph *)
      let clue_text := strip (group clue_pattern 2) in
      match doc !! (i st + 1) with
      | Some next_para =>
          let next_text := strip (para_text next_para) in
          if matches (re_match false all_caps_pattern next_text) then
            let answer := collapse next_text in
            {| crosswords := crosswords st;
               current_crossword :=
                 append_clues (current_crossword st)
                   [{| clue_orientation := orientation;
                       clue_clue := clue_text;
                       clue_answer := answer |}];
               current_orientation := current_orientation st;
               in_crossword_section := in_crossword_section st;
               collecting_clues := collecting_clues st;
               clue_counter := clue_counter st;
               i := i st + 2 |}
          else advance 1 st
      | None => advance 1 st
      end
  | None =>
      (* Pattern 2: clue with a parenthesis, answer in bold in the next
         paragraph *)
      if contains (L "(") text && contains (L ")") text then
        let clue_text := strip text in
        match doc !! (i st + 1) with
        | Some next_para =>
            let bold_parts :=
              map (fun run => upper (strip (run_text run)))
                (List.filter
                   (fun run => truthy (run_bold run) && nonempty (strip (run_text run)))
                   (runs next_para)) in
            match bold_parts with
            | first_bold :: _ =>
                if matches (re_match false all_caps_pattern first_bold) then
                  let answer := collapse first_bold in
                  {| crosswords := crosswords st;
                     current_crossword :=
                       append_clues (current_crossword st)
                         [{| clue_orientation := orientation;
                             clue_clue := clue_text;
                             clue_answer := answer |}];
                     current_orientation := current_orientation st;
                     in_crossword_section := in_crossword_section st;
                     collecting_clues := collecting_clues st;
                     clue_counter := clue_counter st + 1;
                     i := i st + 2 |}
                else advance 1 st
            | [] => advance 1 st
            end
        | None => advance 1 st
        end
      else advance 1 st
  end
  end
  end.

(** The [while i < len(doc.paragraphs)] loop; [None] when [fuel]
    iterations were not enough. *)
Fixpoint cw_loop (fuel : nat) (doc : Document) (st : cw_state)
    : option cw_state :=
  match doc !! i st with
  | None => Some st
  | Some para =>
      match fuel with
      | O => None
      | S fuel' => cw_loop fuel' doc (cw_body doc st para)
      end
  end.

Definition cw_initial : cw_state :=
  {| crosswords := []; current_crossword := None; current_orientation := None;
     in_crossword_section := false; collecting_clues := false;
     clue_counter := 1; i := 0 |}.

(** The list assigned to [self.crossword_puzzles] after the loop. *)
Definition cw_finish (st : cw_state) : list Crossword :=
  if has_clues (current_crossword st)
  then crosswords st ++ option_list (current_crossword st)
  else crosswords st.

Definition extract_crossword_puzzles (self : Converter) (doc : Document)
    : option Converter :=
  final ← cw_loop (length doc) doc cw_initial;
  Some {| multiple_choice_questions := multiple_choice_questions self;
          true_false_questions := true_false_questions self;
          crossword_puzzles := cw_finish final;
          images := images self;
          shared_image_id := shared_image_id self |}.

(** ** Documents for the examples *)

Definition plain (s : string) : Run :=
  {| run_text := L s; run_bold := None; run_blips := [] |}.

Definition strong (s : string) : Run :=
  {| run_text := L s; run_bold := Some true; run_blips := [] |}.

Definition picture (embed : string) : Run :=
  {| run_text := []; run_bold := None; run_blips := [Some (L embed)] |}.

Definition para (rs : list Run) : Paragraph := {| runs := rs; has_pic := false |}.

Definition para_with_picture (rs : list Run) : Paragraph :=
  {| runs := rs; has_pic := true |}.

(** A line break inside a run. *)
Definition br : string := String "010" EmptyString.

(** ** The package, the H5P content and the files

    What [process_docx] does with the three lists: the images of the
    package ([extract_images_from_docx]), the content of the JSON files
    ([create_h5p_question_json], [create_h5p_true_false_json],
    [create_h5p_crossword_json]) and the files that are written.  A
    dictionary is a list of keys and values in the order of insertion, which
    is the order [json.dump] writes; printing is left out. *)

(** An image part: [blob] and [content_type]. *)
Record ImagePart : Type := { blob : str; content_type : str }.

(** A relationship of the document part.  [target_part] is [None] where
    reading it raises (python-docx does so for an external target). *)
Record Relationship : Type := {
  target_ref : str;
  target_part : option ImagePart
}.

(** [d[k] = v] on a dictionary kept in insertion order. *)
Fixpoint dict_set {V} (k : str) (v : V) (d : list (str * V)) : list (str * V) :=
  match d with
  | [] => [(k, v)]
  | (k', v') :: d' =>
      if Str.eqb k' k then (k, v) :: d' else (k', v') :: dict_set k v d'
  end.

(** [d.get(k)] *)
Fixpoint dict_get {V} (k : str) (d : list (str * V)) : option V :=
  match d with
  | [] => None
  | (k', v) :: d' => if Str.eqb k' k then Some v else dict_get k d'
  end.

(** The loop of [extract_images_from_docx]; an exception leaves the loop
    with what [images_info] holds by then. *)
Fixpoint images_loop (rels : list (str * Relationship))
    (images_info : list (str * ImageInfo)) : list (str * ImageInfo) :=
  match rels with
  | [] => images_info
  | (rel_id, rel) :: rels' =>
      if contains (L "image") (target_ref rel) then
        match target_part rel with
        | Some image_part =>
            let image_bytes := blob image_part in
            let ext := List.last (split_on "/" (content_type image_part)) [] in
            let ext := if Str.eqb ext (L "jpeg") then L "jpg" else ext in
            let image_name := L "image_" ++ rel_id ++ L "." ++ ext in
            images_loop rels'
              (dict_set rel_id
                 {| img_name := image_name;
                    img_bytes := image_bytes;
                    img_mime := content_type image_part;
                    img_size := length image_bytes;
                    img_width := 600;
                    img_height := 400 |}
                 images_info)
        | None => images_info
        end
      else images_loop rels' images_info
  end.

(** [rels] is [doc.part.rels.items()]. *)
Definition extract_images_from_docx (rels : list (str * Relationship))
    : list (str * ImageInfo) :=
  images_loop rels [].

Unset Elimination Schemes.
Inductive json : Type :=
  | JNull
  | JBool (b : bool)
  | JNum (n : nat)
  | JStr (s : str)
  | JList (l : list json)
  | JDict (d : list (str * json)).
Set Elimination Schemes.

Definition nl : str := ["010"%char].

(** [j[k]], for reading a value back. *)
Definition jget (k : string) (j : json) : option json :=
  match j with
  | JDict d => dict_get (L k) d
  | _ => None
  end.

Definition answer_json (option : MCOption) : json :=
  JDict
    [((L "correct"), JBool (opt_correct option));
     ((L "text"), JStr (L "<div>" ++ opt_text option ++ L "</div>" ++ nl));
     ((L "tipsAndFeedback"), JDict
      [((L "tip"), JStr []);
       ((L "chosenFeedback"), JStr []);
       ((L "notChosenFeedback"), JStr [])])].

Definition media_json (img_info : ImageInfo) (uuid : str) : json :=
  JDict
    [((L "type"), JDict
      [((L "params"), JDict
        [((L "contentName"), JStr (L "Image"));
         ((L "file"), JDict
          [((L "path"), JStr (L "images/" ++ img_name img_info));
           ((L "mime"), JStr (img_mime img_info));
           ((L "width"), JNum (img_width img_info));
           ((L "height"), JNum (img_height img_info));
           ((L "copyright"), JDict
            [((L "license"), JStr (L "U"))])]);
         ((L "alt"), JStr (L "Image for question"));
         ((L "decorative"), JBool false)]);
       ((L "library"), JStr (L "H5P.Image 1.1"));
       ((L "subContentId"), JStr uuid);
       ((L "metadata"), JDict
        [((L "title"), JStr (L "Question Image"));
         ((L "license"), JStr (L "U"));
         ((L "contentType"), JStr (L "Image"))])]);
     ((L "disableImageZooming"), JBool true)].

(** [uuid] is what [str(uuid.uuid4())] gives when it is called. *)
Definition create_h5p_question_json (self : Converter)
    (question_data : MultipleChoiceQuestion) (uuid : str) : json :=
  let answers := map answer_json (mc_options question_data) in
  let question_json :=
    [((L "answers"), JList answers);
     ((L "UI"), JDict
      [((L "showSolutionButton"), JStr (L "Show solution"));
       ((L "tryAgainButton"), JStr (L "Retry"));
       ((L "checkAnswerButton"), JStr (L "Check"));
       ((L "tipsLabel"), JStr (L "Show tip"));
       ((L "scoreBarLabel"), JStr (L "You got :num out of :total points"));
       ((L "tipAvailable"), JStr (L "Tip available"));
       ((L "feedbackAvailable"), JStr (L "Feedback available"));
       ((L "readFeedback"), JStr (L "Read feedback"));
       ((L "wrongAnswer"), JStr (L "Wrong answer"));
       ((L "correctAnswer"), JStr (L "Correct answer"));
       ((L "shouldCheck"), JStr (L "Should have been checked"));
       ((L "shouldNotCheck"), JStr (L "Should not have been checked"));
       ((L "noInput"), JStr (L "Please answer before viewing the solution"));
       ((L "submitAnswerButton"), JStr (L "Submit"));
       ((L "a11yCheck"), JStr (L "Check the answers."));
       ((L "a11yShowSolution"), JStr (L "Show the solution."));
       ((L "a11yRetry"), JStr (L "Retry the task."))]);
     ((L "question"), JStr (L "<p>" ++ mc_question question_data ++ L "</p>" ++ nl));
     ((L "behaviour"), JDict
      [((L "enableRetry"), JBool true);
       ((L "enableSolutionsButton"), JBool true);
       ((L "singlePoint"), JBool true);
       ((L "randomAnswers"), JBool true);
       ((L "showSolutionsRequiresInput"), JBool true);
       ((L "type"), JStr (L "auto"));
       ((L "confirmCheckDialog"), JBool false);
       ((L "confirmRetryDialog"), JBool false);
       ((L "autoCheck"), JBool false);
       ((L "passPercentage"), JNum 100);
       ((L "showScorePoints"), JBool true);
       ((L "enableCheckButton"), JBool true)]);
     ((L "confirmCheck"), JDict
      [((L "header"), JStr (L "Finish ?"));
       ((L "body"), JStr (L "Are you sure you wish to finish ?"));
       ((L "cancelLabel"), JStr (L "Cancel"));
       ((L "confirmLabel"), JStr (L "Finish"))]);
     ((L "confirmRetry"), JDict
      [((L "header"), JStr (L "Retry ?"));
       ((L "body"), JStr (L "Are you sure you wish to retry ?"));
       ((L "cancelLabel"), JStr (L "Cancel"));
       ((L "confirmLabel"), JStr (L "Confirm"))]);
     ((L "overallFeedback"), JList
      [JDict
        [((L "from"), JNum 0);
         ((L "to"), JNum 0);
         ((L "feedback"), JStr (L "Wrong"))];
       JDict
        [((L "from"), JNum 1);
         ((L "to"), JNum 99);
         ((L "feedback"), JStr (L "Almost!"))];
       JDict
        [((L "from"), JNum 100);
         ((L "to"), JNum 100);
         ((L "feedback"), JStr (L "Correct!"))]])] in
  let image_id := mc_image_id question_data in
  let found :=
    if truthy_str image_id
    then dict_get (default [] image_id) (images self) else None in
  match found with
  | Some img_info =>
      JDict (dict_set (L "media") (media_json img_info uuid) question_json)
  | None =>
      JDict (dict_set (L "media")
               (JDict [((L "disableImageZooming"), JBool true)])
               question_json)
  end.

Definition create_h5p_true_false_json (question_data : TrueFalseQuestion)
    : json :=
  JDict
    [((L "media"), JDict
      [((L "type"), JDict []);
       ((L "disableImageZooming"), JBool false)]);
     ((L "correct"), JStr (tf_correct_answer question_data));
     ((L "l10n"), JDict
      [((L "trueText"), JStr (L "True"));
       ((L "falseText"), JStr (L "False"));
       ((L "score"), JStr (L "You got @score of @total points"));
       ((L "checkAnswer"), JStr (L "Check"));
       ((L "showSolutionButton"), JStr (L "Show solution"));
       ((L "tryAgain"), JStr (L "Retry"));
       ((L "wrongAnswerMessage"), JStr (L "Wrong answer"));
       ((L "correctAnswerMessage"), JStr (L "Correct answer"));
       ((L "scoreBarLabel"), JStr (L "You got :num out of :total points"));
       ((L "submitAnswer"), JStr (L "Submit"));
       ((L "a11yCheck"), JStr (L "Check the answers. The responses will be marked as correct, incorrect, or unanswered."));
       ((L "a11yShowSolution"), JStr (L "Show the solution. The task will be marked with its correct solution."));
       ((L "a11yRetry"), JStr (L "Retry the task. Reset all responses and start the task over again."))]);
     ((L "behaviour"), JDict
      [((L "enableRetry"), JBool true);
       ((L "enableSolutionsButton"), JBool true);
       ((L "confirmCheckDialog"), JBool false);
       ((L "confirmRetryDialog"), JBool false);
       ((L "autoCheck"), JBool false);
       ((L "enableCheckButton"), JBool true)]);
     ((L "confirmCheck"), JDict
      [((L "header"), JStr (L "Finish ?"));
       ((L "body"), JStr (L "Are you sure you wish to finish ?"));
       ((L "cancelLabel"), JStr (L "Cancel"));
       ((L "confirmLabel"), JStr (L "Finish"))]);
     ((L "confirmRetry"), JDict
      [((L "header"), JStr (L "Retry ?"));
       ((L "body"), JStr (L "Are you sure you wish to retry ?"));
       ((L "cancelLabel"), JStr (L "Cancel"));
       ((L "confirmLabel"), JStr (L "Confirm"))]);
     ((L "question"), JStr (L "<p>" ++ tf_question question_data ++ L "</p>" ++ nl))].

Definition word_entry_json (clue_data : CrosswordClue) : json :=
  JDict
    [((L "fixWord"), JBool false);
     ((L "orientation"), JStr (clue_orientation clue_data));
     ((L "clue"), JStr (clue_clue clue_data));
     ((L "answer"), JStr (clue_answer clue_data))].

Definition create_h5p_crossword_json (crossword_data : Crossword) : json :=
  let words := map word_entry_json (cw_clues crossword_data) in
  JDict
    [((L "words"), JList words);
     ((L "overallFeedback"), JList
      [JDict
        [((L "from"), JNum 0);
         ((L "to"), JNum 100)]]);
     ((L "theme"), JDict
      [((L "backgroundColor"), JStr (L "#222b46"));
       ((L "gridColor"), JStr (L "#031928"));
       ((L "cellBackgroundColor"), JStr (L "#ffffff"));
       ((L "cellColor"), JStr (L "#000000"));
       ((L "clueIdColor"), JStr (L "#606060"));
       ((L "cellBackgroundColorHighlight"), JStr (L "#5c9ba9"));
       ((L "cellColorHighlight"), JStr (L "#031928"));
       ((L "clueIdColorHighlight"), JStr (L "#e0e0e0"))]);
     ((L "behaviour"), JDict
      [((L "enableInstantFeedback"), JBool false);
       ((L "scoreWords"), JBool true);
       ((L "applyPenalties"), JBool false);
       ((L "enableRetry"), JBool true);
       ((L "enableSolutionsButton"), JBool true)]);
     ((L "l10n"), JDict
      [((L "across"), JStr (L "Across"));
       ((L "down"), JStr (L "Down"));
       ((L "checkAnswer"), JStr (L "Check"));
       ((L "tryAgain"), JStr (L "Retry"));
       ((L "showSolution"), JStr (L "Show solution"));
       ((L "couldNotGenerateCrossword"), JStr (L "Could not generate crossword."));
       ((L "couldNotGenerateCrosswordTooFewWords"), JStr (L "Need at least two words."));
       ((L "probematicWords"), JStr (L "Problematic word(s): @words"));
       ((L "extraClue"), JStr (L "Extra clue"));
       ((L "closeWindow"), JStr (L "Close window"));
       ((L "submitAnswer"), JStr (L "Submit"))]);
     ((L "a11y"), JDict
      [((L "crosswordGrid"), JStr (L "Crossword grid."));
       ((L "column"), JStr (L "Column"));
       ((L "row"), JStr (L "Row"));
       ((L "across"), JStr (L "Across"));
       ((L "down"), JStr (L "Down"));
       ((L "empty"), JStr (L "Empty"));
       ((L "resultFor"), JStr (L "Result for: @clue"));
       ((L "correct"), JStr (L "Correct"));
       ((L "wrong"), JStr (L "Wrong"));
       ((L "point"), JStr (L "point"));
       ((L "solutionFor"), JStr (L "Solution: @solution"));
       ((L "check"), JStr (L "Check"));
       ((L "showSolution"), JStr (L "Show solution"));
       ((L "retry"), JStr (L "Retry"));
       ((L "yourResult"), JStr (L "You got @score out of @total points"))]);
     ((L "taskDescription"), JStr (L "<p>" ++ cw_title crossword_data ++ L "</p>" ++ nl))].

(** The files [save_images] writes, as paths under [output_dir] with their
    contents, in the order of writing. *)
Definition save_images (self : Converter) : list (str * str) :=
  map (fun '(img_id, img_info) =>
         (L "images/" ++ img_name img_info, img_bytes img_info))
      (images self).

(** [enumerate(l, 1)] *)
Definition enumerate_from {A} (start : nat) (l : list A) : list (nat * A) :=
  combine (seq start (length l)) l.

(** [f"{i}"] for a number that is not negative. *)
Definition str_of_nat (n : nat) : str :=
  L (DecimalString.NilEmpty.string_of_uint (Nat.to_uint n)).

(** What [process_docx] writes under [output_dir]. *)
Record Written : Type := {
  image_files : list (str * str);
  json_files : list (str * json)
}.

(** The second half of [process_docx], from the saving of the images on. *)
Definition process_docx_files (self : Converter) (uuid4 : nat -> str)
    : Written :=
  {| image_files := save_images self;
     json_files :=
       map (fun '(i, question_data) =>
              (L "question_" ++ str_of_nat i ++ L ".json",
               create_h5p_question_json self question_data (uuid4 i)))
           (enumerate_from 1 (multiple_choice_questions self))
       ++ map (fun '(i, tf_data) =>
                 (L "true_false_" ++ str_of_nat i ++ L ".json",
                  create_h5p_true_false_json tf_data))
            (enumerate_from 1 (true_false_questions self))
       ++ map (fun '(i, crossword_data) =>
                 (L "crossword_" ++ str_of_nat i ++ L ".json",
                  create_h5p_crossword_json crossword_data))
            (enumerate_from 1 (crossword_puzzles self)) |}.

(** [process_docx] without its printing.  [doc] and [rels] are the
    paragraphs and the relationships of the document at [docx_path], and
    [uuid4 i] is the identifier drawn while question [i] is written. *)
Definition process_docx (self : Converter) (doc : Document)
    (rels : list (str * Relationship)) (uuid4 : nat -> str)
    : option (Converter * Written) :=
  let self :=
    extract_multiple_choice_questions self doc (extract_images_from_docx rels) in
  let self := extract_true_false_questions self doc in
  self ← extract_crossword_puzzles self doc;
  Some (self, process_docx_files self uuid4).

(** * Statements

    The notions the properties below are stated with, and the documents
    they are tried on. *)

(** ** Patterns as languages *)

(** [cu'] is [cu] moved forward over the text [m]. *)
Definition moved (m : str) (cu cu' : cursor) : Prop :=
  after cu = m ++ after cu' /\ before cu' = rev m ++ before cu.

(** The language of a pattern, as a relation between the cursor where a
    match starts and the cursor where it ends. *)
Inductive den (ci : bool) : regex -> cursor -> cursor -> Prop :=
  | den_lit s cu cu' :
      eat ci s cu = Some cu' -> den ci (Lit s) cu cu'
  | den_cls p cu c :
      head (after cu) = Some c -> in_class ci p c = true ->
      den ci (Cls p) cu (step c cu)
  | den_cat r1 r2 cu cu1 cu2 :
      den ci r1 cu cu1 -> den ci r2 cu1 cu2 -> den ci (Cat r1 r2) cu cu2
  | den_or_l r1 r2 cu cu' : den ci r1 cu cu' -> den ci (Or r1 r2) cu cu'
  | den_or_r r1 r2 cu cu' : den ci r2 cu cu' -> den ci (Or r1 r2) cu cu'
  | den_star_stop r cu : den ci (Star r) cu cu
  | den_star_more r cu cu1 cu2 :
      den ci r cu cu1 -> pos cu1 <> pos cu -> den ci (Star r) cu1 cu2 ->
      den ci (Star r) cu cu2
  | den_lazy_stop r cu : den ci (LazyStar r) cu cu
  | den_lazy_more r cu cu1 cu2 :
      den ci r cu cu1 -> pos cu1 <> pos cu -> den ci (LazyStar r) cu1 cu2 ->
      den ci (LazyStar r) cu cu2
  | den_opt_some r cu cu' : den ci r cu cu' -> den ci (Opt r) cu cu'
  | den_opt_none r cu : den ci (Opt r) cu cu
  | den_group n r cu cu' : den ci r cu cu' -> den ci (Group n r) cu cu'
  | den_bol cu : before cu = [] -> den ci Bol cu cu
  | den_eol cu : at_end cu = true -> den ci Eol cu cu
  | den_wordb cu : at_word_boundary cu = true -> den ci WordB cu cu.

(** Whether the rest of the pattern succeeds does not depend on the groups
    captured so far. *)
Definition insensitive {R} (k1 k2 : cursor -> groups -> option R) : Prop :=
  forall cu gs1 gs2, is_Some (k1 cu gs1) <-> is_Some (k2 cu gs2).

(** [m] is the literal [lit], up to case under IGNORECASE. *)
Definition ci_equal (ci : bool) (lit m : str) : Prop :=
  Forall2 (fun a c => chr_eq ci a c = true) lit m.

(** A character of the class [[A-Z\s-]]. *)
Definition caps_char (c : ascii) : bool :=
  is_upper_az c || (is_space c || Ascii.eqb c "-").

(** ** Images *)

(** The statement that [find_image_near_paragraph] answers with the embed
    id of the first paragraph, from 5 before [i] to [n_after] after it, that
    yields one. *)
Definition image_window (n_after : Z) (doc : Document) (i : Z) : Prop :=
  forall e : str,
    find_image_near_paragraph doc i = Some e <->
    exists (j : nat) (para : Paragraph),
      (i - 5 <= Z.of_nat j <= i + n_after)%Z /\
      doc !! j = Some para /\ para_embed para = Some e /\
      forall (j' : nat) (para' : Paragraph),
        (i - 5 <= Z.of_nat j')%Z -> j' < j ->
        doc !! j' = Some para' -> para_embed para' = None.

(** ** Sections and options of the multiple-choice pass *)

(** The text holds "Activity" in any case, then white space or none, then
    one of the digits 2 to 9. *)
Definition names_activity_2_to_9 (text : str) : Prop :=
  exists pre word ws d post,
    text = pre ++ word ++ ws ++ d :: post /\
    lower word = L "activity" /\
    Forall (fun c => is_space c = true) ws /\
    between 50 57 d = true.

(** The text of the option a line gives, when the line is a lettered
    option line. *)
Definition option_line_text (line : str) : option str :=
  match re_match false option_pattern line with
  | Some option_match => Some (rstrip_char "." (strip (group option_match 2)))
  | None => None
  end.

(** What holds of an emitted question: it has an option, and its options
    are those of the lettered lines of one paragraph, in the order of the
    lines. *)
Definition options_follow_lines (doc : Document) (q : MultipleChoiceQuestion)
    : Prop :=
  1 <= length (mc_options q) /\
  exists para, para ∈ doc /\
    map opt_text (mc_options q) =
    omap option_line_text (drop 1 (split_on "010" (strip (para_text para)))).

(** ** Crosswords *)

(** Every crossword of the list has a clue. *)
Definition all_have_clues (l : list Crossword) : Prop :=
  Forall (fun cw => cw_clues cw <> []) l.

(** The state after a clue has been added to the crossword being filled
    and the cursor has moved over [n] paragraphs. *)
Definition with_clue (st : cw_state) (cw : Crossword) (clue : CrosswordClue)
    (n : nat) : cw_state :=
  {| crosswords := crosswords st;
     current_crossword :=
       Some {| cw_title := cw_title cw; cw_clues := cw_clues cw ++ [clue] |};
     current_orientation := current_orientation st;
     in_crossword_section := in_crossword_section st;
     collecting_clues := collecting_clues st;
     clue_counter := clue_counter st;
     i := i st + n |}.

(** The state after the cursor has moved over [n] paragraphs and nothing
    else has changed. *)
Definition with_cursor_moved (st : cw_state) (n : nat) : cw_state :=
  {| crosswords := crosswords st;
     current_crossword := current_crossword st;
     current_orientation := current_orientation st;
     in_crossword_section := in_crossword_section st;
     collecting_clues := collecting_clues st;
     clue_counter := clue_counter st;
     i := i st + n |}.

(** White space collapsed to single spaces, read from left to right: a
    stretch of white space becomes one space when a word has been written
    before it and another word follows ([started]: a word has been written;
    [gap]: white space has been passed since). *)
Fixpoint whitespace_collapsed_from (started gap : bool) (s : str) : str :=
  match s with
  | [] => []
  | c :: s' =>
      if is_space c then whitespace_collapsed_from started true s'
      else if started && gap
           then " "%char :: c :: whitespace_collapsed_from true false s'
           else c :: whitespace_collapsed_from true false s'
  end.

Definition whitespace_collapsed (s : str) : str :=
  whitespace_collapsed_from false false s.

(** ** The true/false token *)

(** [w] is "true" or "false" in any case. *)
Definition is_bool_word (w : str) : Prop :=
  lower w = L "true" \/ lower w = L "false".

(** [w] stands at offset [p] of [s] as a whole word: it is "true" or
    "false" in any case, and the characters next to it, if any, are not
    word characters. *)
Definition bool_token_at (s : str) (p : nat) (w : str) : Prop :=
  exists pre post,
    s = pre ++ w ++ post /\ length pre = p /\ is_bool_word w /\
    is_word_opt (last pre) = false /\ is_word_opt (head post) = false.

(** One alternative of the pattern, with the boundary test after it. *)
Definition tf_branch (lit : str) (cu : cursor)
    : option (cursor * rmatch_result) :=
  match eat true lit cu with
  | Some cu' =>
      if at_word_boundary cu'
      then Some (cu', Match (pos cu) (pos cu') [(1, consumed cu cu')])
      else None
  | None => None
  end.

(** The other answer. *)
Definition opposite (answer : str) : str :=
  if Str.eqb answer (L "true") then L "false" else L "true".


(** Texts of white space only, texts without white space, and the test
    [extract_text_with_formatting] keeps a run by. *)
Definition all_space (s : str) : Prop := Forall (fun c => is_space c = true) s.

Definition no_space (s : str) : Prop := Forall (fun c => is_space c = false) s.

Definition not_blank (text : str) : bool := nonempty (strip text).

(** ** Example documents *)

(** One paragraph that is a header for all three passes and also holds the
    end markers "Activity 3" and "Activity 4". *)
Definition header_for_all_passes : Paragraph :=
  para [plain "Activity 3, Part I - Crossword Puzzle: true or false quiz questions before Activity 4"].

(** The header of a multiple-choice section, and the state of the scan
    inside one. *)
Definition quiz_header : Paragraph := para [plain "Activity 1: Quiz"].

Definition in_quiz_section : mc_state :=
  {| in_mc_section := true; section_image_id := None;
     questions_in_current_section := []; mc_out := []; mc_shared := None |}.

(** A question whose paragraph repeats the letter A. *)
Definition five_option_document : Document :=
  [para [plain "Activity 1: Quiz"];
   para [plain "1. Which of these is a fruit?"; plain br;
         plain "A. Apple"; plain br; plain "A. Apricot"; plain br;
         plain "B. Beet"; plain br; plain "C. Carrot"; plain br;
         plain "D. Dill"]].

(** The question [five_option_document] gives. *)
Definition five_option_question : MultipleChoiceQuestion :=
  {| mc_question := L "Which of these is a fruit?";
     mc_options :=
       [{| opt_text := L "Apple"; opt_correct := false |};
        {| opt_text := L "Apricot"; opt_correct := false |};
        {| opt_text := L "Beet"; opt_correct := false |};
        {| opt_text := L "Carrot"; opt_correct := false |};
        {| opt_text := L "Dill"; opt_correct := false |}];
     mc_image_id := None |}.

(** The paragraph of the planet question, as text and cut into runs in two
    ways. *)
Definition planet_text : string :=
  "3. Which planet is closest to the sun?" ++ br ++ "A. Venus" ++ br ++
  "B. Mercury" ++ br ++ "C. Earth" ++ br ++ "D. Mars".

(** One run for each line and one for each line break. *)
Definition planet_runs_by_line : Paragraph :=
  para [plain "3. Which planet is closest to the sun?"; plain br;
        plain "A. Venus"; plain br; strong "B. Mercury"; plain br;
        plain "C. Earth"; plain br; plain "D. Mars"].

(** Three runs: everything before "B. Mercury", "B. Mercury", everything
    after it. *)
Definition planet_runs_in_three : Paragraph :=
  para [plain ("3. Which planet is closest to the sun?" ++ br ++ "A. Venus" ++ br);
        strong "B. Mercury";
        plain (br ++ "C. Earth" ++ br ++ "D. Mars")].

(** The options of the planet question, with the flags of Venus and
    Mercury left open. *)
Definition planet_options (venus mercury : bool) : list MCOption :=
  [{| opt_text := L "Venus"; opt_correct := venus |};
   {| opt_text := L "Mercury"; opt_correct := mercury |};
   {| opt_text := L "Earth"; opt_correct := false |};
   {| opt_text := L "Mars"; opt_correct := false |}].

(** A crossword with one numbered clue and its answer. *)
Definition ice_document : Document :=
  [para [plain "Activity 3, Part I - Crossword Puzzle"];
   para [plain "Across"];
   para [plain "4. A frozen form of water"];
   para [plain "ICE"]].

Definition ice_crossword : Crossword :=
  {| cw_title := L "Activity 3, Part I - Crossword Puzzle"; cw_clues := [] |}.

(** The state of the scan of [ice_document] at the clue paragraph. *)
Definition at_ice_clue : cw_state :=
  {| crosswords := []; current_crossword := Some ice_crossword;
     current_orientation := Some (L "across"); in_crossword_section := true;
     collecting_clues := true; clue_counter := 1; i := 2 |}.

Definition ice_clue : CrosswordClue :=
  {| clue_orientation := L "across";
     clue_clue := L "A frozen form of water";
     clue_answer := L "ICE" |}.

(** A statement followed by both words, "False" in bold, and one followed
    by a plain "True" alone. *)
Definition ends_in_bold_false : Paragraph :=
  para [plain "The sky is green. True "; strong "False"].

Definition ends_in_plain_true : Paragraph :=
  para [plain "Water is dry. "; plain "True"].

(** Answers with more than one space, and not in capitals. *)
Definition dry_ice_document : Document :=
  [para [plain "Activity 3, Part I - Crossword Puzzle"];
   para [plain "Across"];
   para [plain "4. Frozen carbon dioxide"];
   para [plain "DRY   ICE"]].

Definition dry_ice_clue : CrosswordClue :=
  {| clue_orientation := L "across";
     clue_clue := L "Frozen carbon dioxide";
     clue_answer := L "DRY ICE" |}.

(** The answer is not in capitals. *)
Definition small_ice_document : Document :=
  [para [plain "Activity 3, Part I - Crossword Puzzle"];
   para [plain "Across"];
   para [plain "4. A frozen form of water"];
   para [plain "Ice"]].

(** A numbered clue that names Unit 2, with its answer. *)
Definition unit_2_clue_document : Document :=
  [para [plain "Activity 3, Part I - Crossword Puzzle"];
   para [plain "Across"];
   para [plain "7. Main topic of Unit 2 (5 letters)"];
   para [plain "VERBS"]].


(** ** What the passes leave in the lists *)

(** The questions the true/false pass finds in a document. *)
Definition tf_found (doc : Document) : list TrueFalseQuestion :=
  true_false_questions (extract_true_false_questions reset doc).

(** The question is what [parse_true_false_from_runs] gives for a
    paragraph of the document that [is_true_false_question] accepts, and
    neither its text nor its answer is empty. *)
Definition tf_question_of (doc : Document) (q : TrueFalseQuestion) : Prop :=
  tf_question q <> [] /\ tf_correct_answer q <> [] /\
  exists para,
    para ∈ doc /\
    is_true_false_question (strip (para_text para)) = true /\
    parse_true_false_from_runs para =
      (Some (tf_question q), Some (tf_correct_answer q)).

(** [s] keeps the output of [st] and puts [old] in front of it. *)
Definition tf_with_older (old : list TrueFalseQuestion) (st : tf_state)
    : tf_state :=
  {| in_true_false_section := in_true_false_section st;
     tf_out := old ++ tf_out st |}.

(** The text ends in a "true" or "false" that starts a word. *)
Definition ends_in_bool_word (text : str) : Prop :=
  exists pre w,
    text = pre ++ w /\ is_bool_word w /\ is_word_opt (last pre) = false.

(** The text ends in a "true" or "false" between two pairs of stars. *)
Definition ends_in_starred_bool_word (text : str) : Prop :=
  exists pre w, text = pre ++ L "**" ++ w ++ L "**" /\ is_bool_word w.

(** The questions the multiple-choice pass finds in a document. *)
Definition mc_found (doc : Document) : list MultipleChoiceQuestion :=
  multiple_choice_questions (extract_multiple_choice_questions reset doc []).

(** The lines of a paragraph, as the multiple-choice pass cuts them. *)
Definition para_lines (para : Paragraph) : list str :=
  split_on "010" (strip (para_text para)).

(** The paragraph has a bold run that is not blank. *)
Definition has_bold_run (para : Paragraph) : Prop :=
  exists run,
    run ∈ runs para /\ run_bold run = Some true /\
    nonempty (strip (run_text run)) = true.

(** [e] is a non-empty embed id that the first blip of a run carries, in a
    paragraph of the document that holds a picture. *)
Definition embed_of (doc : Document) (e : str) : Prop :=
  e <> [] /\
  exists para run,
    para ∈ doc /\ has_pic para = true /\ run ∈ runs para /\
    head (run_blips run) = Some (Some e).

(** What one iteration of the multiple-choice loop does to the list of
    questions: nothing, or one question of the paragraph at the end. *)
Definition mc_emits (doc : Document) (st : mc_state) (idx : nat)
    (para : Paragraph) (out : list MultipleChoiceQuestion) : Prop :=
  out = mc_out st \/
  exists question_text,
    in_mc_section st = true /\
    extract_options (para_lines para) para <> [] /\
    out = mc_out st ++
      [{| mc_question := question_text;
          mc_options := extract_options (para_lines para) para;
          mc_image_id :=
            if truthy_str (find_image_near_paragraph doc (Z.of_nat idx))
            then find_image_near_paragraph doc (Z.of_nat idx)
            else section_image_id st |}].

(** A question of the pass comes from a paragraph of the document. *)
Definition question_of (doc : Document) (q : MultipleChoiceQuestion) : Prop :=
  exists para,
    para ∈ doc /\ mc_options q = extract_options (para_lines para) para.

Definition planet_question : MultipleChoiceQuestion :=
  {| mc_question := L "Which planet is closest to the sun?";
     mc_options := planet_options false true;
     mc_image_id := None |}.

(** Two states of the scan that differ in what was found before it. *)
Definition mc_same_scan (old : list MultipleChoiceQuestion)
    (st1 st2 : mc_state) : Prop :=
  in_mc_section st1 = in_mc_section st2 /\
  section_image_id st1 = section_image_id st2 /\
  mc_out st1 = old ++ mc_out st2.

(** The image ids a state of the scan holds are embed ids of the document,
    and a shared image id is there only after a question. *)
Definition mc_images_ok (doc : Document) (st : mc_state) : Prop :=
  (forall e, section_image_id st = Some e -> embed_of doc e) /\
  (forall q e, q ∈ mc_out st -> mc_image_id q = Some e -> embed_of doc e) /\
  (forall e, mc_shared st = Some e -> embed_of doc e /\ mc_out st <> []) /\
  (questions_in_current_section st <> [] -> mc_out st <> []).

(** A quiz section whose header paragraph carries a picture. *)
Definition illustrated_quiz : Document :=
  [para_with_picture [plain "Activity 1: Quiz"; picture "rId7"];
   planet_runs_by_line;
   para [plain "Activity 2: Reading"]].

Definition illustrated_question : MultipleChoiceQuestion :=
  {| mc_question := L "Which planet is closest to the sun?";
     mc_options := planet_options false true;
     mc_image_id := Some (L "rId7") |}.

(** [o] is the first word of an orientation paragraph of the document, in
    lower case. *)
Definition orientation_of (doc : Document) (o : str) : Prop :=
  exists para orientation_match,
    para ∈ doc /\
    re_match true orientation_pattern (strip (para_text para))
      = Some orientation_match /\
    o = lower (group orientation_match 1).

(** Words without white space, joined by single spaces. *)
Definition single_spaced (a : str) : Prop :=
  exists words, a = join (L " ") words /\
                Forall (fun w => w <> [] /\ no_space w) words.

Definition no_small_letter (a : str) : Prop :=
  Forall (fun c => is_lower_az c = false) a.

(** Every clue of the crossword has an orientation with [Q] and an answer
    with [A]. *)
Definition clues_with (Q A : str -> Prop) (cw : Crossword) : Prop :=
  Forall (fun c => Q (clue_orientation c) /\ A (clue_answer c)) (cw_clues cw).

(** What the loop keeps true of its variables, for a property [Q] of the
    orientations it reads and a property [A] of the answers it writes. *)
Definition cw_state_with (Q A : str -> Prop) (st : cw_state) : Prop :=
  Forall (clues_with Q A) (crosswords st) /\
  (forall cw, current_crossword st = Some cw -> clues_with Q A cw) /\
  (forall o, current_orientation st = Some o -> o <> [] -> Q o).

(** The crosswords of a document. *)
Definition cw_found (doc : Document) : list Crossword :=
  from_option crossword_puzzles [] (extract_crossword_puzzles reset doc).

(** The state of the loop as long as no header has been read. *)
Definition cw_nothing_yet (st : cw_state) : Prop :=
  crosswords st = [] /\ current_crossword st = None.

Definition clues_without_header : Document :=
  [para [plain "Across"];
   para [plain "4. A frozen form of water"];
   para [plain "ICE"]].

(** ** What the written files hold *)

(** The name of the [i]-th file of a kind. *)
Definition file_name (kind : string) (i : nat) : str :=
  L kind ++ str_of_nat i ++ L ".json".

(** The path of the image a question file refers to. *)
Definition media_path (j : json) : option str :=
  media ← jget "media" j;
  type ← jget "type" media;
  params ← jget "params" type;
  file ← jget "file" params;
  path ← jget "path" file;
  match path with JStr p => Some p | _ => None end.

(** A workbook with one activity of each kind, and its relationships. *)
Definition workbook : Document :=
  [para_with_picture [plain "Activity 1: Quiz"; picture "rId7"];
   planet_runs_by_line;
   para [plain "Activity 2: True or False"];
   ends_in_bold_false;
   para [plain "Activity 3, Part I - Crossword Puzzle"];
   para [plain "Across"];
   para [plain "4. A frozen form of water"];
   para [plain "ICE"]].

Definition styles_rel : Relationship :=
  {| target_ref := L "styles.xml"; target_part := None |}.

Definition jpeg_rel : Relationship :=
  {| target_ref := L "media/image1.jpeg";
     target_part := Some {| blob := L "JFIF"; content_type := L "image/jpeg" |} |}.

(** An image that is linked, not embedded. *)
Definition linked_rel : Relationship :=
  {| target_ref := L "https://example.org/image2.png"; target_part := None |}.

Definition workbook_rels : list (str * Relationship) :=
  [(L "rId1", styles_rel); (L "rId7", jpeg_rel)].

Definition fixed_uuid (i : nat) : str :=
  L "00000000-0000-4000-8000-000000000000".

(** What [extract_images_from_docx] records for a relationship. *)
Definition image_of (rel_id : str) (rel : Relationship) (info : ImageInfo)
    : Prop :=
  contains (L "image") (target_ref rel) = true /\
  exists image_part ext,
    target_part rel = Some image_part /\
    img_bytes info = blob image_part /\
    img_mime info = content_type image_part /\
    img_size info = length (blob image_part) /\
    img_width info = 600 /\ img_height info = 400 /\
    img_name info = L "image_" ++ rel_id ++ L "." ++ ext /\
    ext <> L "jpeg".

(** The text does not end in a full stop. *)
Definition no_final_stop (text : str) : Prop := forall t, text <> t ++ L ".".

(** What holds of every question the multiple-choice pass emits. *)
Definition question_well_formed (q : MultipleChoiceQuestion) : Prop :=
  (exists t, mc_question q = t ++ L "?") /\
  mc_options q <> [] /\
  Forall (fun o => no_final_stop (opt_text o)) (mc_options q).

(** * Properties *)

(** ** The matcher and the language of a pattern *)

Section Inversion.
Context (ci : bool).

Lemma den_lit_inv s cu cu' : den ci (Lit s) cu cu' <-> eat ci s cu = Some cu'.
Proof. split; [inversion 1; subst; assumption|apply den_lit]. Qed.

Lemma den_cls_inv p cu cu' :
  den ci (Cls p) cu cu' <->
  exists c, head (after cu) = Some c /\ in_class ci p c = true /\
            cu' = step c cu.
Proof.
  split.
  - inversion 1; subst. eauto.
  - intros (c & Hc & Hp & ->). apply den_cls; assumption.
Qed.

Lemma den_cat_inv r1 r2 cu cu' :
  den ci (Cat r1 r2) cu cu' <->
  exists cu1, den ci r1 cu cu1 /\ den ci r2 cu1 cu'.
Proof.
  split.
  - inversion 1; subst. eauto.
  - intros (cu1 & H1 & H2). eapply den_cat; eassumption.
Qed.

Lemma den_or_inv r1 r2 cu cu' :
  den ci (Or r1 r2) cu cu' <-> den ci r1 cu cu' \/ den ci r2 cu cu'.
Proof.
  split.
  - inversion 1; subst; auto.
  - intros [H|H]; [apply den_or_l|apply den_or_r]; assumption.
Qed.

Lemma den_star_inv r cu cu' :
  den ci (Star r) cu cu' <->
  cu' = cu \/
  exists cu1, den ci r cu cu1 /\ pos cu1 <> pos cu /\ den ci (Star r) cu1 cu'.
Proof.
  split.
  - inversion 1; subst; eauto.
  - intros [->|(cu1 & H1 & H2 & H3)];
      [apply den_star_stop|eapply den_star_more; eassumption].
Qed.

Lemma den_lazy_inv r cu cu' :
  den ci (LazyStar r) cu cu' <->
  cu' = cu \/
  exists cu1, den ci r cu cu1 /\ pos cu1 <> pos cu /\
              den ci (LazyStar r) cu1 cu'.
Proof.
  split.
  - inversion 1; subst; eauto.
  - intros [->|(cu1 & H1 & H2 & H3)];
      [apply den_lazy_stop|eapply den_lazy_more; eassumption].
Qed.

Lemma den_opt_inv r cu cu' :
  den ci (Opt r) cu cu' <-> den ci r cu cu' \/ cu' = cu.
Proof.
  split.
  - inversion 1; subst; auto.
  - intros [H| ->]; [apply den_opt_some; assumption|apply den_opt_none].
Qed.

Lemma den_group_inv n r cu cu' :
  den ci (Group n r) cu cu' <-> den ci r cu cu'.
Proof. split; [inversion 1; subst; assumption|apply den_group]. Qed.

Lemma den_bol_inv cu cu' :
  den ci Bol cu cu' <-> before cu = [] /\ cu' = cu.
Proof.
  split; [inversion 1; subst; auto|intros [H ->]; apply den_bol; assumption].
Qed.

Lemma den_eol_inv cu cu' :
  den ci Eol cu cu' <-> at_end cu = true /\ cu' = cu.
Proof.
  split; [inversion 1; subst; auto|intros [H ->]; apply den_eol; assumption].
Qed.

Lemma den_wordb_inv cu cu' :
  den ci WordB cu cu' <-> at_word_boundary cu = true /\ cu' = cu.
Proof.
  split; [inversion 1; subst; auto|intros [H ->]; apply den_wordb; assumption].
Qed.
End Inversion.

Lemma moved_nil cu : moved [] cu cu.
Proof. split; reflexivity. Qed.

Lemma moved_trans m1 m2 cu cu1 cu2 :
  moved m1 cu cu1 -> moved m2 cu1 cu2 -> moved (m1 ++ m2) cu cu2.
Proof.
  intros [Ha Hb] [Ha' Hb']. split.
  - rewrite Ha, Ha', app_assoc. reflexivity.
  - rewrite Hb', Hb, rev_app_distr, app_assoc. reflexivity.
Qed.

Lemma moved_step c cu : head (after cu) = Some c -> moved [c] cu (step c cu).
Proof.
  destruct cu as [b [|c' a]]; simpl; [discriminate|]. intros [= ->].
  split; reflexivity.
Qed.

Lemma moved_pos m cu cu' : moved m cu cu' -> pos cu' = length m + pos cu.
Proof.
  intros [_ Hb]. unfold pos. rewrite Hb, length_app, length_rev. reflexivity.
Qed.

Lemma moved_after m cu cu' :
  moved m cu cu' -> length (after cu) = length m + length (after cu').
Proof. intros [Ha _]. rewrite Ha, length_app. reflexivity. Qed.

Lemma eat_moved ci s cu cu' :
  eat ci s cu = Some cu' ->
  exists m, moved m cu cu' /\ Forall2 (fun a c => chr_eq ci a c = true) s m.
Proof.
  revert cu. induction s as [|a s IH]; intros cu; simpl.
  - intros [= <-]. exists []. split; [apply moved_nil|constructor].
  - destruct (after cu) as [|c rest] eqn:Hafter; [discriminate|].
    destruct (chr_eq ci a c) eqn:Hc; [|discriminate].
    intros H. apply IH in H as (m & Hm & Hall).
    exists (c :: m). split.
    + apply (moved_trans [c] m cu (step c cu)); [|assumption].
      apply moved_step. rewrite Hafter. reflexivity.
    + constructor; assumption.
Qed.

Lemma moved_eat ci s m cu cu' :
  moved m cu cu' -> Forall2 (fun a c => chr_eq ci a c = true) s m ->
  eat ci s cu = Some cu'.
Proof.
  intros Hm Hall. revert cu Hm.
  induction Hall as [|a c s m Hc Hall IH]; intros cu [Ha Hb]; simpl in *.
  - destruct cu, cu'; simpl in *; subst; reflexivity.
  - rewrite Ha, Hc. apply IH. split; simpl.
    + rewrite Ha. reflexivity.
    + rewrite Hb, <- app_assoc. reflexivity.
Qed.

Lemma den_moved ci r cu cu' : den ci r cu cu' -> exists m, moved m cu cu'.
Proof.
  induction 1;
    try (exists []; apply moved_nil);
    try assumption.
  - apply eat_moved in H as (m & Hm & _). exists m. assumption.
  - exists [c]. apply moved_step. assumption.
  - destruct IHden1 as [m1 ?], IHden2 as [m2 ?].
    exists (m1 ++ m2). eapply moved_trans; eassumption.
  - destruct IHden1 as [m1 ?], IHden2 as [m2 ?].
    exists (m1 ++ m2). eapply moved_trans; eassumption.
  - destruct IHden1 as [m1 ?], IHden2 as [m2 ?].
    exists (m1 ++ m2). eapply moved_trans; eassumption.
Qed.

Lemma den_progress ci r cu cu' :
  den ci r cu cu' -> pos cu' <> pos cu ->
  length (after cu') < length (after cu).
Proof.
  intros H Hpos. apply den_moved in H as [m Hm].
  pose proof (moved_pos _ _ _ Hm). pose proof (moved_after _ _ _ Hm).
  destruct m; simpl in *; lia.
Qed.

Lemma is_Some_orelse {R} (x y : option R) :
  is_Some (orelse x y) <-> is_Some x \/ is_Some y.
Proof.
  destruct x; simpl; split; intros H; eauto.
  destruct H as [H|H]; [destruct H; discriminate|assumption].
Qed.

Section Success.
Context {R : Type} (ci : bool).
Implicit Types k : cursor -> groups -> option R.

Lemma star_loop_insensitive body1 body2 greedy k1 k2 :
  (forall k1' k2', insensitive k1' k2' ->
     forall cu gs1 gs2,
       is_Some (body1 cu gs1 k1') <-> is_Some (body2 cu gs2 k2')) ->
  insensitive k1 k2 ->
  forall n, insensitive (star_loop body1 greedy k1 n) (star_loop body2 greedy k2 n).
Proof.
  intros Hbody Hk n. induction n as [|n IH]; intros cu gs1 gs2; simpl.
  - apply Hk.
  - assert (Hagain :
      is_Some (body1 cu gs1 (fun cu' gs' =>
                 if pos cu' =? pos cu then None
                 else star_loop body1 greedy k1 n cu' gs')) <->
      is_Some (body2 cu gs2 (fun cu' gs' =>
                 if pos cu' =? pos cu then None
                 else star_loop body2 greedy k2 n cu' gs'))).
    { apply Hbody. intros cu' g1 g2.
      destruct (pos cu' =? pos cu); [reflexivity|apply IH]. }
    destruct greedy; rewrite !is_Some_orelse, Hagain, (Hk cu gs1 gs2);
      reflexivity.
Qed.

Lemma rmatch_insensitive r :
  forall k1 k2, insensitive k1 k2 ->
  insensitive (fun cu gs => rmatch (R:=R) ci r cu gs k1)
              (fun cu gs => rmatch ci r cu gs k2).
Proof.
  induction r as [s|p|r1 IH1 r2 IH2|r1 IH1 r2 IH2|r1 IH1|r1 IH1|r1 IH1
                 |n r1 IH1| | |];
    intros k1 k2 Hk cu gs1 gs2; cbn [rmatch].
  - destruct (eat ci s cu); [apply Hk|reflexivity].
  - destruct (after cu) as [|c rest]; [reflexivity|].
    destruct (in_class ci p c); [apply Hk|reflexivity].
  - apply (IH1 _ _ (IH2 _ _ Hk)).
  - rewrite !is_Some_orelse, (IH1 _ _ Hk cu gs1 gs2), (IH2 _ _ Hk cu gs1 gs2).
    reflexivity.
  - apply star_loop_insensitive; [|assumption].
    intros k1' k2' Hk' cu' g1 g2. apply (IH1 _ _ Hk').
  - apply star_loop_insensitive; [|assumption].
    intros k1' k2' Hk' cu' g1 g2. apply (IH1 _ _ Hk').
  - rewrite !is_Some_orelse, (IH1 _ _ Hk cu gs1 gs2), (Hk cu gs1 gs2).
    reflexivity.
  - apply (IH1 (fun cu' gs' => k1 cu' ((n, consumed cu cu') :: gs'))
               (fun cu' gs' => k2 cu' ((n, consumed cu cu') :: gs'))).
    intros cu' g1 g2. apply Hk.
  - destruct (before cu); [apply Hk|reflexivity].
  - destruct (at_end cu); [apply Hk|reflexivity].
  - destruct (at_word_boundary cu); [apply Hk|reflexivity].
Qed.

(** The matcher succeeds exactly when the pattern has a match from the
    cursor after which the rest of the pattern succeeds. *)
Theorem rmatch_succeeds r :
  forall k cu gs, insensitive k k ->
    is_Some (rmatch ci r cu gs k) <->
    exists cu', den ci r cu cu' /\ is_Some (k cu' []).
Proof.
  induction r as [s|p|r1 IH1 r2 IH2|r1 IH1 r2 IH2|r1 IH1|r1 IH1|r1 IH1
                 |n r1 IH1| | |];
    intros k cu gs Hk; cbn [rmatch].
  - setoid_rewrite den_lit_inv.
    destruct (eat ci s cu) as [cu'|] eqn:Heat.
    + rewrite (Hk cu' gs []). split; [eauto|].
      intros (cu'' & Heq & Hrest). injection Heq as <-. assumption.
    + split; [intros [? ?]; discriminate|].
      intros (cu'' & [=] & H).
  - setoid_rewrite den_cls_inv.
    destruct (after cu) as [|c rest] eqn:Hafter; simpl.
    + split; [intros [? ?]; discriminate|].
      intros (cu'' & (c & [=] & _) & _).
    + destruct (in_class ci p c) eqn:Hc.
      * rewrite (Hk _ gs []). split; [eauto 6|].
        intros (cu'' & (c' & Hc' & _ & ->) & Hrest). injection Hc' as <-. assumption.
      * split; [intros [? ?]; discriminate|].
        intros (cu'' & (c' & Hhd & Hc' & _) & _). injection Hhd as <-. congruence.
  - setoid_rewrite den_cat_inv.
    rewrite IH1 by (apply rmatch_insensitive; assumption). split.
    + intros (cu1 & H1 & H2). apply IH2 in H2 as (cu2 & H2 & H3); eauto.
    + intros (cu2 & (cu1 & H1 & H2) & H).
      exists cu1. split; [assumption|]. apply IH2; eauto.
  - setoid_rewrite den_or_inv.
    rewrite is_Some_orelse, IH1, IH2 by assumption. split.
    + intros [(cu' & H1 & H2)|(cu' & H1 & H2)]; eauto.
    + intros (cu' & [H1|H1] & H); eauto.
  - (* Star *)
    assert (Hloop : forall n cu gs, length (after cu) < n ->
      is_Some (star_loop (rmatch ci r1) true k n cu gs) <->
      exists cu', den ci (Star r1) cu cu' /\ is_Some (k cu' [])).
    { clear cu gs. induction n as [|n IHn]; intros cu gs Hn; [lia|].
      setoid_rewrite den_star_inv.
      simpl. rewrite is_Some_orelse, (Hk cu gs []).
      rewrite IH1.
      2:{ intros cu' g1 g2. destruct (pos cu' =? pos cu); [reflexivity|].
          apply star_loop_insensitive; [|assumption].
          intros k1' k2' Hk' cu'' g1' g2'.
          apply (rmatch_insensitive r1 _ _ Hk'). }
      split.
      - intros [(cu1 & H1 & H2)|H]; [|eauto].
        destruct (pos cu1 =? pos cu) eqn:Hpos;
          [destruct H2; discriminate|].
        apply Nat.eqb_neq in Hpos.
        apply IHn in H2 as (cu2 & H2 & H3); [eauto 8|].
        pose proof (den_progress _ _ _ _ H1 Hpos). lia.
      - intros (cu2 & [->|(cu1 & H1 & Hpos & H2)] & H); [auto|].
        left. exists cu1. split; [assumption|].
        apply Nat.eqb_neq in Hpos as Hpos'. rewrite Hpos'.
        apply IHn; [|eauto].
        pose proof (den_progress _ _ _ _ H1 Hpos). lia. }
    apply Hloop. lia.
  - (* LazyStar *)
    assert (Hloop : forall n cu gs, length (after cu) < n ->
      is_Some (star_loop (rmatch ci r1) false k n cu gs) <->
      exists cu', den ci (LazyStar r1) cu cu' /\ is_Some (k cu' [])).
    { clear cu gs. induction n as [|n IHn]; intros cu gs Hn; [lia|].
      setoid_rewrite den_lazy_inv.
      simpl. rewrite is_Some_orelse, (Hk cu gs []).
      rewrite IH1.
      2:{ intros cu' g1 g2. destruct (pos cu' =? pos cu); [reflexivity|].
          apply star_loop_insensitive; [|assumption].
          intros k1' k2' Hk' cu'' g1' g2'.
          apply (rmatch_insensitive r1 _ _ Hk'). }
      split.
      - intros [H|(cu1 & H1 & H2)]; [eauto|].
        destruct (pos cu1 =? pos cu) eqn:Hpos;
          [destruct H2; discriminate|].
        apply Nat.eqb_neq in Hpos.
        apply IHn in H2 as (cu2 & H2 & H3); [eauto 8|].
        pose proof (den_progress _ _ _ _ H1 Hpos). lia.
      - intros (cu2 & [->|(cu1 & H1 & Hpos & H2)] & H); [auto|].
        right. exists cu1. split; [assumption|].
        apply Nat.eqb_neq in Hpos as Hpos'. rewrite Hpos'.
        apply IHn; [|eauto].
        pose proof (den_progress _ _ _ _ H1 Hpos). lia. }
    apply Hloop. lia.
  - setoid_rewrite den_opt_inv.
    rewrite is_Some_orelse, IH1, (Hk cu gs []) by assumption. split.
    + intros [(cu' & H1 & H2)|H]; eauto.
    + intros (cu' & [H1| ->] & H); eauto.
  - setoid_rewrite den_group_inv.
    rewrite IH1.
    2:{ intros cu' g1 g2. apply Hk. }
    split.
    + intros (cu' & H1 & H2). exists cu'. split; [assumption|].
      apply (Hk cu' _ []) in H2. assumption.
    + intros (cu' & H1 & H). exists cu'. split; [assumption|].
      apply (Hk cu' _ []). assumption.
  - setoid_rewrite den_bol_inv. destruct (before cu) eqn:Hb.
    + rewrite (Hk cu gs []). split; [eauto|].
      intros (cu' & [_ ->] & H). assumption.
    + split; [intros [? ?]; discriminate|].
      intros (cu' & [[=] _] & _).
  - setoid_rewrite den_eol_inv. destruct (at_end cu) eqn:Hb.
    + rewrite (Hk cu gs []). split; [eauto|].
      intros (cu' & [_ ->] & H). assumption.
    + split; [intros [? ?]; discriminate|].
      intros (cu' & [[=] _] & _).
  - setoid_rewrite den_wordb_inv. destruct (at_word_boundary cu) eqn:Hb.
    + rewrite (Hk cu gs []). split; [eauto|].
      intros (cu' & [_ ->] & H). assumption.
    + split; [intros [? ?]; discriminate|].
      intros (cu' & [[=] _] & _).
Qed.
End Success.

(** ** What the matching functions decide *)

Lemma insensitive_final (f : cursor -> groups -> cursor * rmatch_result) :
  insensitive (fun cu gs => Some (f cu gs)) (fun cu gs => Some (f cu gs)).
Proof. intros cu gs1 gs2. split; eauto. Qed.

Lemma match_here_is_Some ci r cu :
  is_Some (match_here ci r cu) <-> exists cu', den ci r cu cu'.
Proof.
  unfold match_here. rewrite rmatch_succeeds.
  - split; intros (cu' & H); [destruct H|]; eauto.
  - apply (insensitive_final (fun cu' gs => (cu', Match (pos cu) (pos cu') gs))).
Qed.

Lemma matches_is_Some (o : option rmatch_result) :
  matches o = true <-> is_Some o.
Proof.
  destruct o; simpl; split; eauto; [discriminate|intros [? ?]; discriminate].
Qed.

Lemma re_match_matches ci r s :
  matches (re_match ci r s) = true <-> exists cu', den ci r (Cursor [] s) cu'.
Proof.
  rewrite matches_is_Some. unfold re_match. rewrite fmap_is_Some.
  apply match_here_is_Some.
Qed.

Lemma search_from_is_Some ci r bef aft :
  is_Some (search_from ci r bef aft) <->
  exists pre post cu',
    aft = pre ++ post /\ den ci r (Cursor (rev pre ++ bef) post) cu'.
Proof.
  revert bef. induction aft as [|c aft IH]; intros bef; simpl;
    rewrite is_Some_orelse, match_here_is_Some.
  - split.
    + intros [(cu' & H)|[? ?]]; [|discriminate]. exists [], [], cu'. auto.
    + intros (pre & post & cu' & Heq & H).
      symmetry in Heq. apply app_eq_nil in Heq as [-> ->]. eauto.
  - rewrite IH. split.
    + intros [(cu' & H)|(pre & post & cu' & -> & H)].
      * exists [], (c :: aft), cu'. auto.
      * exists (c :: pre), post, cu'. simpl. rewrite <- app_assoc. auto.
    + intros (pre & post & cu' & Heq & H). destruct pre as [|c' pre].
      * simpl in *. subst. eauto.
      * injection Heq as -> ->. right. exists pre, post, cu'.
        simpl in H. rewrite <- app_assoc in H. auto.
Qed.

Lemma re_search_matches ci r s :
  matches (re_search ci r s) = true <->
  exists pre post cu', s = pre ++ post /\ den ci r (Cursor (rev pre) post) cu'.
Proof.
  rewrite matches_is_Some. unfold re_search. rewrite fmap_is_Some.
  rewrite search_from_is_Some.
  split; intros (pre & post & cu' & -> & H); exists pre, post, cu';
    rewrite app_nil_r in *; auto.
Qed.

(** ** Pieces of patterns *)

Lemma den_lit_moved ci s cu cu' :
  den ci (Lit s) cu cu' <-> exists m, moved m cu cu' /\ ci_equal ci s m.
Proof.
  rewrite den_lit_inv. split.
  - apply eat_moved.
  - intros (m & Hm & Heq). eapply moved_eat; eassumption.
Qed.

Lemma den_cls_moved ci p cu cu' :
  den ci (Cls p) cu cu' <->
  exists c, moved [c] cu cu' /\ in_class ci p c = true.
Proof.
  rewrite den_cls_inv. split.
  - intros (c & Hc & Hp & ->). exists c. split; [apply moved_step|]; assumption.
  - intros (c & [Ha Hb] & Hp). exists c. repeat split; [|assumption|].
    + rewrite Ha. reflexivity.
    + destruct cu as [b a], cu' as [b' a']; simpl in *. subst. reflexivity.
Qed.

Lemma den_star_cls ci p cu cu' :
  den ci (Star (Cls p)) cu cu' <->
  exists ws, moved ws cu cu' /\ Forall (fun c => in_class ci p c = true) ws.
Proof.
  split.
  - intros H. remember (Star (Cls p)) as r eqn:Hr.
    induction H; try discriminate.
    + exists []. split; [apply moved_nil|constructor].
    + injection Hr as ->.
      apply den_cls_moved in H as (c & Hc & Hp).
      destruct (IHden2 eq_refl) as (ws & Hws & Hall).
      exists (c :: ws). split; [|constructor; assumption].
      apply (moved_trans [c] ws cu cu1); assumption.
  - intros (ws & Hws & Hall). revert cu Hws.
    induction Hall as [|c ws Hc Hall IH]; intros cu Hws.
    + destruct Hws as [Ha Hb]. destruct cu, cu'; simpl in *; subst.
      apply den_star_stop.
    + destruct Hws as [Ha Hb].
      apply (den_star_more ci (Cls p) cu (step c cu)).
      * apply den_cls; [rewrite Ha; reflexivity|assumption].
      * unfold pos, step. simpl. lia.
      * apply IH. split; simpl.
        -- rewrite Ha. reflexivity.
        -- rewrite Hb. simpl. rewrite <- app_assoc. reflexivity.
Qed.

Lemma in_class_space ci c : in_class ci space c = is_space c.
Proof.
  destruct ci; [|reflexivity].
  destruct c as [[] [] [] [] [] [] [] []]; reflexivity.
Qed.

Lemma in_class_range_2_9 ci c : in_class ci (range "2" "9") c = between 50 57 c.
Proof.
  destruct ci; [|reflexivity].
  destruct c as [[] [] [] [] [] [] [] []]; reflexivity.
Qed.

Lemma ci_equal_lower (lit m : str) :
  ci_equal true lit m <-> lower lit = lower m.
Proof.
  unfold ci_equal, chr_eq, lower. split.
  - induction 1 as [|a c lit m Hc _ IH]; simpl; [reflexivity|].
    apply Ascii.eqb_eq in Hc. congruence.
  - revert m. induction lit as [|a lit IH]; intros [|c m]; simpl;
      try discriminate; [constructor|].
    intros [= Hc Hrest]. constructor; [|apply IH; assumption].
    apply Ascii.eqb_eq. assumption.
Qed.

Lemma mc_section_end_spec (text : str) :
  mc_section_end text = true <-> names_activity_2_to_9 text.
Proof.
  unfold mc_section_end, names_activity_2_to_9.
  rewrite re_search_matches. unfold activity_2_9_pattern. cbn [Seq].
  split.
  - intros (pre & post & cu' & -> & H).
    apply den_cat_inv in H as (cu1 & H1 & H).
    apply den_cat_inv in H as (cu2 & H2 & H3).
    apply den_lit_moved in H1 as (word & [Ha1 Hb1] & Hword).
    apply den_star_cls in H2 as (ws & [Ha2 Hb2] & Hws).
    apply den_cls_moved in H3 as (d & [Ha3 Hb3] & Hd).
    simpl in Ha1. exists pre, word, ws, d, (after cu').
    rewrite Ha1, Ha2, Ha3. repeat split.
    + apply ci_equal_lower in Hword. symmetry. exact Hword.
    + eapply Forall_impl; [exact Hws|]. intros c Hc. cbv beta in Hc.
      rewrite in_class_space in Hc. exact Hc.
    + rewrite in_class_range_2_9 in Hd. exact Hd.
  - intros (pre & word & ws & d & post & -> & Hword & Hws & Hd).
    exists pre, (word ++ ws ++ d :: post).
    exists (Cursor (d :: rev ws ++ rev word ++ rev pre) post).
    split; [reflexivity|].
    apply den_cat_inv. exists (Cursor (rev word ++ rev pre) (ws ++ d :: post)).
    split.
    { apply den_lit_moved. exists word. split; [split; reflexivity|].
      apply ci_equal_lower. symmetry. exact Hword. }
    apply den_cat_inv. exists (Cursor (rev ws ++ rev word ++ rev pre) (d :: post)).
    split.
    { apply den_star_cls. exists ws. split; [split; reflexivity|].
      eapply Forall_impl; [exact Hws|]. intros c Hc. cbv beta.
      rewrite in_class_space. exact Hc. }
    apply den_cls_moved. exists d. split; [split; reflexivity|].
    rewrite in_class_range_2_9. exact Hd.
Qed.

(** ** Lists and ranges *)

Lemma first_some_Some {A B} (f : A -> option B) (l : list A) (y : B) :
  first_some f l = Some y <->
  exists n x, l !! n = Some x /\ f x = Some y /\
    forall m x', m < n -> l !! m = Some x' -> f x' = None.
Proof.
  induction l as [|a l IH]; simpl.
  - split; [discriminate|]. intros (n & x & Hn & _). destruct n; discriminate.
  - destruct (f a) eqn:Ha.
    + split.
      * intros [= ->]. exists 0, a. repeat split; auto. intros m x' Hm. lia.
      * intros (n & x & Hn & Hx & Hbefore). destruct n as [|n].
        -- simpl in Hn. congruence.
        -- specialize (Hbefore 0 a ltac:(lia) eq_refl). congruence.
    + rewrite IH. split.
      * intros (n & x & Hn & Hx & Hbefore). exists (S n), x. repeat split; auto.
        intros [|m] x' Hm Hl; simpl in Hl.
        -- congruence.
        -- apply (Hbefore m); [lia|assumption].
      * intros (n & x & Hn & Hx & Hbefore). destruct n as [|n].
        -- simpl in Hn. congruence.
        -- exists n, x. repeat split; auto.
           intros m x' Hm Hl. apply (Hbefore (S m)); [lia|assumption].
Qed.

Lemma py_range_lookup (lo hi : Z) (n : nat) (x : Z) :
  py_range lo hi !! n = Some x <->
  n < Z.to_nat (hi - lo) /\ x = (lo + Z.of_nat n)%Z.
Proof.
  unfold py_range. rewrite list_lookup_fmap.
  destruct (seq 0 (Z.to_nat (hi - lo)) !! n) as [k|] eqn:Hk; simpl.
  - apply lookup_seq in Hk as [-> Hlt]. simpl.
    split; [intros [= <-]; auto | intros [_ ->]; reflexivity].
  - split; [discriminate|]. intros [Hlt _].
    apply lookup_ge_None in Hk. rewrite length_seq in Hk. lia.
Qed.

(** ** The image window *)

(** C3, as the code has it: the window of [find_image_near_paragraph] runs
    from 5 paragraphs before index [i] to 2 paragraphs after it (clamped to
    the document); the answer is the embed id of the first paragraph of the
    window that yields one, and [None] when none does. *)
Theorem find_image_window_5_before_2_after (doc : Document) (i : Z) :
  image_window 2 doc i.
Proof.
  intros e. unfold find_image_near_paragraph. rewrite first_some_Some.
  set (lo := Z.max 0 (i - 5)). set (hi := Z.min (Z.of_nat (length doc)) (i + 3)).
  split.
  - intros (n & x & Hn & Hx & Hbefore).
    apply py_range_lookup in Hn as [Hn ->].
    destruct (doc !! Z.to_nat (lo + Z.of_nat n)) as [para|] eqn:Hpara;
      [|discriminate].
    exists (Z.to_nat (lo + Z.of_nat n)), para.
    repeat split; try assumption; try lia.
    intros j' para' Hlo Hj' Hdoc.
    specialize (Hbefore (Z.to_nat (Z.of_nat j' - lo)) (Z.of_nat j')).
    rewrite Nat2Z.id, Hdoc in Hbefore. apply Hbefore; [lia|].
    apply py_range_lookup. lia.
  - intros (j & para & Hj & Hdoc & He & Hbefore).
    pose proof (lookup_lt_Some _ _ _ Hdoc) as Hlen.
    exists (Z.to_nat (Z.of_nat j - lo)), (Z.of_nat j).
    rewrite Nat2Z.id, Hdoc. repeat split; try assumption.
    + apply py_range_lookup. lia.
    + intros m x' Hm Hx'. apply py_range_lookup in Hx' as [Hm' ->].
      destruct (doc !! Z.to_nat (lo + Z.of_nat m)) as [para'|] eqn:Hpara';
        [|reflexivity].
      apply (Hbefore _ _) in Hpara'; [assumption|lia|lia].
Qed.

(** C3, as stated, fails: with the only picture three paragraphs after the
    question, the claimed window holds it and the search does not find it. *)
Lemma find_image_window_3_after_counterexample :
  ~ image_window 3
      [para [plain "1. Question?"]; para [plain "text"]; para [plain "text"];
       para_with_picture [picture "rId7"]] 0.
Proof.
  intros H. specialize (H (L "rId7")). destruct H as [_ H].
  assert (Hnone : find_image_near_paragraph
            [para [plain "1. Question?"]; para [plain "text"];
             para [plain "text"]; para_with_picture [picture "rId7"]] 0
          = None) by reflexivity.
  rewrite Hnone in H. enough (None = Some (L "rId7")) by discriminate.
  apply H. exists 3, (para_with_picture [picture "rId7"]).
  repeat split; try reflexivity; try lia.
  intros j' para' _ Hj' Hdoc.
  destruct j' as [|[|[|j']]]; try lia; injection Hdoc as <-; reflexivity.
Qed.

(** ** The empty document *)

(** C9: on a document without paragraphs each of the three passes returns,
    and the three lists of a fresh converter are empty afterwards. *)
Theorem empty_document_gives_empty_lists (images_info : list (str * ImageInfo)) :
  let after_mc := extract_multiple_choice_questions reset [] images_info in
  let after_tf := extract_true_false_questions after_mc [] in
  multiple_choice_questions after_mc = [] /\
  true_false_questions after_tf = [] /\
  exists after_cw,
    extract_crossword_puzzles after_tf [] = Some after_cw /\
    multiple_choice_questions after_cw = [] /\
    true_false_questions after_cw = [] /\
    crossword_puzzles after_cw = [].
Proof.
  simpl. repeat split. eexists. repeat split.
Qed.

(** ** Section headers *)

Lemma strip_empty_no_tf_header : tf_section_header [] = false.
Proof. reflexivity. Qed.

Lemma strip_empty_no_mc_header : mc_section_header [] = false.
Proof. reflexivity. Qed.

Lemma strip_empty_no_cw_header :
  re_search true crossword_header_pattern [] = None.
Proof. reflexivity. Qed.

(** C8: in each pass a paragraph whose text is a section header of that
    pass leaves the scanner inside the section; the test for the end of the
    section is not applied to it (for the multiple-choice pass the shared
    image id, which only the end of a section sets, is as before). *)
Theorem header_paragraph_stays_in_section
    (doc : Document) (idx : nat) (para : Paragraph)
    (tf : tf_state) (mc : mc_state) (cw : cw_state) :
  let text := strip (para_text para) in
  (tf_section_header text = true ->
     in_true_false_section (tf_step tf para) = true) /\
  (mc_section_header text = true ->
     in_mc_section (mc_step doc mc (idx, para)) = true /\
     mc_shared (mc_step doc mc (idx, para)) = mc_shared mc) /\
  (matches (re_search true crossword_header_pattern text) = true ->
     in_crossword_section (cw_body doc cw para) = true).
Proof.
  intros text. split; [|split].
  - intros H. unfold tf_step. fold text.
    destruct text as [|c text'].
    + rewrite strip_empty_no_tf_header in H. discriminate.
    + cbn [nonempty negb]. rewrite H. reflexivity.
  - intros H. unfold mc_step. fold text. destruct text as [|c text'].
    + rewrite strip_empty_no_mc_header in H. discriminate.
    + cbn [nonempty negb]. rewrite H. split; reflexivity.
  - intros H. unfold cw_body. fold text. destruct text as [|c text'].
    + rewrite strip_empty_no_cw_header in H. discriminate.
    + cbn [nonempty negb].
      destruct (re_search true crossword_header_pattern (c :: text'));
        [reflexivity|discriminate].
Qed.

(** C8 on [header_for_all_passes], with each scan already inside its
    section. *)
Lemma header_paragraph_stays_in_section_witness :
  in_true_false_section
    (tf_step {| in_true_false_section := true; tf_out := [] |}
       header_for_all_passes) = true /\
  in_mc_section
    (mc_step [header_for_all_passes] in_quiz_section
       (0, header_for_all_passes)) = true /\
  in_crossword_section
    (cw_body [header_for_all_passes] at_ice_clue header_for_all_passes) = true.
Proof.
  pose proof (header_paragraph_stays_in_section [header_for_all_passes] 0
                header_for_all_passes
                {| in_true_false_section := true; tf_out := [] |}
                in_quiz_section at_ice_clue) as (Htf & Hmc & Hcw).
  split; [|split].
  - apply Htf. reflexivity.
  - apply Hmc. reflexivity.
  - apply Hcw. reflexivity.
Defined.

(** ** Multiple-choice options *)

Lemma add_option_texts (runs_map : gmap str (list Run)) (lines : list str)
    (options : list MCOption) :
  map opt_text (fold_left (add_option runs_map) lines options) =
  map opt_text options ++ omap option_line_text lines.
Proof.
  revert options. induction lines as [|line lines IH]; intros options; simpl.
  - rewrite app_nil_r. reflexivity.
  - rewrite IH. unfold add_option, option_line_text.
    destruct (re_match false option_pattern line); simpl.
    + rewrite map_app, <- app_assoc. reflexivity.
    + reflexivity.
Qed.

Lemma mc_step_options (doc : Document) (st : mc_state) (idx : nat)
    (para : Paragraph) :
  para ∈ doc ->
  Forall (options_follow_lines doc) (mc_out st) ->
  Forall (options_follow_lines doc) (mc_out (mc_step doc st (idx, para))).
Proof.
  intros Hin Hst. unfold mc_step.
  set (text := strip (para_text para)).
  destruct (negb (nonempty text)); [assumption|].
  destruct (mc_section_header text); [assumption|].
  destruct (mc_section_end text && in_mc_section st); [assumption|].
  destruct (negb (in_mc_section st)); [assumption|].
  destruct (re_match false question_pattern _); [|assumption].
  destruct (1 <? length (split_on "010" text)); [|assumption].
  destruct (extract_options (split_on "010" text) para) as [|o os] eqn:Hopts;
    [assumption|].
  cbn [truthy_list mc_out]. apply Forall_app. split; [assumption|].
  apply Forall_singleton. split; cbn [mc_options]; [simpl; lia|].
  exists para. split; [assumption|].
  rewrite <- Hopts. unfold extract_options. rewrite add_option_texts.
  reflexivity.
Qed.

Lemma mc_fold_options (doc : Document) (l : list (nat * Paragraph))
    (st : mc_state) :
  (forall ip, ip ∈ l -> ip.2 ∈ doc) ->
  Forall (options_follow_lines doc) (mc_out st) ->
  Forall (options_follow_lines doc) (mc_out (fold_left (mc_step doc) l st)).
Proof.
  revert st. induction l as [|[idx para] l IH]; intros st Hl Hst; simpl.
  - assumption.
  - apply IH.
    + intros ip Hip. apply Hl. right. assumption.
    + apply mc_step_options; [|assumption].
      apply (Hl (idx, para)). left.
Qed.

Lemma enumerate_snd {A} (l : list A) (ip : nat * A) :
  ip ∈ enumerate l -> ip.2 ∈ l.
Proof.
  destruct ip as [n x]. unfold enumerate. intros H.
  apply list_elem_of_In in H. apply in_combine_r in H.
  apply list_elem_of_In. assumption.
Qed.

(** C5, as the code has it: every emitted question has at least one option,
    one for each lettered line of its paragraph after the first line, in
    the order of the lines.  The number of options is not bounded and the
    letters need not be A, B, C, D in turn. *)
Theorem mc_options_nonempty_in_line_order (doc : Document)
    (images_info : list (str * ImageInfo)) (q : MultipleChoiceQuestion) :
  q ∈ multiple_choice_questions
        (extract_multiple_choice_questions reset doc images_info) ->
  options_follow_lines doc q.
Proof.
  intros Hq. unfold extract_multiple_choice_questions in Hq.
  cbn [multiple_choice_questions] in Hq.
  revert q Hq. apply Forall_forall. apply mc_fold_options.
  - apply enumerate_snd.
  - constructor.
Qed.

Lemma five_option_document_result :
  multiple_choice_questions
    (extract_multiple_choice_questions reset five_option_document [])
  = [five_option_question].
Proof. vm_compute. reflexivity. Qed.

(** C5 on the question of [five_option_document]. *)
Lemma mc_options_nonempty_in_line_order_witness :
  options_follow_lines five_option_document five_option_question.
Proof.
  apply (mc_options_nonempty_in_line_order five_option_document []).
  rewrite five_option_document_result. left.
Defined.

(** C5, as stated, fails: the question of [five_option_document] is emitted
    with five options, the letter A twice. *)
Lemma mc_options_at_most_4_counterexample :
  exists q,
    q ∈ multiple_choice_questions
          (extract_multiple_choice_questions reset five_option_document []) /\
    ~ (1 <= length (mc_options q) <= 4).
Proof.
  exists five_option_question. split.
  - rewrite five_option_document_result. left.
  - simpl. lia.
Qed.

(** ** The planet question *)

(** With the runs cut at the line breaks the bold run is counted for
    option B. *)
Lemma planet_question_runs_by_line :
  para_text planet_runs_by_line = L planet_text /\
  map mc_options
    (multiple_choice_questions
       (extract_multiple_choice_questions reset
          [quiz_header; planet_runs_by_line] []))
  = [planet_options false true].
Proof. vm_compute. split; reflexivity. Qed.

(** C1 on the three-run decomposition: the paragraph has the text of the
    claim and its only bold run is "B. Mercury", yet the option marked
    correct is Venus.  The cursor of the run loop is at 48 after the first
    run, which is past line 0 only, so the bold run is registered for the
    line "A. Venus". *)
Lemma planet_question_runs_in_three :
  para_text planet_runs_in_three = L planet_text /\
  List.filter (fun run => truthy (run_bold run)) (runs planet_runs_in_three)
  = [strong "B. Mercury"] /\
  map mc_options
    (multiple_choice_questions
       (extract_multiple_choice_questions reset
          [quiz_header; planet_runs_in_three] []))
  = [planet_options true false].
Proof. vm_compute. repeat split; reflexivity. Qed.

(** ** The end of a multiple-choice section *)

(** C4, as stated, fails: inside the section a paragraph "Activity 10" does
    not end it. *)
Lemma activity_10_counterexample :
  in_mc_section
    (mc_step [para [plain "Activity 10"]] in_quiz_section
       (0, para [plain "Activity 10"])) = true.
Proof. vm_compute. reflexivity. Qed.

(** C4, as the code has it: inside a multiple-choice section a paragraph
    ends the section exactly when its text is not itself a quiz header and
    holds "Activity" (in any case), then white space or none, then one of
    the digits 2 to 9.  So "Activity 2" and "Activity 20" end the section
    and "Activity 10" does not. *)
Theorem mc_section_exit_iff (doc : Document) (st : mc_state) (idx : nat)
    (para : Paragraph) :
  in_mc_section st = true ->
  let text := strip (para_text para) in
  in_mc_section (mc_step doc st (idx, para)) = false <->
  mc_section_header text = false /\ names_activity_2_to_9 text.
Proof.
  intros Hin text. rewrite <- mc_section_end_spec. unfold mc_step. fold text.
  destruct text as [|c text'] eqn:Htext.
  - simpl. rewrite Hin. split; [discriminate|]. intros [_ H]. discriminate.
  - cbn [nonempty negb].
    destruct (mc_section_header (c :: text')).
    { simpl. split; [discriminate|]. intros [H _]. discriminate. }
    rewrite Hin. destruct (mc_section_end (c :: text')).
    { simpl. split; auto. }
    cbn [andb negb].
    split; [|intros [_ H]; discriminate].
    intros H. exfalso. revert H.
    destruct (re_match false question_pattern _); [|congruence].
    destruct (1 <? _); [|congruence].
    destruct (truthy_list _); simpl; congruence.
Qed.

(** C4 on a paragraph "Activity 2: True or False" inside the section. *)
Lemma mc_section_exit_iff_witness :
  in_mc_section
    (mc_step [para [plain "Activity 2: True or False"]] in_quiz_section
       (0, para [plain "Activity 2: True or False"])) = false <->
  mc_section_header (L "Activity 2: True or False") = false /\
  names_activity_2_to_9 (L "Activity 2: True or False").
Proof.
  apply (mc_section_exit_iff [para [plain "Activity 2: True or False"]]
           in_quiz_section 0 (para [plain "Activity 2: True or False"])).
  reflexivity.
Defined.

(** "Activity 10" does not name an activity from 2 to 9. *)
Lemma activity_10_is_no_end : ~ names_activity_2_to_9 (L "Activity 10").
Proof.
  rewrite <- mc_section_end_spec. vm_compute. discriminate.
Qed.

(** ** Crosswords *)

Lemma flush_keeps_clues (cur : option Crossword) (l : list Crossword) :
  all_have_clues l ->
  all_have_clues (if has_clues cur then l ++ option_list cur else l).
Proof.
  intros Hl. destruct cur as [cw|]; simpl; [|assumption].
  destruct (cw_clues cw) eqn:Hclues; simpl; [assumption|].
  apply Forall_app. split; [assumption|]. apply Forall_singleton. congruence.
Qed.

Ltac cw_branches :=
  repeat match goal with
         | |- context [match ?x with _ => _ end] =>
             lazymatch x with
             | has_clues _ => fail
             | _ => destruct x eqn:?
             end
         end.

Lemma cw_body_keeps_clues (doc : Document) (st : cw_state) (para : Paragraph) :
  all_have_clues (crosswords st) ->
  all_have_clues (crosswords (cw_body doc st para)).
Proof.
  intros Hst. unfold cw_body, advance.
  cw_branches; cbn [crosswords]; try assumption;
    apply flush_keeps_clues; assumption.
Qed.

Lemma cw_body_advances (doc : Document) (st : cw_state) (para : Paragraph) :
  i st < i (cw_body doc st para).
Proof.
  unfold cw_body, advance. cw_branches; cbn [i]; lia.
Qed.

Lemma cw_loop_returns (doc : Document) (fuel : nat) (st : cw_state) :
  length doc - i st <= fuel ->
  all_have_clues (crosswords st) ->
  exists final, cw_loop fuel doc st = Some final /\
                all_have_clues (crosswords final).
Proof.
  revert st. induction fuel as [|fuel IH]; intros st Hfuel Hst; simpl.
  - destruct (doc !! i st) eqn:Hpara; [|eauto].
    apply lookup_lt_Some in Hpara. lia.
  - destruct (doc !! i st) as [para|] eqn:Hpara; [|eauto].
    apply IH.
    + pose proof (cw_body_advances doc st para). lia.
    + apply cw_body_keeps_clues. assumption.
Qed.

(** C7: [extract_crossword_puzzles] returns on every document, and every
    crossword of the list it leaves in [crossword_puzzles] has at least one
    clue; a crossword whose header was seen and that got no clue before the
    next header, the end of the section or the end of the document is not
    in the list. *)
Theorem every_crossword_has_a_clue (self : Converter) (doc : Document) :
  exists after,
    extract_crossword_puzzles self doc = Some after /\
    Forall (fun cw => 1 <= length (cw_clues cw)) (crossword_puzzles after).
Proof.
  unfold extract_crossword_puzzles.
  destruct (cw_loop_returns doc (length doc) cw_initial) as (final & -> & Hfinal).
  - simpl. lia.
  - constructor.
  - simpl. eexists. split; [reflexivity|]. simpl.
    eapply Forall_impl; [apply flush_keeps_clues; exact Hfinal|].
    intros cw Hcw. simpl in Hcw. destruct (cw_clues cw); [congruence|simpl; lia].
Qed.

Lemma digit_is_no_letter (a c : ascii) :
  is_digit c = true -> is_lower_az (lower_char a) = true ->
  chr_eq true a c = false.
Proof.
  intros Hc Ha. unfold chr_eq. apply Ascii.eqb_neq. intros Heq.
  assert (Hl : lower_char c = c).
  { revert Hc. destruct c as [[] [] [] [] [] [] [] []]; 
      first [reflexivity | discriminate]. }
  rewrite Hl in Heq. subst c.
  revert Hc Ha. generalize (lower_char a). intros c.
  destruct c as [[] [] [] [] [] [] [] []];
    first [discriminate | intros _; discriminate].
Qed.

Lemma numbered_clue_starts_with_digit (text : str) :
  matches (re_match false numbered_clue_pattern text) = true ->
  exists c rest, text = c :: rest /\ is_digit c = true.
Proof.
  rewrite re_match_matches. unfold numbered_clue_pattern. cbn [Seq Plus].
  intros (cu' & H).
  apply den_cat_inv in H as (cu1 & H1 & H).
  apply den_bol_inv in H1 as [_ ->].
  apply den_cat_inv in H as (cu2 & H2 & _).
  apply den_group_inv in H2.
  apply den_cat_inv in H2 as (cu3 & H3 & _).
  apply den_cls_inv in H3 as (c & Hc & Hdigit & _).
  simpl in Hc. destruct text as [|c' rest]; [discriminate|].
  injection Hc as ->. eauto.
Qed.

Lemma digit_no_clues_marker (c : ascii) (rest : str) :
  is_digit c = true ->
  re_match true clues_marker_pattern (c :: rest) = None.
Proof.
  intros Hc. unfold re_match, match_here, clues_marker_pattern.
  cbn [Seq rmatch cursor_at_start before after eat L list_ascii_of_string].
  rewrite (digit_is_no_letter "C" c Hc eq_refl). reflexivity.
Qed.

Lemma digit_no_orientation (c : ascii) (rest : str) :
  is_digit c = true ->
  re_match true orientation_pattern (c :: rest) = None.
Proof.
  intros Hc. unfold re_match, match_here, orientation_pattern.
  cbn [Seq rmatch cursor_at_start before after eat L list_ascii_of_string
       orelse].
  rewrite (digit_is_no_letter "A" c Hc eq_refl).
  rewrite (digit_is_no_letter "D" c Hc eq_refl). reflexivity.
Qed.

Lemma split_ws_aux_nonempty (cur s : str) :
  cur <> [] -> split_ws_aux cur s <> [].
Proof.
  revert cur. induction s as [|c s IH]; intros cur Hcur; simpl.
  - destruct cur; [contradiction|discriminate].
  - destruct (is_space c).
    + destruct cur; [contradiction|discriminate].
    + apply IH. discriminate.
Qed.

Lemma join_cons (sep p : str) (ps : list str) :
  join sep (p :: ps) =
  p ++ match ps with [] => [] | _ => sep ++ join sep ps end.
Proof. destruct ps; simpl; [rewrite app_nil_r|]; reflexivity. Qed.

(** [' '.join(s.split())] read as one pass over the text: what follows a
    word already begun, and what follows a gap after a word. *)
Lemma join_split_ws_collapsed (s : str) :
  (forall cur, cur <> [] ->
     join (L " ") (split_ws_aux cur s) =
     rev cur ++ whitespace_collapsed_from true false s) /\
  whitespace_collapsed_from true true s =
    match split_ws_aux [] s with
    | [] => []
    | words => L " " ++ join (L " ") words
    end.
Proof.
  induction s as [|c s [IHword IHgap]]; split.
  - intros cur Hcur. cbn [split_ws_aux whitespace_collapsed_from].
    destruct cur; [contradiction|]. cbn [join]. rewrite app_nil_r. reflexivity.
  - reflexivity.
  - intros cur Hcur. cbn [split_ws_aux whitespace_collapsed_from].
    destruct (is_space c).
    + destruct cur as [|a cur]; [contradiction|].
      rewrite join_cons, IHgap. destruct (split_ws_aux [] s); reflexivity.
    + cbn [andb]. rewrite IHword by discriminate.
      cbn [rev]. rewrite <- app_assoc. reflexivity.
  - cbn [split_ws_aux whitespace_collapsed_from].
    destruct (is_space c); [exact IHgap|]. cbn [andb].
    pose proof (split_ws_aux_nonempty [c] s ltac:(discriminate)) as Hne.
    destruct (split_ws_aux [c] s) as [|w ws] eqn:Hwords; [contradiction|].
    rewrite <- Hwords, (IHword [c]) by discriminate. reflexivity.
Qed.

Lemma join_split_ws_from_start (gap : bool) (s : str) :
  join (L " ") (split_ws_aux [] s) = whitespace_collapsed_from false gap s.
Proof.
  revert gap. induction s as [|c s IH]; intros gap; [reflexivity|].
  cbn [split_ws_aux whitespace_collapsed_from].
  destruct (is_space c); [apply IH|]. cbn [andb].
  destruct (join_split_ws_collapsed s) as [Hword _].
  rewrite (Hword [c]) by discriminate. reflexivity.
Qed.

(** [' '.join(s.split())] collapses white space to single spaces. *)
Lemma collapse_whitespace_collapsed (s : str) :
  collapse s = whitespace_collapsed s.
Proof. apply join_split_ws_from_start. Qed.

(** C6, as amended: in a crossword section, while clues are collected
    under an orientation, a paragraph that is neither a crossword header
    nor an end of the section (those two tests come first) and that matches
    the numbered-clue pattern, followed by a paragraph whose text matches
    [all_caps_pattern], adds one clue to the crossword being filled: the
    orientation is the one last set, the clue is the captured clue text, the
    answer is the next paragraph's text with white space collapsed to single
    spaces; the cursor moves on by 2.  Without such a next paragraph nothing
    is added, nothing else changes and the cursor moves on by 1. *)
Theorem numbered_clue_takes_caps_answer (doc : Document) (st : cw_state)
    (para : Paragraph) (cw : Crossword) (orientation : str)
    (clue_pattern : rmatch_result) :
  let text := strip (para_text para) in
  in_crossword_section st = true ->
  current_crossword st = Some cw ->
  collecting_clues st = true ->
  current_orientation st = Some orientation ->
  orientation <> [] ->
  re_search true crossword_header_pattern text = None ->
  cw_section_end text = false ->
  re_match false numbered_clue_pattern text = Some clue_pattern ->
  cw_body doc st para =
  match doc !! (i st + 1) with
  | Some next_para =>
      let next_text := strip (para_text next_para) in
      if matches (re_match false all_caps_pattern next_text)
      then with_clue st cw
             {| clue_orientation := orientation;
                clue_clue := strip (group clue_pattern 2);
                clue_answer := whitespace_collapsed next_text |} 2
      else with_cursor_moved st 1
  | None => with_cursor_moved st 1
  end.
Proof.
  intros text Hin Hcw Hcollect Horient Hne Hheader Hend Hclue.
  destruct (numbered_clue_starts_with_digit text) as (c & rest & Htext & Hc).
  { rewrite Hclue. reflexivity. }
  unfold cw_body. fold text. rewrite Hheader, Hend, Hin, Hcw, Hcollect, Horient.
  rewrite Hclue. rewrite Htext.
  rewrite (digit_no_clues_marker c rest Hc), (digit_no_orientation c rest Hc).
  destruct orientation as [|o orientation']; [congruence|].
  cbn -[collapse strip re_match].
  unfold with_clue, with_cursor_moved, advance. rewrite Hin, Hcollect, Horient.
  destruct (doc !! (i st + 1)) as [next_para|]; [|reflexivity].
  rewrite collapse_whitespace_collapsed.
  destruct (matches _); reflexivity.
Qed.

(** C6 on the clue "4. A frozen form of water" followed by "ICE", on a clue
    followed by "DRY   ICE", whose answer is "DRY ICE", and on a clue
    followed by "Ice", where the cursor moves on by 1. *)
Lemma numbered_clue_takes_caps_answer_witness :
  cw_body ice_document at_ice_clue (para [plain "4. A frozen form of water"]) =
    with_clue at_ice_clue ice_crossword ice_clue 2 /\
  cw_body dry_ice_document at_ice_clue (para [plain "4. Frozen carbon dioxide"]) =
    with_clue at_ice_clue ice_crossword dry_ice_clue 2 /\
  cw_body small_ice_document at_ice_clue
    (para [plain "4. A frozen form of water"]) =
    {| crosswords := []; current_crossword := Some ice_crossword;
       current_orientation := Some (L "across"); in_crossword_section := true;
       collecting_clues := true; clue_counter := 1; i := 3 |}.
Proof.
  split; [|split].
  - exact (numbered_clue_takes_caps_answer ice_document at_ice_clue
             (para [plain "4. A frozen form of water"]) ice_crossword
             (L "across")
             (Match 0 25 [(2, L "A frozen form of water"); (1, L "4")])
             eq_refl eq_refl eq_refl eq_refl ltac:(discriminate)
             eq_refl eq_refl eq_refl).
  - exact (numbered_clue_takes_caps_answer dry_ice_document at_ice_clue
             (para [plain "4. Frozen carbon dioxide"]) ice_crossword
             (L "across")
             (Match 0 24 [(2, L "Frozen carbon dioxide"); (1, L "4")])
             eq_refl eq_refl eq_refl eq_refl ltac:(discriminate)
             eq_refl eq_refl eq_refl).
  - exact (numbered_clue_takes_caps_answer small_ice_document at_ice_clue
             (para [plain "4. A frozen form of water"]) ice_crossword
             (L "across")
             (Match 0 25 [(2, L "A frozen form of water"); (1, L "4")])
             eq_refl eq_refl eq_refl eq_refl ltac:(discriminate)
             eq_refl eq_refl eq_refl).
Defined.

(** C6 as the specification states it fails: a numbered clue that names
    Unit 2, followed by its answer in capitals, is read as the end of the
    section; no clue is added and the cursor moves on by 1. *)
Lemma numbered_clue_unit_2_counterexample :
  cw_loop 2 (take 2 unit_2_clue_document) cw_initial = Some at_ice_clue /\
  matches (re_match false numbered_clue_pattern
             (L "7. Main topic of Unit 2 (5 letters)")) = true /\
  matches (re_match false all_caps_pattern (L "VERBS")) = true /\
  cw_body unit_2_clue_document at_ice_clue
    (para [plain "7. Main topic of Unit 2 (5 letters)"]) =
    {| crosswords := []; current_crossword := Some ice_crossword;
       current_orientation := Some (L "across"); in_crossword_section := false;
       collecting_clues := true; clue_counter := 1; i := 3 |} /\
  crossword_puzzles <$> extract_crossword_puzzles reset unit_2_clue_document =
    Some [].
Proof. vm_compute. repeat split; reflexivity. Qed.

(** The whole pass on [ice_document], and the state it is in when it comes
    to the clue paragraph. *)
Lemma ice_document_result :
  crossword_puzzles <$> extract_crossword_puzzles reset ice_document =
  Some [{| cw_title := L "Activity 3, Part I - Crossword Puzzle";
           cw_clues := [ice_clue] |}].
Proof. vm_compute. reflexivity. Qed.

Lemma at_ice_clue_reached :
  cw_loop 2 (take 2 ice_document) cw_initial = Some at_ice_clue.
Proof. vm_compute. reflexivity. Qed.

(** What [all_caps_pattern] accepts: a capital letter followed by at least
    one more character, each a capital letter, white space or a hyphen. *)
Lemma all_caps_spec (s : str) :
  matches (re_match false all_caps_pattern s) = true <->
  exists c cs,
    s = c :: cs /\ is_upper_az c = true /\ cs <> [] /\
    Forall (fun c => caps_char c = true) cs.
Proof.
  rewrite re_match_matches. unfold all_caps_pattern. cbn [Seq Plus].
  split.
  - intros (cu' & H).
    apply den_cat_inv in H as (cu1 & H1 & H).
    apply den_bol_inv in H1 as [_ ->].
    apply den_cat_inv in H as (cu2 & H2 & H).
    apply den_cat_inv in H as (cu4 & H3 & H4).
    apply den_cat_inv in H3 as (cu3 & H3 & H3').
    apply den_cls_moved in H2 as (c & [Ha2 _] & Hc).
    apply den_cls_moved in H3 as (x & [Ha3 _] & Hx).
    apply den_star_cls in H3' as (ws & [Ha4 _] & Hws).
    apply den_eol_inv in H4 as [Hend ->].
    simpl in Ha2. exists c, (x :: ws ++ after cu4).
    rewrite Ha2, Ha3, Ha4. repeat split; [exact Hc|discriminate|].
    constructor; [exact Hx|]. apply Forall_app. split; [exact Hws|].
    unfold at_end in Hend. destruct (after cu4) as [|e [|? ?]];
      [constructor| |discriminate].
    apply Ascii.eqb_eq in Hend as ->. repeat constructor.
  - intros (c & [|x ws] & -> & Hc & Hne & Hall); [congruence|].
    inversion Hall as [|? ? Hx Hws]; subst.
    exists (Cursor (rev ws ++ [x; c]) []).
    apply den_cat_inv. exists (Cursor [] (c :: x :: ws)).
    split; [apply den_bol_inv; auto|].
    apply den_cat_inv. exists (Cursor [c] (x :: ws)).
    split; [apply den_cls_moved; exists c; split; [split|]; auto|].
    apply den_cat_inv. exists (Cursor (rev ws ++ [x; c]) []).
    split; [|apply den_eol_inv; auto].
    apply den_cat_inv. exists (Cursor [x; c] ws).
    split; [apply den_cls_moved; exists x; split; [split|]; auto|].
    apply den_star_cls. exists ws. split; [|exact Hws].
    split; simpl; [rewrite app_nil_r|]; reflexivity.
Qed.

(** ** The true/false token *)

Lemma letter_is_word (c : ascii) :
  is_lower_az (lower_char c) = true -> is_word c = true.
Proof.
  destruct c as [[] [] [] [] [] [] [] []]; first [reflexivity|discriminate].
Qed.

Lemma bool_word_letters (w : str) :
  is_bool_word w -> w <> [] /\ Forall (fun c => is_word c = true) w.
Proof.
  intros [H|H]; unfold lower in H;
    repeat (destruct w as [|? w]; try discriminate);
    injection H as ?; split; try discriminate;
    repeat constructor; apply letter_is_word;
    match goal with H : lower_char ?c = _ |- context [lower_char ?c] =>
      rewrite H; reflexivity end.
Qed.

Lemma bool_word_length (w : str) :
  is_bool_word w -> 4 <= length w <= 5.
Proof.
  intros [H|H]; apply (f_equal length) in H; unfold lower in H;
    rewrite length_map in H; simpl in H; lia.
Qed.

Lemma head_rev {A} (l : list A) : head (rev l) = last l.
Proof.
  induction l as [|x l IH] using rev_ind; [reflexivity|].
  rewrite rev_app_distr, last_snoc. reflexivity.
Qed.

Lemma head_app_ne {A} (l1 l2 : list A) : l1 <> [] -> head (l1 ++ l2) = head l1.
Proof. destruct l1; [congruence|reflexivity]. Qed.

Lemma last_app_ne {A} (l1 l2 : list A) : l2 <> [] -> last (l1 ++ l2) = last l2.
Proof.
  intros H. destruct l2 as [|x l2 _] using rev_ind; [congruence|].
  rewrite app_assoc, !last_snoc. reflexivity.
Qed.

Lemma word_head (w : str) :
  w <> [] -> Forall (fun c => is_word c = true) w ->
  is_word_opt (head w) = true.
Proof. intros Hne Hall. destruct w; [congruence|]. inversion Hall; assumption. Qed.

Lemma word_last (w : str) :
  w <> [] -> Forall (fun c => is_word c = true) w ->
  is_word_opt (last w) = true.
Proof.
  intros Hne Hall. destruct w as [|c w _] using rev_ind; [congruence|].
  rewrite last_snoc. apply Forall_app in Hall as [_ Hc].
  inversion Hc; assumption.
Qed.

Lemma ci_equal_True (w : str) :
  ci_equal true (L "True") w <-> lower w = L "true".
Proof. rewrite ci_equal_lower. split; intros H; symmetry; exact H. Qed.

Lemma ci_equal_False (w : str) :
  ci_equal true (L "False") w <-> lower w = L "false".
Proof. rewrite ci_equal_lower. split; intros H; symmetry; exact H. Qed.

Lemma moved_consumed (m : str) (cu cu' : cursor) :
  moved m cu cu' -> consumed cu cu' = m.
Proof.
  intros Hm. unfold consumed. rewrite (moved_pos _ _ _ Hm).
  destruct Hm as [Ha _]. rewrite Ha.
  replace (length m + pos cu - pos cu) with (length m) by lia.
  apply take_app_length.
Qed.

Lemma moved_cursor (m bef aft : str) (cu' : cursor) :
  moved m (Cursor bef aft) cu' <->
  exists post, aft = m ++ post /\ cu' = Cursor (rev m ++ bef) post.
Proof.
  unfold moved. simpl. split.
  - intros [Ha Hb]. exists (after cu'). split; [assumption|].
    destruct cu'; simpl in *. subst. reflexivity.
  - intros (post & -> & ->). split; reflexivity.
Qed.

Lemma not_both_words (w1 w2 post1 post2 : str) :
  lower w1 = L "true" -> lower w2 = L "false" ->
  w1 ++ post1 = w2 ++ post2 -> False.
Proof.
  intros H1 H2 Heq. unfold lower in *.
  destruct w1 as [|c1 w1]; [discriminate|].
  destruct w2 as [|c2 w2]; [discriminate|].
  simpl in *. injection Heq as -> _. congruence.
Qed.

Lemma boundary_before_word (pre w post : str) :
  w <> [] -> Forall (fun c => is_word c = true) w ->
  at_word_boundary (Cursor (rev pre) (w ++ post)) =
  negb (is_word_opt (last pre)).
Proof.
  intros Hne Hw. unfold at_word_boundary. simpl.
  rewrite head_rev, head_app_ne, (word_head w Hne Hw) by assumption.
  destruct (is_word_opt (last pre)); reflexivity.
Qed.

Lemma boundary_after_word (pre w post : str) :
  w <> [] -> Forall (fun c => is_word c = true) w ->
  at_word_boundary (Cursor (rev (pre ++ w)) post) =
  negb (is_word_opt (head post)).
Proof.
  intros Hne Hw. unfold at_word_boundary. simpl.
  rewrite head_rev, last_app_ne, (word_last w Hne Hw) by assumption.
  reflexivity.
Qed.

Lemma tf_match_here_branches (cu : cursor) :
  match_here true true_false_pattern cu =
  if at_word_boundary cu
  then orelse (tf_branch (L "True") cu) (tf_branch (L "False") cu)
  else None.
Proof. reflexivity. Qed.

Lemma tf_branch_spec (lit pre aft : str) (cu' : cursor) (m : rmatch_result) :
  (forall w, ci_equal true lit w -> is_bool_word w) ->
  tf_branch lit (Cursor (rev pre) aft) = Some (cu', m) <->
  exists w post,
    aft = w ++ post /\ ci_equal true lit w /\
    is_word_opt (head post) = false /\
    cu' = Cursor (rev (pre ++ w)) post /\
    m = Match (length pre) (length pre + length w) [(1, w)].
Proof.
  intros Hlit. unfold tf_branch. split.
  - destruct (eat true lit (Cursor (rev pre) aft)) as [cu1|] eqn:Heat;
      [|discriminate].
    apply eat_moved in Heat as (w & Hm & Hw).
    pose proof (moved_consumed _ _ _ Hm) as Hcons.
    apply moved_cursor in Hm as (post & -> & ->).
    destruct (bool_word_letters w (Hlit w Hw)) as [Hne Hletters].
    rewrite <- rev_app_distr in *.
    rewrite (boundary_after_word pre w post Hne Hletters).
    destruct (is_word_opt (head post)) eqn:Hpost; [discriminate|].
    simpl. intros [= <- <-]. exists w, post. repeat split; try assumption.
    rewrite Hcons. unfold pos. simpl. rewrite !length_rev, length_app.
    reflexivity.
  - intros (w & post & -> & Hw & Hpost & -> & ->).
    destruct (bool_word_letters w (Hlit w Hw)) as [Hne Hletters].
    assert (Hm : moved w (Cursor (rev pre) (w ++ post))
                   (Cursor (rev (pre ++ w)) post)).
    { split; simpl; [reflexivity|apply rev_app_distr]. }
    rewrite (moved_eat _ _ _ _ _ Hm Hw).
    rewrite (boundary_after_word pre w post Hne Hletters), Hpost. simpl.
    rewrite (moved_consumed _ _ _ Hm). unfold pos. simpl.
    rewrite !length_rev, length_app. reflexivity.
Qed.

(** The pattern matches at a cursor exactly when a whole-word token starts
    there; the match is the token. *)
Lemma tf_match_here_spec (pre aft : str) (cu' : cursor) (m : rmatch_result) :
  match_here true true_false_pattern (Cursor (rev pre) aft) = Some (cu', m) <->
  exists w post,
    aft = w ++ post /\ is_bool_word w /\
    is_word_opt (last pre) = false /\ is_word_opt (head post) = false /\
    cu' = Cursor (rev (pre ++ w)) post /\
    m = Match (length pre) (length pre + length w) [(1, w)].
Proof.
  rewrite tf_match_here_branches.
  assert (HT : forall w, ci_equal true (L "True") w -> is_bool_word w)
    by (intros w Hw; left; apply ci_equal_True; assumption).
  assert (HF : forall w, ci_equal true (L "False") w -> is_bool_word w)
    by (intros w Hw; right; apply ci_equal_False; assumption).
  split.
  - intros H.
    destruct (at_word_boundary (Cursor (rev pre) aft)) eqn:Hb; [|discriminate].
    assert (Hsome : exists lit, tf_branch lit (Cursor (rev pre) aft) = Some (cu', m)
              /\ forall w, ci_equal true lit w -> is_bool_word w).
    { destruct (tf_branch (L "True") (Cursor (rev pre) aft)) eqn:H1.
      - simpl in H. exists (L "True"). rewrite H1. auto.
      - simpl in H. exists (L "False"). auto. }
    destruct Hsome as (lit & Hbranch & Hlit).
    apply (tf_branch_spec lit pre aft cu' m Hlit) in Hbranch
      as (w & post & -> & Hw & Hpost & -> & ->).
    destruct (bool_word_letters w (Hlit w Hw)) as [Hne Hletters].
    rewrite (boundary_before_word pre w post Hne Hletters) in Hb.
    exists w, post. repeat split; auto.
    destruct (is_word_opt (last pre)); [discriminate|reflexivity].
  - intros (w & post & -> & Hw & Hpre & Hpost & -> & ->).
    destruct (bool_word_letters w Hw) as [Hne Hletters].
    rewrite (boundary_before_word pre w post Hne Hletters), Hpre.
    cbn [negb]. destruct Hw as [Hw|Hw].
    + assert (H1 : tf_branch (L "True") (Cursor (rev pre) (w ++ post)) =
                   Some (Cursor (rev (pre ++ w)) post,
                         Match (length pre) (length pre + length w) [(1, w)])).
      { apply (tf_branch_spec _ _ _ _ _ HT). exists w, post.
        repeat split; auto. apply ci_equal_True. assumption. }
      rewrite H1. reflexivity.
    + destruct (tf_branch (L "True") (Cursor (rev pre) (w ++ post)))
        as [[cu1 m1]|] eqn:H1.
      * exfalso.
        apply (tf_branch_spec _ _ _ _ _ HT) in H1
          as (w1 & post1 & Heq & Hw1 & _).
        apply ci_equal_True in Hw1.
        apply (not_both_words w1 w post1 post Hw1 Hw). congruence.
      * cbn [orelse]. apply (tf_branch_spec _ _ _ _ _ HF). exists w, post.
        repeat split; auto. apply ci_equal_False. assumption.
Qed.

Lemma bool_token_at_here (pre aft w : str) :
  bool_token_at (pre ++ aft) (length pre) w <->
  exists post,
    aft = w ++ post /\ is_bool_word w /\
    is_word_opt (last pre) = false /\ is_word_opt (head post) = false.
Proof.
  split.
  - intros (pre' & post & Heq & Hlen & Hw & Hpre & Hpost).
    apply app_inj_1 in Heq as [-> ->]; [|congruence]. eauto.
  - intros (post & -> & Hw & Hpre & Hpost). exists pre, post. auto.
Qed.

Lemma tf_match_here_token (pre aft : str) :
  match match_here true true_false_pattern (Cursor (rev pre) aft) with
  | Some (cu', m) =>
      exists w post,
        aft = w ++ post /\ bool_token_at (pre ++ aft) (length pre) w /\
        cu' = Cursor (rev (pre ++ w)) post /\
        m = Match (length pre) (length pre + length w) [(1, w)]
  | None => forall w, ~ bool_token_at (pre ++ aft) (length pre) w
  end.
Proof.
  destruct (match_here true true_false_pattern (Cursor (rev pre) aft))
    as [[cu' m]|] eqn:H.
  - apply tf_match_here_spec in H
      as (w & post & -> & Hw & Hpre & Hpost & -> & ->).
    exists w, post. repeat split; try reflexivity.
    apply bool_token_at_here. eauto.
  - intros w Hw. apply bool_token_at_here in Hw
      as (post & -> & Hw & Hpre & Hpost).
    assert (Hsome : match_here true true_false_pattern
                      (Cursor (rev pre) (w ++ post)) =
                    Some (Cursor (rev (pre ++ w)) post,
                          Match (length pre) (length pre + length w) [(1, w)])).
    { apply tf_match_here_spec. exists w, post. auto 10. }
    congruence.
Qed.

Lemma bool_token_fits (s : str) (q : nat) (w : str) :
  bool_token_at s q w -> q + 4 <= length s.
Proof.
  intros (pre & post & -> & <- & Hw & _).
  pose proof (bool_word_length w Hw). rewrite !length_app. lia.
Qed.

(** No token starts inside a token. *)
Lemma no_token_inside_token (s : str) (q q' : nat) (w w' : str) :
  bool_token_at s q w -> bool_token_at s q' w' ->
  q < q' -> q' < q + length w -> False.
Proof.
  intros (pre & post & -> & <- & Hw & _) (pre' & post' & Heq & <- & _ & Hpre' & _)
    Hlt Hlt'.
  destruct (bool_word_letters w Hw) as [_ Hletters].
  assert (Hpre : pre' = pre ++ take (length pre' - length pre) w).
  { apply (f_equal (take (length pre'))) in Heq.
    rewrite take_app_length in Heq.
    rewrite take_app_ge, take_app_le in Heq by lia.
    symmetry. exact Heq. }
  rewrite Hpre in Hpre'.
  set (u := take (length pre' - length pre) w) in *.
  assert (Hu : u <> []).
  { intros Hu. apply (f_equal length) in Hu. unfold u in Hu.
    rewrite length_take in Hu. simpl in Hu.
    pose proof (bool_word_length w Hw). lia. }
  rewrite last_app_ne in Hpre' by assumption.
  rewrite word_last in Hpre'; [discriminate|assumption|].
  unfold u. apply Forall_take. assumption.
Qed.

Lemma bool_token_unique (s : str) (q : nat) (w w' : str) :
  bool_token_at s q w -> bool_token_at s q w' -> w = w'.
Proof.
  intros H H'. pose proof H as (pre & post & -> & <- & _).
  rewrite (app_assoc pre w post) in H'.
  pose proof (tf_match_here_token pre (w ++ post)) as Hm.
  apply bool_token_at_here in H as (post1 & Heq1 & Hw1 & Hpre1 & Hpost1).
  rewrite <- app_assoc in H'.
  apply bool_token_at_here in H' as (post2 & Heq2 & Hw2 & Hpre2 & Hpost2).
  assert (H1 : match_here true true_false_pattern (Cursor (rev pre) (w ++ post)) =
               Some (Cursor (rev (pre ++ w)) post1,
                     Match (length pre) (length pre + length w) [(1, w)])).
  { apply tf_match_here_spec. exists w, post1. auto 10. }
  assert (H2 : match_here true true_false_pattern (Cursor (rev pre) (w ++ post)) =
               Some (Cursor (rev (pre ++ w')) post2,
                     Match (length pre) (length pre + length w') [(1, w')])).
  { apply tf_match_here_spec. exists w', post2. auto 10. }
  congruence.
Qed.

(** The leftmost match from a cursor is the first token from there on. *)
Lemma tf_search_spec (aft pre : str) :
  match search_from true true_false_pattern (rev pre) aft with
  | Some (cu', m) =>
      exists skipped w post,
        aft = skipped ++ w ++ post /\
        bool_token_at (pre ++ aft) (length pre + length skipped) w /\
        cu' = Cursor (rev (pre ++ skipped ++ w)) post /\
        m = Match (length pre + length skipped)
                  (length pre + length skipped + length w) [(1, w)]
  | None => forall q w, length pre <= q -> ~ bool_token_at (pre ++ aft) q w
  end.
Proof.
  revert pre. induction aft as [|c aft IH]; intros pre; simpl;
    pose proof (tf_match_here_token pre) as Hhere.
  - specialize (Hhere []).
    destruct (match_here true true_false_pattern (Cursor (rev pre) []))
      as [[cu' m]|]; simpl.
    + destruct Hhere as (w & post & Heq & Htok & -> & ->).
      exists [], w, post. simpl. rewrite Nat.add_0_r. auto.
    + intros q w Hq Htok. apply bool_token_fits in Htok.
      rewrite length_app in Htok. simpl in Htok. lia.
  - specialize (Hhere (c :: aft)).
    destruct (match_here true true_false_pattern (Cursor (rev pre) (c :: aft)))
      as [[cu' m]|]; simpl.
    + destruct Hhere as (w & post & Heq & Htok & -> & ->).
      exists [], w, post. simpl. rewrite Nat.add_0_r. auto.
    + specialize (IH (pre ++ [c])).
      rewrite rev_app_distr in IH. simpl in IH.
      destruct (search_from true true_false_pattern (c :: rev pre) aft)
        as [[cu' m]|].
      * destruct IH as (skipped & w & post & -> & Htok & -> & ->).
        exists (c :: skipped), w, post.
        rewrite <- !app_assoc in *. simpl in *.
        rewrite length_app in *. simpl in *.
        replace (length pre + S (length skipped))
          with (length pre + 1 + length skipped) by lia.
        auto.
      * intros q w Hq Htok.
        destruct (decide (q = length pre)) as [->|Hne].
        -- apply (Hhere w). assumption.
        -- apply (IH q w).
           ++ rewrite length_app. simpl. lia.
           ++ rewrite <- app_assoc. assumption.
Qed.

(** The last match of [finditer] is the last token. *)
Lemma tf_finditer_last (fuel : nat) (pre aft : str) :
  length aft < fuel ->
  match last (finditer_from true true_false_pattern fuel (Cursor (rev pre) aft)) with
  | Some m =>
      exists q w,
        length pre <= q /\ bool_token_at (pre ++ aft) q w /\
        m = Match q (q + length w) [(1, w)] /\
        forall q' w', q < q' -> ~ bool_token_at (pre ++ aft) q' w'
  | None => forall q w, length pre <= q -> ~ bool_token_at (pre ++ aft) q w
  end.
Proof.
  revert pre aft. induction fuel as [|fuel IH]; intros pre aft Hfuel; [lia|].
  cbn [finditer_from before after].
  pose proof (tf_search_spec aft pre) as Hsearch.
  destruct (search_from true true_false_pattern (rev pre) aft)
    as [[cu' m]|]; [|exact Hsearch].
  destruct Hsearch as (skipped & w & post & -> & Htok & -> & ->).
  pose proof Htok as (_ & _ & _ & _ & Hw & _).
  pose proof (bool_word_length w Hw) as Hlen.
  cbn [m_end m_start].
  replace (length pre + length skipped + length w =? length pre + length skipped)
    with false by (symmetry; apply Nat.eqb_neq; lia).
  rewrite !length_app in Hfuel.
  specialize (IH (pre ++ skipped ++ w) post ltac:(lia)).
  rewrite <- !app_assoc in IH. rewrite !length_app in IH.
  rewrite last_cons.
  destruct (last (finditer_from true true_false_pattern fuel
                    (Cursor (rev (pre ++ skipped ++ w)) post))) as [m'|].
  - destruct IH as (q & w' & Hq & Htok' & -> & Hlast).
    exists q, w'. repeat split; try assumption. lia.
  - exists (length pre + length skipped), w.
    repeat split; try assumption; [lia|].
    intros q' w' Hq' Htok'.
    destruct (decide (q' < length pre + length skipped + length w)) as [Hin|Hout].
    + apply (no_token_inside_token _ _ _ _ _ Htok Htok' Hq' Hin).
    + apply (IH q' w'); [lia|assumption].
Qed.

(** [re.finditer] with [true_false_pattern]: the last match, if any, is the
    last whole-word token of the text. *)
Lemma tf_last_match (s : str) :
  match last (re_finditer true true_false_pattern s) with
  | Some m =>
      exists q w,
        bool_token_at s q w /\ m = Match q (q + length w) [(1, w)] /\
        forall q' w', q < q' -> ~ bool_token_at s q' w'
  | None => forall q w, ~ bool_token_at s q w
  end.
Proof.
  unfold re_finditer, cursor_at_start.
  pose proof (tf_finditer_last (S (length s)) [] s ltac:(lia)) as H.
  cbn [rev app length] in H.
  destruct (last (finditer_from true true_false_pattern (S (length s))
                    (Cursor [] s))) as [m|].
  - destruct H as (q & w & _ & Htok & -> & Hlast). eauto.
  - intros q w. apply H. lia.
Qed.



(** At the last token the function reads the bold attribute that its run
    loop finds for the offset of the token. *)
Lemma parse_true_false_at_last_token (paragraph : Paragraph)
    (p : nat) (w : str) :
  let formatted_parts := extract_text_with_formatting paragraph in
  let full_text := concat (map fst formatted_parts) in
  bool_token_at full_text p w ->
  (forall q w', bool_token_at full_text q w' -> q <= p) ->
  parse_true_false_from_runs paragraph =
  (Some (strip (take p full_text)),
   Some (if truthy (bold_at formatted_parts 0 p) then lower w
         else opposite (lower w))).
Proof.
  intros formatted_parts full_text Htok Hlast.
  unfold parse_true_false_from_runs. fold formatted_parts. fold full_text.
  pose proof (tf_last_match full_text) as Hmatch.
  destruct (last (re_finditer true true_false_pattern full_text)) as [m|].
  - destruct Hmatch as (q & w0 & Htok0 & -> & Hafter).
    assert (q = p) as ->.
    { pose proof (Hlast q w0 Htok0).
      destruct (decide (q < p)) as [Hlt|]; [|lia].
      exfalso. apply (Hafter p w Hlt Htok). }
    rewrite (bool_token_unique _ _ _ _ Htok0 Htok). reflexivity.
  - exfalso. apply (Hmatch p w Htok).
Qed.





(** ** Blank runs *)

(** A run of white space only is not part of the text the function works
    on: here the words on both sides of it are joined and no token is
    found. *)
Lemma blank_run_is_left_out :
  para_text (para [plain "Water is wet"; plain " "; strong "True"]) =
    L "Water is wet True" /\
  concat (map fst (extract_text_with_formatting
                     (para [plain "Water is wet"; plain " "; strong "True"]))) =
    L "Water is wetTrue" /\
  parse_true_false_from_runs
    (para [plain "Water is wet"; plain " "; strong "True"]) = (None, None).
Proof. vm_compute. repeat split; reflexivity. Qed.

Lemma lstrip_nil (s : str) : lstrip s = [] <-> all_space s.
Proof.
  induction s as [|c s IH]; simpl.
  - split; [constructor|reflexivity].
  - destruct (is_space c) eqn:Hc.
    + rewrite IH. split; [intros H; constructor; assumption|].
      intros H. inversion H; assumption.
    + split; [discriminate|]. intros H. inversion H; congruence.
Qed.

Lemma lstrip_head (s : str) :
  match lstrip s with
  | c :: _ => is_space c = false
  | [] => True
  end.
Proof.
  induction s as [|c s IH]; simpl; [exact I|].
  destruct (is_space c) eqn:Hc; [exact IH|exact Hc].
Qed.

Lemma strip_nil (s : str) : strip s = [] <-> all_space s.
Proof.
  unfold strip, rstrip. split.
  - intros H. apply lstrip_nil.
    apply (f_equal (@rev ascii)) in H. rewrite rev_involutive in H. simpl in H.
    apply lstrip_nil in H. pose proof (lstrip_head s) as Hhead.
    destruct (lstrip s) as [|c s']; [reflexivity|].
    unfold all_space in H. rewrite Forall_forall in H.
    specialize (H c). rewrite Hhead in H. exfalso.
    enough (false = true) by discriminate. apply H.
    apply list_elem_of_In. apply in_rev. rewrite rev_involutive. left.
    reflexivity.
  - intros H. apply lstrip_nil in H. rewrite H. reflexivity.
Qed.

Lemma nonempty_strip_false (s : str) :
  nonempty (strip s) = false <-> all_space s.
Proof.
  rewrite <- strip_nil. destruct (strip s); simpl; split;
    congruence || discriminate.
Qed.

Lemma all_space_app (a b : str) : all_space (a ++ b) <-> all_space a /\ all_space b.
Proof. apply Forall_app. Qed.

Lemma no_space_app (a b : str) : no_space (a ++ b) <-> no_space a /\ no_space b.
Proof. apply Forall_app. Qed.

Lemma space_and_no_space (s : str) : all_space s -> no_space s -> s = [].
Proof.
  intros Hs Hn. destruct s as [|c s]; [reflexivity|].
  inversion Hs; inversion Hn; congruence.
Qed.

Lemma blank_texts_vanish (texts : list str) :
  all_space (concat texts) -> concat (List.filter not_blank texts) = [].
Proof.
  induction texts as [|t texts IH]; [reflexivity|].
  cbn [concat List.filter].
  intros H. apply all_space_app in H as [Ht Hrest].
  apply nonempty_strip_false in Ht. unfold not_blank at 1. rewrite Ht.
  apply IH. assumption.
Qed.

(** Dropping the blank texts of a list whose concatenation is a word with
    white space around it leaves that word with white space around it. *)
Lemma lone_word_survives (texts : list str) :
  forall ws1 u ws2 : str,
    concat texts = ws1 ++ u ++ ws2 ->
    all_space ws1 -> all_space ws2 -> no_space u ->
    exists ws1' ws2',
      concat (List.filter not_blank texts) = ws1' ++ u ++ ws2' /\
      all_space ws1' /\ all_space ws2' /\ (ws1 = [] -> ws1' = []).
Proof.
  induction texts as [|t texts IH]; intros ws1 u ws2 Heq Hws1 Hws2 Hu.
  - simpl in *. symmetry in Heq.
    apply app_eq_nil in Heq as [-> Heq]. apply app_eq_nil in Heq as [-> ->].
    exists [], []. repeat split; constructor.
  - simpl in Heq. apply app_eq_app in Heq as [l [[Ht Hrest]|[Hws Hrest]]].
    + (* [t] reaches past [ws1] *)
      symmetry in Hrest. apply app_eq_app in Hrest as [l' [[Hl Hws]|[Hu' Hrest]]].
      * (* [t] reaches past [u] *)
        subst t l ws2. apply all_space_app in Hws2 as [Hl' Hrest].
        cbn [List.filter].
        destruct (not_blank (ws1 ++ u ++ l')) eqn:Hblank; cbn [concat];
          rewrite (blank_texts_vanish texts Hrest).
        -- exists ws1, l'. rewrite app_nil_r. auto.
        -- apply nonempty_strip_false in Hblank.
           apply all_space_app in Hblank as [_ Hblank].
           apply all_space_app in Hblank as [Hblank _].
           rewrite (space_and_no_space u Hblank Hu).
           exists [], []. repeat split; constructor.
      * (* [t] ends inside [u] *)
        subst t u. apply no_space_app in Hu as [Hl Hl'].
        destruct (IH [] l' ws2 Hrest ltac:(constructor) Hws2 Hl')
          as (ws1' & ws2' & Hfilter & _ & Hws2' & Hnil).
        rewrite (Hnil eq_refl) in Hfilter. simpl in Hfilter.
        cbn [List.filter].
        destruct (not_blank (ws1 ++ l)) eqn:Hblank; cbn [concat];
          rewrite Hfilter.
        -- exists ws1, ws2'. rewrite <- !app_assoc. auto.
        -- apply nonempty_strip_false in Hblank.
           apply all_space_app in Hblank as [_ Hblank].
           rewrite (space_and_no_space l Hblank Hl). simpl.
           exists [], ws2'. repeat split; auto; constructor.
    + (* [t] lies inside [ws1] *)
      subst ws1. apply all_space_app in Hws1 as [Ht Hl].
      cbn [List.filter]. apply nonempty_strip_false in Ht.
      unfold not_blank at 1. rewrite Ht.
      destruct (IH l u ws2 Hrest Hl Hws2 Hu)
        as (ws1' & ws2' & Hfilter & Hws1' & Hws2' & Hnil).
      exists ws1', ws2'. repeat split; auto.
      intros Hnil'. apply app_eq_nil in Hnil' as [_ ->]. auto.
Qed.

Lemma word_is_no_space (c : ascii) : is_word c = true -> is_space c = false.
Proof.
  destruct c as [[] [] [] [] [] [] [] []]; first [reflexivity|discriminate].
Qed.

Lemma formatted_text (paragraph : Paragraph) :
  concat (map fst (extract_text_with_formatting paragraph)) =
  concat (List.filter not_blank (map run_text (runs paragraph))).
Proof.
  unfold extract_text_with_formatting. f_equal.
  induction (runs paragraph) as [|run rs IH]; simpl; [reflexivity|].
  unfold not_blank at 1. destruct (nonempty (strip (run_text run))); simpl;
    rewrite IH; reflexivity.
Qed.

(** A token with white space around it is the last token of its text. *)
Lemma lone_token_is_last (ws1 w ws2 : str) :
  all_space ws1 -> all_space ws2 -> is_bool_word w ->
  bool_token_at (ws1 ++ w ++ ws2) (length ws1) w /\
  forall q w', bool_token_at (ws1 ++ w ++ ws2) q w' -> q <= length ws1.
Proof.
  intros Hws1 Hws2 Hw.
  assert (Hedge : forall s, all_space s ->
            is_word_opt (last s) = false /\ is_word_opt (head s) = false).
  { intros s Hs. split.
    - destruct (last s) as [c|] eqn:Hlast; [|reflexivity]. simpl.
      apply last_Some_elem_of in Hlast.
      unfold all_space in Hs. rewrite Forall_forall in Hs.
      specialize (Hs c Hlast). destruct (is_word c) eqn:Hc; [|reflexivity].
      apply word_is_no_space in Hc. congruence.
    - destruct s as [|c s]; [reflexivity|]. simpl. inversion Hs; subst.
      destruct (is_word c) eqn:Hc; [|reflexivity].
      apply word_is_no_space in Hc. congruence. }
  assert (Htok : bool_token_at (ws1 ++ w ++ ws2) (length ws1) w).
  { exists ws1, ws2. repeat split; auto; apply Hedge; assumption. }
  split; [assumption|].
  intros q w' Htok'. destruct (decide (q <= length ws1)) as [|Hgt]; [assumption|].
  exfalso. destruct (decide (q < length ws1 + length w)) as [Hin|Hout].
  - apply (no_token_inside_token _ _ _ _ _ Htok Htok'); lia.
  - destruct Htok' as (pre & post & Heq & Hlen & Hw' & _).
    destruct (bool_word_letters w' Hw') as [Hne Hletters].
    destruct w' as [|c w']; [congruence|]. inversion Hletters; subst.
    assert (Hc : (ws1 ++ w ++ ws2) !! length pre = Some c).
    { rewrite Heq. rewrite lookup_app_r by lia.
      rewrite Nat.sub_diag. reflexivity. }
    rewrite lookup_app_r, lookup_app_r in Hc by lia.
    apply list_elem_of_lookup_2 in Hc.
    unfold all_space in Hws2. rewrite Forall_forall in Hws2.
    specialize (Hws2 c Hc).
    match goal with H : is_word c = true |- _ =>
      apply word_is_no_space in H; congruence end.
Qed.

(** C10: for a paragraph whose text is a "true" or "false" token with
    nothing but white space around it, [parse_true_false_from_runs] returns
    an empty question text, and [extract_true_false_questions] adds no
    question for the paragraph, whatever the bold attributes. *)
Theorem lone_token_gives_no_question (st : tf_state) (paragraph : Paragraph)
    (ws1 w ws2 : str) :
  para_text paragraph = ws1 ++ w ++ ws2 ->
  all_space ws1 -> all_space ws2 -> is_bool_word w ->
  (exists correct_answer,
     parse_true_false_from_runs paragraph = (Some [], Some correct_answer)) /\
  tf_out (tf_step st paragraph) = tf_out st.
Proof.
  intros Htext Hws1 Hws2 Hw.
  assert (Hparse : exists correct_answer,
            parse_true_false_from_runs paragraph = (Some [], Some correct_answer)).
  { destruct (bool_word_letters w Hw) as [_ Hletters].
    destruct (lone_word_survives (map run_text (runs paragraph)) ws1 w ws2)
      as (ws1' & ws2' & Hfull & Hws1' & Hws2' & _); try assumption.
    { eapply Forall_impl; [exact Hletters|]. apply word_is_no_space. }
    rewrite <- formatted_text in Hfull.
    destruct (lone_token_is_last ws1' w ws2' Hws1' Hws2' Hw) as [Htok Hlast].
    rewrite <- Hfull in Htok, Hlast.
    rewrite (parse_true_false_at_last_token paragraph (length ws1') w
               Htok Hlast).
    rewrite Hfull, take_app_length.
    apply strip_nil in Hws1'. rewrite Hws1'. eauto. }
  split; [assumption|].
  destruct Hparse as [correct_answer Hparse].
  unfold tf_step. rewrite Hparse. cbn [nonempty andb].
  repeat match goal with
         | |- context [if ?b then _ else _] => destruct b
         end; reflexivity.
Qed.

(** C10 on a paragraph that is a bold "True" between two blank runs. *)
Lemma lone_token_gives_no_question_witness :
  (exists correct_answer,
     parse_true_false_from_runs (para [plain " "; strong "True"; plain " "]) =
     (Some [], Some correct_answer)) /\
  tf_out (tf_step {| in_true_false_section := true; tf_out := [] |}
            (para [plain " "; strong "True"; plain " "])) = [].
Proof.
  apply (lone_token_gives_no_question
           {| in_true_false_section := true; tf_out := [] |}
           (para [plain " "; strong "True"; plain " "])
           (L " ") (L "True") (L " ")).
  - reflexivity.
  - repeat constructor.
  - repeat constructor.
  - left. reflexivity.
Defined.

(** * Further properties of the code *)

(** ** The true/false pass *)

(** The two outcomes of [parse_true_false_from_runs]. *)
Lemma parse_true_false_cases (paragraph : Paragraph) :
  let full_text :=
    concat (map fst (extract_text_with_formatting paragraph)) in
  (parse_true_false_from_runs paragraph = (None, None) /\
   forall q w, ~ bool_token_at full_text q w) \/
  (exists question answer,
     parse_true_false_from_runs paragraph = (Some question, Some answer) /\
     answer <> [] /\
     exists q w, bool_token_at full_text q w).
Proof.
  intros full_text. unfold parse_true_false_from_runs. fold full_text.
  pose proof (tf_last_match full_text) as Hmatch.
  destruct (last (re_finditer true true_false_pattern full_text)) as [m|].
  - right. destruct Hmatch as (q & w & Htok & -> & _).
    pose proof Htok as (_ & _ & _ & _ & Hw & _).
    pose proof Hw as Hlow. unfold is_bool_word in Hlow.
    eexists _, _. split; [reflexivity|]. split; [|eauto].
    cbn [group m_groups lookup_group Nat.eqb default].
    fold (opposite (lower w)).
    unfold id.
    destruct (truthy _); [destruct Hlow as [H|H]; rewrite H; discriminate|].
    destruct (Str.eqb _ _); discriminate.
  - left. split; [reflexivity|assumption].
Qed.

(** X1: [parse_true_false_from_runs] gives [(None, None)] exactly when the
    text of the runs that are not blank holds no whole-word match of "true"
    or "false" (matched without regard to case); in every other case it
    gives both a question and an answer, and the answer is not empty. *)
Theorem parse_true_false_none_or_both (paragraph : Paragraph) :
  let full_text :=
    concat (map fst (extract_text_with_formatting paragraph)) in
  (parse_true_false_from_runs paragraph = (None, None) <->
   forall q w, ~ bool_token_at full_text q w) /\
  (parse_true_false_from_runs paragraph <> (None, None) ->
   exists question answer,
     parse_true_false_from_runs paragraph = (Some question, Some answer) /\
     answer <> []).
Proof.
  intros full_text. subst full_text.
  destruct (parse_true_false_cases paragraph)
    as [[Hnone Hno]|(question & answer & Hsome & Hanswer & q & w & Htok)].
  - split; [split; auto|]. intros H. congruence.
  - split.
    + split; [intros H; congruence|].
      intros Hno. exfalso. apply (Hno q w Htok).
    + intros _. eauto.
Qed.

Lemma parse_true_false_none_or_both_witness :
  exists question answer,
    parse_true_false_from_runs ends_in_bold_false =
      (Some question, Some answer) /\
    answer <> [].
Proof.
  apply (parse_true_false_none_or_both ends_in_bold_false).
  vm_compute. discriminate.
Defined.

Lemma tf_step_question_of (doc : Document) (st : tf_state) (para : Paragraph) :
  para ∈ doc ->
  Forall (tf_question_of doc) (tf_out st) ->
  Forall (tf_question_of doc) (tf_out (tf_step st para)).
Proof.
  intros Hpara Hst. unfold tf_step.
  destruct (negb _); [assumption|].
  destruct (tf_section_header _); [assumption|].
  destruct (_ && tf_section_end _); [assumption|].
  destruct (in_true_false_section st); [|assumption]. cbn [andb].
  destruct (is_true_false_question _) eqn:Htest; [|assumption].
  destruct (parse_true_false_from_runs para)
    as [[question|] [answer|]] eqn:Hparse; try assumption.
  destruct question as [|c question]; [assumption|].
  destruct answer as [|a answer]; [assumption|].
  cbn [nonempty andb tf_out]. apply Forall_app. split; [assumption|].
  apply Forall_singleton. split; [discriminate|]. split; [discriminate|].
  exists para. repeat split; assumption.
Qed.

Lemma tf_fold_question_of (doc l : Document) (st : tf_state) :
  (forall para, para ∈ l -> para ∈ doc) ->
  Forall (tf_question_of doc) (tf_out st) ->
  Forall (tf_question_of doc) (tf_out (fold_left tf_step l st)).
Proof.
  revert st. induction l as [|para l IH]; intros st Hl Hst; [assumption|].
  cbn [fold_left]. apply IH.
  - intros para' Hpara'. apply Hl. right. assumption.
  - apply tf_step_question_of; [apply Hl; left|assumption].
Qed.

(** X2: every question the true/false pass records is what
    [parse_true_false_from_runs] gives for a paragraph of the document that
    [is_true_false_question] accepts, and neither its text nor its answer is
    empty. *)
Theorem tf_questions_come_from_paragraphs (doc : Document) :
  Forall (tf_question_of doc) (tf_found doc).
Proof.
  unfold tf_found, extract_true_false_questions.
  cbn [true_false_questions]. apply tf_fold_question_of; [auto|constructor].
Qed.

Lemma tf_step_with_older (old : list TrueFalseQuestion) (st : tf_state)
    (para : Paragraph) :
  tf_step (tf_with_older old st) para = tf_with_older old (tf_step st para).
Proof.
  unfold tf_step, tf_with_older. cbn [in_true_false_section tf_out].
  repeat match goal with
         | |- context [if ?b then _ else _] => destruct b
         | |- context [match ?x with _ => _ end] => destruct x
         end;
    cbn [in_true_false_section tf_out]; rewrite ?app_assoc; reflexivity.
Qed.

Lemma tf_fold_with_older (old : list TrueFalseQuestion) (doc : Document)
    (st : tf_state) :
  fold_left tf_step doc (tf_with_older old st) =
  tf_with_older old (fold_left tf_step doc st).
Proof.
  revert st. induction doc as [|para doc IH]; intros st; [reflexivity|].
  simpl. rewrite tf_step_with_older. apply IH.
Qed.

Lemma tf_step_at_most_one (st : tf_state) (para : Paragraph) :
  length (tf_out (tf_step st para)) <= S (length (tf_out st)).
Proof.
  unfold tf_step.
  repeat match goal with
         | |- context [if ?b then _ else _] => destruct b
         | |- context [match ?x with _ => _ end] => destruct x
         end;
    cbn [tf_out]; rewrite ?length_app; simpl; lia.
Qed.

Lemma tf_fold_at_most_one (doc : Document) (st : tf_state) :
  length (tf_out (fold_left tf_step doc st)) <= length doc + length (tf_out st).
Proof.
  revert st. induction doc as [|para doc IH]; intros st; simpl; [lia|].
  specialize (IH (tf_step st para)).
  pose proof (tf_step_at_most_one st para). lia.
Qed.

(** X3: [extract_true_false_questions] appends: the list after the pass is
    the list before it followed by the questions of the document, of which
    there is at most one for each paragraph; the lists of multiple-choice
    questions and of crosswords stay as they are. *)
Theorem tf_pass_appends (self : Converter) (doc : Document) :
  true_false_questions (extract_true_false_questions self doc) =
    true_false_questions self ++ tf_found doc /\
  length (tf_found doc) <= length doc /\
  multiple_choice_questions (extract_true_false_questions self doc) =
    multiple_choice_questions self /\
  crossword_puzzles (extract_true_false_questions self doc) =
    crossword_puzzles self.
Proof.
  unfold tf_found, extract_true_false_questions.
  cbn [true_false_questions multiple_choice_questions crossword_puzzles reset].
  repeat split.
  - pose proof (tf_fold_with_older (true_false_questions self) doc
                  {| in_true_false_section := false; tf_out := [] |}) as H.
    unfold tf_with_older at 1 in H. cbn [in_true_false_section tf_out] in H.
    rewrite app_nil_r in H. rewrite H. reflexivity.
  - pose proof (tf_fold_at_most_one doc
                  {| in_true_false_section := false; tf_out := [] |}) as H.
    simpl in H. lia.
Qed.

Lemma tf_step_outside (st : tf_state) (para : Paragraph) :
  in_true_false_section st = false ->
  tf_section_header (strip (para_text para)) = false ->
  tf_step st para = st.
Proof.
  intros Hin Hheader. unfold tf_step. rewrite Hheader, Hin.
  destruct (negb _); reflexivity.
Qed.

(** X4: a document in which no paragraph holds "true or false" or
    "true/false" (in any case) gives no true/false question, whatever its
    paragraphs end in. *)
Theorem tf_nothing_without_header (doc : Document) :
  (forall para, para ∈ doc ->
     tf_section_header (strip (para_text para)) = false) ->
  tf_found doc = [].
Proof.
  intros Hdoc. unfold tf_found, extract_true_false_questions.
  cbn [true_false_questions reset].
  enough (H : forall st, in_true_false_section st = false ->
            fold_left tf_step doc st = st) by (rewrite H; reflexivity).
  induction doc as [|para doc IH]; intros st Hin; [reflexivity|].
  simpl. rewrite tf_step_outside; [|assumption|apply Hdoc; left].
  apply IH; [|assumption].
  intros para' Hpara'. apply Hdoc. right. assumption.
Qed.

Lemma tf_nothing_without_header_witness :
  tf_found [ends_in_bold_false; ends_in_plain_true] = [].
Proof.
  apply tf_nothing_without_header.
  intros para Hpara.
  apply elem_of_cons in Hpara as [->|Hpara]; [reflexivity|].
  apply elem_of_cons in Hpara as [->|Hpara]; [reflexivity|].
  inversion Hpara.
Defined.

(** ** The test for a true/false line *)

Lemma strip_ends_in_no_space (s a ws : str) :
  strip s = a ++ ws -> all_space ws -> ws = [].
Proof.
  intros Heq Hws. destruct ws as [|c ws _] using rev_ind; [reflexivity|].
  exfalso. apply all_space_app in Hws as [_ Hc]. inversion Hc; subst.
  unfold strip, rstrip in Heq.
  apply (f_equal (@rev ascii)) in Heq.
  rewrite rev_involutive, app_assoc, rev_app_distr in Heq. simpl in Heq.
  pose proof (lstrip_head (rev (lstrip s))) as Hhead.
  rewrite Heq in Hhead. congruence.
Qed.

Lemma den_true_or_false (cu cu' : cursor) :
  den true true_or_false cu cu' <->
  exists w, moved w cu cu' /\ is_bool_word w.
Proof.
  unfold true_or_false. rewrite den_or_inv, !den_lit_moved. split.
  - intros [(w & Hm & Hw)|(w & Hm & Hw)]; exists w; (split; [assumption|]).
    + left. apply ci_equal_lower in Hw. symmetry. exact Hw.
    + right. apply ci_equal_lower in Hw. symmetry. exact Hw.
  - intros (w & Hm & [Hw|Hw]); [left|right]; exists w;
      (split; [assumption|]); apply ci_equal_lower; symmetry; exact Hw.
Qed.

(** White space up to the end of the text. *)
Lemma den_spaces_to_end (cu : cursor) :
  (exists cu', den true (Cat (Star (Cls space)) Eol) cu cu') <->
  all_space (after cu).
Proof.
  split.
  - intros (cu' & H). apply den_cat_inv in H as (cu1 & H1 & H2).
    apply den_star_cls in H1 as (ws & [Ha _] & Hws).
    apply den_eol_inv in H2 as [Hend ->].
    rewrite Ha. apply all_space_app. split.
    + eapply Forall_impl; [exact Hws|]. intros c Hc. cbv beta in Hc.
      rewrite in_class_space in Hc. exact Hc.
    + unfold at_end in Hend.
      destruct (after cu1) as [|e [|? ?]]; [constructor| |discriminate].
      apply Ascii.eqb_eq in Hend as ->. repeat constructor.
  - intros Hws. exists (Cursor (rev (after cu) ++ before cu) []).
    apply den_cat_inv. exists (Cursor (rev (after cu) ++ before cu) []).
    split; [|apply den_eol_inv; auto].
    apply den_star_cls. exists (after cu). split.
    + split; simpl; [rewrite app_nil_r|]; reflexivity.
    + eapply Forall_impl; [exact Hws|]. intros c Hc. cbv beta.
      rewrite in_class_space. exact Hc.
Qed.

Lemma tf_end_pattern_spec (text : str) :
  matches (re_search true tf_end_pattern text) = true <->
  exists pre w ws,
    text = pre ++ w ++ ws /\ is_bool_word w /\
    is_word_opt (last pre) = false /\ all_space ws.
Proof.
  rewrite re_search_matches. unfold tf_end_pattern. cbn [Seq]. split.
  - intros (pre & post & cu' & -> & H).
    apply den_cat_inv in H as (cu1 & H1 & H).
    apply den_wordb_inv in H1 as [Hb ->].
    apply den_cat_inv in H as (cu2 & H2 & H).
    apply den_group_inv, den_true_or_false in H2 as (w & Hm & Hw).
    apply moved_cursor in Hm as (rest & -> & ->).
    assert (Hws : all_space rest).
    { apply (den_spaces_to_end (Cursor (rev w ++ rev pre) rest)). eauto. }
    destruct (bool_word_letters w Hw) as [Hne Hletters].
    rewrite (boundary_before_word pre w rest Hne Hletters) in Hb.
    exists pre, w, rest. repeat split; try assumption.
    destruct (is_word_opt (last pre)); [discriminate|reflexivity].
  - intros (pre & w & ws & -> & Hw & Hpre & Hws).
    destruct (bool_word_letters w Hw) as [Hne Hletters].
    destruct (proj2 (den_spaces_to_end (Cursor (rev w ++ rev pre) ws)) Hws)
      as (cu' & Hrest).
    exists pre, (w ++ ws), cu'. split; [reflexivity|].
    apply den_cat_inv. exists (Cursor (rev pre) (w ++ ws)). split.
    { apply den_wordb_inv. split; [|reflexivity].
      rewrite (boundary_before_word pre w ws Hne Hletters), Hpre.
      reflexivity. }
    apply den_cat_inv. exists (Cursor (rev w ++ rev pre) ws).
    split; [|assumption].
    apply den_group_inv, den_true_or_false. exists w.
    split; [|assumption]. split; reflexivity.
Qed.

Lemma ci_equal_stars (m : str) : ci_equal true (L "**") m <-> m = L "**".
Proof.
  assert (Hstar : forall c, chr_eq true "*" c = true <-> c = "*"%char).
  { intros c. destruct c as [[] [] [] [] [] [] [] []]; simpl;
      split; congruence || discriminate. }
  split.
  - intros H. inversion H as [|? c1 ? m1 H1 H']; subst.
    inversion H' as [|? c2 ? m2 H2 H'']; subst. inversion H''; subst.
    apply Hstar in H1, H2. subst. reflexivity.
  - intros ->. repeat constructor.
Qed.

Lemma tf_end_starred_pattern_spec (text : str) :
  matches (re_search true tf_end_starred_pattern text) = true <->
  exists pre w ws,
    text = pre ++ L "**" ++ w ++ L "**" ++ ws /\ is_bool_word w /\
    all_space ws.
Proof.
  rewrite re_search_matches. unfold tf_end_starred_pattern. cbn [Seq]. split.
  - intros (pre & post & cu' & -> & H).
    apply den_cat_inv in H as (cu1 & H1 & H).
    apply den_lit_moved in H1 as (s1 & Hm1 & Hs1).
    apply ci_equal_stars in Hs1 as ->.
    apply moved_cursor in Hm1 as (rest1 & -> & ->).
    apply den_cat_inv in H as (cu2 & H2 & H).
    apply den_group_inv, den_true_or_false in H2 as (w & Hm & Hw).
    apply moved_cursor in Hm as (rest2 & -> & ->).
    apply den_cat_inv in H as (cu3 & H3 & H).
    apply den_lit_moved in H3 as (s2 & Hm2 & Hs2).
    apply ci_equal_stars in Hs2 as ->.
    apply moved_cursor in Hm2 as (rest3 & -> & ->).
    exists pre, w, rest3. repeat split; try assumption.
    apply (den_spaces_to_end
             (Cursor (rev (L "**") ++ rev w ++ rev (L "**") ++ rev pre) rest3)).
    eauto.
  - intros (pre & w & ws & -> & Hw & Hws).
    set (c1 := Cursor (rev (L "**") ++ rev pre) (w ++ L "**" ++ ws)).
    set (c2 := Cursor (rev w ++ before c1) (L "**" ++ ws)).
    set (c3 := Cursor (rev (L "**") ++ before c2) ws).
    destruct (proj2 (den_spaces_to_end c3) Hws) as (cu' & Hrest).
    exists pre, (L "**" ++ w ++ L "**" ++ ws), cu'. split; [reflexivity|].
    apply den_cat_inv. exists c1. split.
    { apply den_lit_moved. exists (L "**"). split; [split; reflexivity|].
      apply ci_equal_stars. reflexivity. }
    apply den_cat_inv. exists c2. split.
    { apply den_group_inv, den_true_or_false. exists w.
      split; [split; reflexivity|assumption]. }
    apply den_cat_inv. exists c3. split; [|assumption].
    apply den_lit_moved. exists (L "**"). split; [split; reflexivity|].
    apply ci_equal_stars. reflexivity.
Qed.

(** X5: [is_true_false_question] accepts a text exactly when the text,
    stripped, ends in "true" or "false" (in any case) with no word character
    before it, or in "true" or "false" between two pairs of stars. *)
Theorem is_true_false_question_spec (text : str) :
  is_true_false_question text = true <->
  ends_in_bool_word (strip text) \/ ends_in_starred_bool_word (strip text).
Proof.
  unfold is_true_false_question. cbn [existsb].
  rewrite orb_false_r, orb_true_iff.
  rewrite tf_end_pattern_spec, tf_end_starred_pattern_spec.
  unfold ends_in_bool_word, ends_in_starred_bool_word. split.
  - intros [(pre & w & ws & Heq & Hw & Hpre & Hws)
           |(pre & w & ws & Heq & Hw & Hws)].
    + left. exists pre, w. rewrite app_assoc in Heq.
      rewrite (strip_ends_in_no_space _ _ _ Heq Hws), app_nil_r in Heq. auto.
    + right. exists pre, w.
      replace (pre ++ L "**" ++ w ++ L "**" ++ ws)
        with ((pre ++ L "**" ++ w ++ L "**") ++ ws) in Heq
        by (rewrite <- !app_assoc; reflexivity).
      rewrite (strip_ends_in_no_space _ _ _ Heq Hws), app_nil_r in Heq. auto.
  - intros [(pre & w & Heq & Hw & Hpre)|(pre & w & Heq & Hw)].
    + left. exists pre, w, []. rewrite app_nil_r. repeat split; auto.
      constructor.
    + right. exists pre, w, []. rewrite Heq. repeat split; auto.
      constructor.
Qed.

(** ** The multiple-choice pass *)

Lemma mc_step_emits (doc : Document) (st : mc_state) (idx : nat)
    (para : Paragraph) :
  mc_emits doc st idx para (mc_out (mc_step doc st (idx, para))).
Proof.
  unfold mc_emits, mc_step, para_lines.
  destruct (negb (nonempty _)); [left; reflexivity|].
  destruct (mc_section_header _); [left; reflexivity|].
  destruct (mc_section_end _ && _); [left; reflexivity|].
  destruct (in_mc_section st); [|left; reflexivity]. cbn [negb].
  destruct (re_match false question_pattern _); [|left; reflexivity].
  destruct (1 <? _); [|left; reflexivity].
  destruct (extract_options _ para) eqn:Hopts; [left; reflexivity|].
  right. cbn [truthy_list mc_out]. eexists. repeat split. discriminate.
Qed.

Lemma register_run_keeps (lines : list str) (S : Run -> Prop)
    (lc : line_cursor) (run : Run) :
  S run ->
  (forall k l, option_runs_map lc !! k = Some l -> Forall S l) ->
  forall k l,
    option_runs_map (register_run lines lc run) !! k = Some l -> Forall S l.
Proof.
  intros Hrun Hlc k l. unfold register_run.
  destruct (skip_lines _ _ _) as [line pos]. cbn [option_runs_map].
  destruct (lines !! line) as [line_text|]; [|apply Hlc].
  destruct (re_match false option_start_pattern line_text) as [m|];
    [|apply Hlc].
  destruct (decide (group m 1 = k)) as [->|Hne].
  - rewrite lookup_insert_eq. intros [= <-]. apply Forall_app. split.
    + destruct (option_runs_map lc !! k) as [l'|] eqn:Hl; simpl;
        [apply (Hlc _ _ Hl)|constructor].
    + apply Forall_singleton. assumption.
  - rewrite lookup_insert_ne by assumption. apply Hlc.
Qed.

Lemma map_runs_to_options_keeps (lines : list str) (para : Paragraph)
    (k : str) (l : list Run) :
  map_runs_to_options lines para !! k = Some l ->
  Forall (fun run => run ∈ runs para) l.
Proof.
  unfold map_runs_to_options.
  enough (H : forall rs lc,
            (forall run, run ∈ rs -> run ∈ runs para) ->
            (forall k l, option_runs_map lc !! k = Some l ->
                         Forall (fun run => run ∈ runs para) l) ->
            forall k l,
              option_runs_map (fold_left (register_run lines) rs lc) !! k
                = Some l ->
              Forall (fun run => run ∈ runs para) l).
  { apply H; [auto|]. intros k' l'. cbn [option_runs_map].
    rewrite lookup_empty. discriminate. }
  clear k l. induction rs as [|run rs IH]; intros lc Hrs Hlc; [exact Hlc|].
  simpl. apply IH.
  - intros run' Hrun'. apply Hrs. right. assumption.
  - apply register_run_keeps; [apply Hrs; left|assumption].
Qed.

Lemma add_option_correct (para : Paragraph) (lines : list str)
    (rest : list str) (options : list MCOption) :
  (forall o, o ∈ options -> opt_correct o = true -> has_bold_run para) ->
  forall o,
    o ∈ fold_left (add_option (map_runs_to_options lines para)) rest options ->
    opt_correct o = true -> has_bold_run para.
Proof.
  revert options. induction rest as [|line rest IH]; intros options Hopts;
    [exact Hopts|].
  simpl. apply IH. unfold add_option.
  destruct (re_match false option_pattern line) as [m|]; [|exact Hopts].
  intros o Ho Hcorrect. apply elem_of_app in Ho as [Ho|Ho]; [eauto|].
  apply list_elem_of_singleton in Ho as ->. cbn [opt_correct] in Hcorrect.
  destruct (map_runs_to_options lines para !! group m 1) as [l|] eqn:Hl;
    [|discriminate].
  apply existsb_exists in Hcorrect as (run & Hin & Hbold).
  apply filter_In in Hin as [Hin Hblank].
  pose proof (map_runs_to_options_keeps lines para _ _ Hl) as Hruns.
  rewrite Forall_forall in Hruns.
  exists run. repeat split.
  - apply Hruns. apply list_elem_of_In. assumption.
  - destruct (run_bold run) as [[]|]; [reflexivity|discriminate|discriminate].
  - assumption.
Qed.

Lemma extract_options_correct (para : Paragraph) (lines : list str)
    (o : MCOption) :
  o ∈ extract_options lines para -> opt_correct o = true -> has_bold_run para.
Proof.
  unfold extract_options. apply add_option_correct.
  intros o' Ho'. inversion Ho'.
Qed.

Lemma mc_fold_question_of (doc : Document) (l : list (nat * Paragraph))
    (st : mc_state) :
  (forall ip, ip ∈ l -> ip.2 ∈ doc) ->
  Forall (question_of doc) (mc_out st) ->
  Forall (question_of doc) (mc_out (fold_left (mc_step doc) l st)).
Proof.
  revert st. induction l as [|[idx para] l IH]; intros st Hl Hst;
    [assumption|].
  cbn [fold_left]. apply IH; [intros ip Hip; apply Hl; right; assumption|].
  destruct (mc_step_emits doc st idx para) as [->|(qt & _ & _ & ->)];
    [assumption|].
  apply Forall_app. split; [assumption|]. apply Forall_singleton.
  exists para. split; [|reflexivity]. apply (Hl (idx, para)). left.
Qed.

(** X6: the options of every question of the multiple-choice pass are those
    of one paragraph of the document, and an option is marked correct only
    if that paragraph has a bold run that is not blank. *)
Theorem correct_option_needs_bold_run (doc : Document)
    (q : MultipleChoiceQuestion) :
  q ∈ mc_found doc ->
  exists para,
    para ∈ doc /\ mc_options q = extract_options (para_lines para) para /\
    ((exists o, o ∈ mc_options q /\ opt_correct o = true) ->
     has_bold_run para).
Proof.
  intros Hq.
  assert (Hof : Forall (question_of doc) (mc_found doc)).
  { unfold mc_found, extract_multiple_choice_questions.
    cbn [multiple_choice_questions]. apply mc_fold_question_of.
    - apply enumerate_snd.
    - constructor. }
  rewrite Forall_forall in Hof. destruct (Hof q Hq) as (para & Hpara & Hopts).
  exists para. repeat split; try assumption.
  intros (o & Ho & Hcorrect). rewrite Hopts in Ho.
  apply (extract_options_correct para _ o Ho Hcorrect).
Qed.

Lemma planet_question_found :
  mc_found [quiz_header; planet_runs_by_line] = [planet_question].
Proof. vm_compute. reflexivity. Qed.

Lemma correct_option_needs_bold_run_witness :
  exists para,
    para ∈ [quiz_header; planet_runs_by_line] /\
    mc_options planet_question = extract_options (para_lines para) para /\
    ((exists o, o ∈ mc_options planet_question /\ opt_correct o = true) ->
     has_bold_run para).
Proof.
  apply (correct_option_needs_bold_run [quiz_header; planet_runs_by_line]).
  rewrite planet_question_found. left.
Defined.

Lemma mc_step_same_scan (doc : Document) (old : list MultipleChoiceQuestion)
    (st1 st2 : mc_state) (ip : nat * Paragraph) :
  mc_same_scan old st1 st2 ->
  mc_same_scan old (mc_step doc st1 ip) (mc_step doc st2 ip).
Proof.
  intros (Hin & Hsec & Hout). destruct ip as [idx para]. unfold mc_step.
  rewrite Hin, Hsec.
  destruct (negb (nonempty _)); [repeat split; assumption|].
  destruct (mc_section_header _); [repeat split; assumption|].
  destruct (mc_section_end _ && _); [repeat split; assumption|].
  destruct (negb _); [repeat split; assumption|].
  destruct (re_match false question_pattern _); [|repeat split; assumption].
  destruct (1 <? _); [|repeat split; assumption].
  destruct (truthy_list _); [|repeat split; assumption].
  repeat split; cbn [in_mc_section section_image_id mc_out]; try assumption.
  rewrite Hout, app_assoc. reflexivity.
Qed.

Lemma mc_fold_same_scan (doc : Document) (old : list MultipleChoiceQuestion)
    (l : list (nat * Paragraph)) (st1 st2 : mc_state) :
  mc_same_scan old st1 st2 ->
  mc_same_scan old (fold_left (mc_step doc) l st1)
                   (fold_left (mc_step doc) l st2).
Proof.
  revert st1 st2. induction l as [|ip l IH]; intros st1 st2 H; [assumption|].
  cbn [fold_left]. apply IH. apply mc_step_same_scan. assumption.
Qed.

(** X7: [extract_multiple_choice_questions] appends the questions of the
    document to the list it finds, whatever the images are; it stores the
    images it is given and leaves the lists of true/false questions and of
    crosswords as they are. *)
Theorem mc_pass_appends (self : Converter) (doc : Document)
    (images_info : list (str * ImageInfo)) :
  let after := extract_multiple_choice_questions self doc images_info in
  multiple_choice_questions after =
    multiple_choice_questions self ++ mc_found doc /\
  images after = images_info /\
  true_false_questions after = true_false_questions self /\
  crossword_puzzles after = crossword_puzzles self.
Proof.
  unfold mc_found, extract_multiple_choice_questions.
  cbn [multiple_choice_questions true_false_questions crossword_puzzles
       images reset shared_image_id].
  repeat split.
  apply (mc_fold_same_scan doc (multiple_choice_questions self)).
  repeat split; cbn [mc_out]. rewrite app_nil_r. reflexivity.
Qed.

Lemma mc_step_outside (doc : Document) (st : mc_state) (idx : nat)
    (para : Paragraph) :
  in_mc_section st = false ->
  mc_section_header (strip (para_text para)) = false ->
  mc_step doc st (idx, para) = st.
Proof.
  intros Hin Hheader. unfold mc_step. rewrite Hheader, Hin.
  rewrite andb_false_r. destruct (negb (nonempty _)); reflexivity.
Qed.

(** X8: if no paragraph of the document is the header of a multiple-choice
    section, the pass adds no question and leaves [shared_image_id] as it
    was. *)
Theorem mc_nothing_without_header (self : Converter) (doc : Document)
    (images_info : list (str * ImageInfo)) :
  (forall para, para ∈ doc ->
     mc_section_header (strip (para_text para)) = false) ->
  let after := extract_multiple_choice_questions self doc images_info in
  multiple_choice_questions after = multiple_choice_questions self /\
  shared_image_id after = shared_image_id self.
Proof.
  intros Hdoc. unfold extract_multiple_choice_questions.
  cbn [multiple_choice_questions shared_image_id].
  enough (H : forall l st,
            (forall ip, ip ∈ l -> ip.2 ∈ doc) ->
            in_mc_section st = false ->
            fold_left (mc_step doc) l st = st).
  { rewrite H; [split; reflexivity|apply enumerate_snd|reflexivity]. }
  induction l as [|[idx para] l IH]; intros st Hl Hin; [reflexivity|].
  cbn [fold_left]. rewrite mc_step_outside; [|assumption|].
  - apply IH; [|assumption]. intros ip Hip. apply Hl. right. assumption.
  - apply Hdoc. apply (Hl (idx, para)). left.
Qed.

Lemma mc_nothing_without_header_witness :
  multiple_choice_questions
    (extract_multiple_choice_questions reset [planet_runs_by_line] []) = [] /\
  shared_image_id
    (extract_multiple_choice_questions reset [planet_runs_by_line] []) = None.
Proof.
  apply (mc_nothing_without_header reset [planet_runs_by_line] []).
  intros para Hpara.
  apply elem_of_cons in Hpara as [->|Hpara]; [reflexivity|].
  inversion Hpara.
Defined.

Lemma first_some_elem {A B} (f : A -> option B) (l : list A) (y : B) :
  first_some f l = Some y -> exists x, x ∈ l /\ f x = Some y.
Proof.
  induction l as [|a l IH]; simpl; [discriminate|].
  destruct (f a) eqn:Ha.
  - intros [= ->]. exists a. split; [left|assumption].
  - intros H. destruct (IH H) as (x & Hx & Hfx). exists x.
    split; [right|]; assumption.
Qed.

Lemma find_image_is_embed (doc : Document) (para_index : Z) (e : str) :
  find_image_near_paragraph doc para_index = Some e -> embed_of doc e.
Proof.
  unfold find_image_near_paragraph. intros H.
  apply first_some_elem in H as (idx & _ & H).
  destruct (doc !! Z.to_nat idx) as [para|] eqn:Hpara; [|discriminate].
  unfold para_embed in H. destruct (has_pic para) eqn:Hpic; [|discriminate].
  apply first_some_elem in H as (run & Hrun & H).
  unfold run_embed in H.
  destruct (run_blips run) as [|[embed|] blips] eqn:Hblips; try discriminate.
  destruct embed as [|c embed]; [discriminate|]. injection H as <-.
  split; [discriminate|]. exists para, run. repeat split; try assumption.
  - apply list_elem_of_lookup_2 in Hpara. assumption.
  - rewrite Hblips. reflexivity.
Qed.

Lemma mc_step_images_ok (doc : Document) (st : mc_state)
    (ip : nat * Paragraph) :
  mc_images_ok doc st -> mc_images_ok doc (mc_step doc st ip).
Proof.
  intros Hok. pose proof Hok as (Hsec & Hout & Hshared & Hcount).
  destruct ip as [idx para]. unfold mc_step.
  destruct (negb (nonempty _)); [exact Hok|].
  destruct (mc_section_header _).
  { split; [|split; [|split]];
      cbn [section_image_id mc_out mc_shared questions_in_current_section].
    - intros e. apply find_image_is_embed.
    - exact Hout.
    - exact Hshared.
    - exact Hcount. }
  destruct (mc_section_end _ && _).
  { split; [|split; [|split]];
      cbn [section_image_id mc_out mc_shared questions_in_current_section].
    - exact Hsec.
    - exact Hout.
    - intros e.
      destruct (truthy_str _ && truthy_list _) eqn:Hset; [|apply Hshared].
      intros He. split; [apply Hsec; assumption|].
      apply andb_true_iff in Hset as [_ Hq]. apply Hcount.
      destruct (questions_in_current_section st); discriminate.
    - exact Hcount. }
  destruct (negb _); [exact Hok|].
  destruct (re_match false question_pattern _); [|exact Hok].
  destruct (1 <? _); [|exact Hok].
  destruct (truthy_list _); [|exact Hok].
  split; [|split; [|split]];
    cbn [section_image_id mc_out mc_shared questions_in_current_section].
  - exact Hsec.
  - intros q e Hq He. apply elem_of_app in Hq as [Hq|Hq]; [eauto|].
    apply list_elem_of_singleton in Hq as ->. cbn [mc_image_id] in He.
    destruct (truthy_str _); [|auto].
    apply find_image_is_embed in He. assumption.
  - intros e He. split; [apply Hshared; assumption|].
    intros Hnil. apply app_eq_nil in Hnil as [_ Hnil]. discriminate.
  - intros _ Hnil. apply app_eq_nil in Hnil as [_ Hnil]. discriminate.
Qed.

Lemma mc_fold_images_ok (doc : Document) (l : list (nat * Paragraph))
    (st : mc_state) :
  mc_images_ok doc st -> mc_images_ok doc (fold_left (mc_step doc) l st).
Proof.
  revert st. induction l as [|ip l IH]; intros st H; [assumption|].
  cbn [fold_left]. apply IH. apply mc_step_images_ok. assumption.
Qed.

Lemma mc_initial_images_ok (doc : Document) :
  mc_images_ok doc
    {| in_mc_section := false; section_image_id := None;
       questions_in_current_section := []; mc_out := []; mc_shared := None |}.
Proof.
  split; [|split; [|split]];
    cbn [section_image_id mc_out mc_shared questions_in_current_section].
  - discriminate.
  - intros q e Hq. inversion Hq.
  - discriminate.
  - congruence.
Qed.

(** X9: the image id of a question, and the shared image id, when there is
    one, is an embed id of the document: it is not empty and is carried by
    the first blip of a run in a paragraph that holds a picture. *)
Theorem mc_image_ids_come_from_document (doc : Document)
    (images_info : list (str * ImageInfo)) :
  let after := extract_multiple_choice_questions reset doc images_info in
  (forall q e,
     q ∈ multiple_choice_questions after -> mc_image_id q = Some e ->
     embed_of doc e) /\
  (forall e, shared_image_id after = Some e -> embed_of doc e).
Proof.
  unfold extract_multiple_choice_questions.
  cbn [multiple_choice_questions shared_image_id reset].
  destruct (mc_fold_images_ok doc (enumerate doc) _ (mc_initial_images_ok doc))
    as (_ & Hout & Hshared & _).
  split; [exact Hout|]. intros e He. apply Hshared. assumption.
Qed.

(** X10: the multiple-choice pass, started on a fresh converter, sets
    [shared_image_id] only if it has recorded a question. *)
Theorem shared_image_needs_question (doc : Document)
    (images_info : list (str * ImageInfo)) :
  let after := extract_multiple_choice_questions reset doc images_info in
  shared_image_id after <> None -> multiple_choice_questions after <> [].
Proof.
  unfold extract_multiple_choice_questions.
  cbn [multiple_choice_questions shared_image_id reset].
  destruct (mc_fold_images_ok doc (enumerate doc) _ (mc_initial_images_ok doc))
    as (_ & _ & Hshared & _).
  intros Hsome. destruct (mc_shared _) as [e|] eqn:He; [|congruence].
  apply (Hshared e eq_refl).
Qed.

Lemma illustrated_quiz_result :
  extract_multiple_choice_questions reset illustrated_quiz [] =
  {| multiple_choice_questions := [illustrated_question];
     true_false_questions := [];
     crossword_puzzles := [];
     images := [];
     shared_image_id := Some (L "rId7") |}.
Proof. vm_compute. reflexivity. Qed.

Lemma mc_image_ids_come_from_document_witness :
  embed_of illustrated_quiz (L "rId7").
Proof.
  apply (proj1 (mc_image_ids_come_from_document illustrated_quiz [])
           illustrated_question (L "rId7")).
  - rewrite illustrated_quiz_result. left.
  - reflexivity.
Defined.

Lemma shared_image_needs_question_witness :
  multiple_choice_questions
    (extract_multiple_choice_questions reset illustrated_quiz []) <> [].
Proof.
  apply (shared_image_needs_question illustrated_quiz []).
  rewrite illustrated_quiz_result. discriminate.
Defined.

Lemma lstrip_char_head (d : ascii) (s : str) :
  match lstrip_char d s with
  | c :: _ => c <> d
  | [] => True
  end.
Proof.
  induction s as [|c s IH]; simpl; [exact I|].
  destruct (Ascii.eqb c d) eqn:Hc; [exact IH|].
  apply Ascii.eqb_neq. exact Hc.
Qed.

Lemma rstrip_char_no_final (d : ascii) (s t : str) :
  rstrip_char d s <> t ++ [d].
Proof.
  unfold rstrip_char. intros H.
  apply (f_equal (@rev ascii)) in H.
  rewrite rev_involutive, rev_app_distr in H. cbn [rev app] in H.
  pose proof (lstrip_char_head d (rev s)) as Hhead. rewrite H in Hhead.
  contradiction.
Qed.

Lemma add_option_no_final_stop (runs_map : gmap str (list Run))
    (options : list MCOption) (line : str) :
  Forall (fun o => no_final_stop (opt_text o)) options ->
  Forall (fun o => no_final_stop (opt_text o))
    (add_option runs_map options line).
Proof.
  intros H. unfold add_option.
  destruct (re_match false option_pattern line); [|assumption].
  apply Forall_app. split; [assumption|]. apply Forall_singleton.
  cbn [opt_text]. intros t. apply rstrip_char_no_final.
Qed.

Lemma extract_options_no_final_stop (lines : list str) (para : Paragraph) :
  Forall (fun o => no_final_stop (opt_text o)) (extract_options lines para).
Proof.
  unfold extract_options.
  generalize (map_runs_to_options lines para). intros runs_map.
  assert (H : Forall (fun o => no_final_stop (opt_text o)) []) by constructor.
  revert H. generalize (@nil MCOption).
  induction (drop 1 lines) as [|line rest IH]; intros options H;
    [assumption|].
  cbn [fold_left]. apply IH. apply add_option_no_final_stop. assumption.
Qed.

Lemma mc_step_well_formed (doc : Document) (st : mc_state)
    (ip : nat * Paragraph) :
  Forall question_well_formed (mc_out st) ->
  Forall question_well_formed (mc_out (mc_step doc st ip)).
Proof.
  intros Hst. destruct ip as [idx para]. unfold mc_step.
  destruct (negb (nonempty _)); [assumption|].
  destruct (mc_section_header _); [assumption|].
  destruct (mc_section_end _ && _); [assumption|].
  destruct (negb _); [assumption|].
  destruct (re_match false question_pattern _) as [m|]; [|assumption].
  destruct (1 <? _); [|assumption].
  destruct (truthy_list _) eqn:Hopts; [|assumption].
  cbn [mc_out]. apply Forall_app. split; [assumption|].
  apply Forall_singleton. split; [|split]; cbn [mc_question mc_options].
  - eexists. reflexivity.
  - intros Hnil. rewrite Hnil in Hopts. discriminate.
  - apply extract_options_no_final_stop.
Qed.

Lemma mc_fold_well_formed (doc : Document) (l : list (nat * Paragraph))
    (st : mc_state) :
  Forall question_well_formed (mc_out st) ->
  Forall question_well_formed (mc_out (fold_left (mc_step doc) l st)).
Proof.
  revert st. induction l as [|ip l IH]; intros st H; [assumption|].
  cbn [fold_left]. apply IH. apply mc_step_well_formed. assumption.
Qed.

(** X11: every question of the multiple-choice pass has a text that ends in
    a question mark and at least one option, and no option text ends in a
    full stop. *)
Theorem mc_questions_well_formed (doc : Document) :
  Forall question_well_formed (mc_found doc).
Proof.
  unfold mc_found, extract_multiple_choice_questions.
  cbn [multiple_choice_questions]. apply mc_fold_well_formed. constructor.
Qed.

(** ** The crossword pass *)

Lemma split_ws_aux_words (Q : ascii -> Prop) (cur s : str) :
  Forall Q cur -> no_space cur -> Forall Q s ->
  Forall (fun w => (w <> [] /\ no_space w) /\ Forall Q w) (split_ws_aux cur s).
Proof.
  revert cur. induction s as [|c s IH]; intros cur Hcur Hns Hs; simpl.
  - destruct cur as [|a cur]; [constructor|].
    apply Forall_singleton. repeat split.
    + intros H. apply (f_equal (@length ascii)) in H.
      rewrite length_rev in H. discriminate.
    + apply Forall_rev. exact Hns.
    + apply Forall_rev. exact Hcur.
  - inversion Hs as [|? ? Hc Hs']; subst.
    destruct (is_space c) eqn:Hsp.
    + destruct cur as [|a cur].
      * apply IH; [constructor|constructor|assumption].
      * constructor; [|apply IH; [constructor|constructor|assumption]].
        repeat split.
        -- intros H. apply (f_equal (@length ascii)) in H.
           rewrite length_rev in H. discriminate.
        -- apply Forall_rev. exact Hns.
        -- apply Forall_rev. exact Hcur.
    + apply IH; [constructor; assumption|constructor; assumption|assumption].
Qed.

Lemma join_spaces (Q : ascii -> Prop) (words : list str) :
  Q " "%char -> Forall (Forall Q) words -> Forall Q (join (L " ") words).
Proof.
  intros Hsp. induction 1 as [|w ws Hw Hws IH]; [constructor|].
  cbn [join]. destruct ws as [|w' ws]; [assumption|].
  apply Forall_app. split; [assumption|].
  apply Forall_app. split; [|assumption].
  apply Forall_singleton. assumption.
Qed.

Lemma collapse_spec (Q : ascii -> Prop) (s : str) :
  Q " "%char -> Forall Q s -> single_spaced (collapse s) /\ Forall Q (collapse s).
Proof.
  intros Hsp Hs. unfold collapse, split_ws.
  pose proof (split_ws_aux_words Q [] s (List.Forall_nil _) (List.Forall_nil _) Hs) as H.
  apply Forall_and in H as [Hwords HQ]. split.
  - exists (split_ws_aux [] s). split; [reflexivity|assumption].
  - apply join_spaces; assumption.
Qed.

Lemma upper_char_not_small (c : ascii) : is_lower_az (upper_char c) = false.
Proof. destruct c as [[] [] [] [] [] [] [] []]; reflexivity. Qed.

Lemma upper_no_small_letter (s : str) : no_small_letter (upper s).
Proof.
  unfold no_small_letter, upper. induction s as [|c s IH]; [constructor|].
  cbn [flat_map]. apply Forall_app. split; [|assumption].
  destruct (code c =? 223)%N.
  - repeat constructor.
  - apply Forall_singleton. apply upper_char_not_small.
Qed.

Lemma caps_char_not_small (c : ascii) :
  caps_char c = true -> is_lower_az c = false.
Proof. destruct c as [[] [] [] [] [] [] [] []]; first [reflexivity|discriminate]. Qed.

Lemma upper_az_not_small (c : ascii) :
  is_upper_az c = true -> is_lower_az c = false.
Proof. destruct c as [[] [] [] [] [] [] [] []]; first [reflexivity|discriminate]. Qed.

Lemma all_caps_no_small_letter (s : str) :
  matches (re_match false all_caps_pattern s) = true -> no_small_letter s.
Proof.
  intros H. apply all_caps_spec in H as (c & cs & -> & Hc & _ & Hcs).
  constructor; [apply upper_az_not_small; assumption|].
  eapply Forall_impl; [exact Hcs|]. apply caps_char_not_small.
Qed.

Lemma collapse_answer (s : str) :
  no_small_letter s ->
  single_spaced (collapse s) /\ no_small_letter (collapse s).
Proof. intros H. apply collapse_spec; [reflexivity|assumption]. Qed.

Lemma is_prefix_app (a b : str) : is_prefix a (a ++ b) = true.
Proof.
  induction a as [|c a IH]; [reflexivity|]. simpl.
  rewrite IH, andb_true_r. apply Ascii.eqb_refl.
Qed.

Lemma flush_with (Q A : str -> Prop) (l : list Crossword)
    (cur : option Crossword) :
  Forall (clues_with Q A) l ->
  (forall cw, cur = Some cw -> clues_with Q A cw) ->
  Forall (clues_with Q A) (if has_clues cur then l ++ option_list cur else l).
Proof.
  intros Hl Hcur. destruct (has_clues cur); [|assumption].
  apply Forall_app. split; [assumption|].
  destruct cur as [cw|]; [|constructor].
  apply Forall_singleton. apply Hcur. reflexivity.
Qed.

Lemma append_clues_with (Q A : str -> Prop) (cur : option Crossword)
    (new : list CrosswordClue) (cw : Crossword) :
  (forall cw, cur = Some cw -> clues_with Q A cw) ->
  Forall (fun c => Q (clue_orientation c) /\ A (clue_answer c)) new ->
  append_clues cur new = Some cw -> clues_with Q A cw.
Proof.
  intros Hcur Hnew. destruct cur as [cw0|]; [|discriminate].
  intros [= <-]. unfold clues_with. cbn [cw_clues].
  apply Forall_app. split; [apply Hcur; reflexivity|assumption].
Qed.

Lemma inline_clues_with (Q A : str -> Prop) (orientation : str)
    (para : Paragraph) (rest_of_text : str) :
  Q orientation ->
  (forall s, A (collapse (upper s))) ->
  Forall (fun c => Q (clue_orientation c) /\ A (clue_answer c))
    (inline_clues orientation para rest_of_text).
Proof.
  intros Ho Hupper. unfold inline_clues.
  destruct (nonempty rest_of_text); [|constructor].
  apply Forall_flat_map. apply Forall_forall. intros line _.
  destruct (re_match false inline_clue_pattern _); [|constructor].
  apply Forall_map. apply Forall_map. apply Forall_forall. intros run _.
  cbv beta. split; [assumption|apply Hupper].
Qed.

(** One iteration keeps [cw_state_with Q A], when [Q] holds of the
    orientation the paragraph may set and [A] of the answers the three clue
    forms write. *)
Lemma cw_body_with (Q A : str -> Prop) (doc : Document) (st : cw_state)
    (para : Paragraph) :
  (forall orientation_match,
     re_match true orientation_pattern (strip (para_text para))
       = Some orientation_match ->
     Q (lower (group orientation_match 1))) ->
  (forall s, A (collapse (upper s))) ->
  (forall s, matches (re_match false all_caps_pattern s) = true ->
             A (collapse s)) ->
  cw_state_with Q A st -> cw_state_with Q A (cw_body doc st para).
Proof.
  intros Hset Hupper Hcaps Hok. pose proof Hok as (Hdone & Hcur & Hori).
  unfold cw_body, advance.
  destruct (negb (nonempty _)); [exact Hok|].
  destruct (re_search true crossword_header_pattern _) as [hm|].
  { split; [|split]; cbn [crosswords current_crossword current_orientation].
    - apply flush_with; assumption.
    - intros cw [= <-]. constructor.
    - discriminate. }
  destruct (cw_section_end _).
  { split; [|split]; cbn [crosswords current_crossword current_orientation].
    - apply flush_with; assumption.
    - destruct (has_clues _); [discriminate|assumption].
    - assumption. }
  destruct (negb (in_crossword_section st) || _); [exact Hok|].
  destruct (matches (re_match true clues_marker_pattern _)); [exact Hok|].
  destruct (re_match true orientation_pattern _) as [om|] eqn:Hom.
  { specialize (Hset om eq_refl).
    split; [|split]; cbn [crosswords current_crossword current_orientation].
    - assumption.
    - intros cw. apply append_clues_with; [assumption|].
      apply inline_clues_with; assumption.
    - intros o [= <-] _. assumption. }
  destruct (negb (collecting_clues st) || _) eqn:Hcollect; [exact Hok|].
  apply orb_false_iff in Hcollect as [_ Hcollect].
  apply negb_false_iff in Hcollect.
  assert (Hword : Q (default [] (current_orientation st))).
  { destruct (current_orientation st) as [o|]; [|discriminate].
    apply Hori; [reflexivity|]. destruct o; [discriminate|discriminate]. }
  destruct (re_match false numbered_clue_pattern _) as [cm|].
  - destruct (doc !! (i st + 1)) as [next_para|]; [|exact Hok].
    destruct (matches (re_match false all_caps_pattern _)) eqn:Hmatch;
      [|exact Hok].
    split; [|split]; cbn [crosswords current_crossword current_orientation].
    + assumption.
    + intros cw. apply append_clues_with; [assumption|].
      apply Forall_singleton. split; [assumption|]. cbn [clue_answer].
      apply Hcaps. assumption.
    + assumption.
  - destruct (contains _ _ && contains _ _); [|exact Hok].
    destruct (doc !! (i st + 1)) as [next_para|]; [|exact Hok].
    destruct (map _ _) as [|first_bold bold_parts]; [exact Hok|].
    destruct (matches (re_match false all_caps_pattern _)) eqn:Hmatch;
      [|exact Hok].
    split; [|split]; cbn [crosswords current_crossword current_orientation].
    + assumption.
    + intros cw. apply append_clues_with; [assumption|].
      apply Forall_singleton. split; [assumption|]. cbn [clue_answer].
      apply Hcaps. assumption.
    + assumption.
Qed.

Lemma cw_loop_keeps (P : cw_state -> Prop) (doc : Document) (fuel : nat)
    (st : cw_state) :
  (forall st para, P st -> doc !! i st = Some para -> P (cw_body doc st para)) ->
  length doc - i st <= fuel -> P st ->
  exists final, cw_loop fuel doc st = Some final /\ P final.
Proof.
  intros Hbody. revert st.
  induction fuel as [|fuel IH]; intros st Hfuel Hst; simpl.
  - destruct (doc !! i st) eqn:Hpara; [|eauto].
    apply lookup_lt_Some in Hpara. lia.
  - destruct (doc !! i st) as [para|] eqn:Hpara; [|eauto].
    apply IH.
    + pose proof (cw_body_advances doc st para). lia.
    + apply Hbody; assumption.
Qed.

Lemma cw_initial_with (Q A : str -> Prop) : cw_state_with Q A cw_initial.
Proof. split; [constructor|]. split; discriminate. Qed.

(** The pass returns, and leaves crosswords with [clues_with Q A]. *)
Lemma crossword_pass_with (Q A : str -> Prop) (self : Converter)
    (doc : Document) :
  (forall para orientation_match,
     para ∈ doc ->
     re_match true orientation_pattern (strip (para_text para))
       = Some orientation_match ->
     Q (lower (group orientation_match 1))) ->
  (forall s, A (collapse (upper s))) ->
  (forall s, matches (re_match false all_caps_pattern s) = true ->
             A (collapse s)) ->
  exists after,
    extract_crossword_puzzles self doc = Some after /\
    Forall (clues_with Q A) (crossword_puzzles after).
Proof.
  intros Hset Hupper Hcaps. unfold extract_crossword_puzzles.
  destruct (cw_loop_keeps (cw_state_with Q A) doc (length doc) cw_initial)
    as (final & -> & Hdone & Hcur & _).
  - intros st para Hst Hpara. apply cw_body_with; try assumption.
    intros m. apply Hset. apply list_elem_of_lookup_2 in Hpara. assumption.
  - cbn [i cw_initial]. lia.
  - apply cw_initial_with.
  - eexists. split; [reflexivity|]. cbn [crossword_puzzles]. unfold cw_finish.
    apply flush_with; assumption.
Qed.

(** X12: [extract_crossword_puzzles] returns, and the orientation of every
    clue of every crossword it leaves is the first word ("Across" or "Down",
    matched without regard to case) of a paragraph of the document, in lower
    case. *)
Theorem clue_orientations_come_from_document (self : Converter)
    (doc : Document) :
  exists after,
    extract_crossword_puzzles self doc = Some after /\
    Forall (fun cw =>
              Forall (fun c => orientation_of doc (clue_orientation c))
                (cw_clues cw))
      (crossword_puzzles after).
Proof.
  destruct (crossword_pass_with (orientation_of doc) (fun _ => True) self doc)
    as (after & Hafter & Hall); try (intros; exact I).
  - intros para m Hpara Hm. exists para, m. repeat split; assumption.
  - exists after. split; [assumption|].
    eapply Forall_impl; [exact Hall|]. intros cw Hclues.
    eapply Forall_impl; [exact Hclues|]. intros c Hc. apply Hc.
Qed.

(** X13: every answer of every crossword is made of words without white
    space, joined by single spaces, and holds no letter from a to z. *)
Theorem answers_are_normalised (self : Converter) (doc : Document) :
  exists after,
    extract_crossword_puzzles self doc = Some after /\
    Forall (fun cw =>
              Forall (fun c => single_spaced (clue_answer c) /\
                               no_small_letter (clue_answer c))
                (cw_clues cw))
      (crossword_puzzles after).
Proof.
  destruct (crossword_pass_with (fun _ => True)
              (fun a => single_spaced a /\ no_small_letter a) self doc)
    as (after & Hafter & Hall).
  - intros; exact I.
  - intros s. apply collapse_answer. apply upper_no_small_letter.
  - intros s Hs. apply collapse_answer. apply all_caps_no_small_letter.
    assumption.
  - exists after. split; [assumption|].
    eapply Forall_impl; [exact Hall|]. intros cw Hclues.
    eapply Forall_impl; [exact Hclues|]. intros c Hc. apply Hc.
Qed.

Lemma cw_body_nothing_yet (doc : Document) (st : cw_state) (para : Paragraph) :
  re_search true crossword_header_pattern (strip (para_text para)) = None ->
  cw_nothing_yet st -> cw_nothing_yet (cw_body doc st para).
Proof.
  intros Hheader Hst. pose proof Hst as [Hdone Hcur].
  unfold cw_body, advance. rewrite Hheader.
  destruct (negb (nonempty _)); [exact Hst|].
  destruct (cw_section_end _).
  { rewrite Hcur. cbn [has_clues]. split; [exact Hdone|reflexivity]. }
  replace (bool_decide (is_Some (current_crossword st))) with false.
  - rewrite orb_true_r. exact Hst.
  - symmetry. apply bool_decide_eq_false_2. rewrite Hcur.
    intros [x Hx]. discriminate.
Qed.

(** X14: if no paragraph of the document matches the crossword header, the
    pass returns with an empty list of crosswords, whatever clues the
    document holds. *)
Theorem no_crossword_without_header (self : Converter) (doc : Document) :
  (forall para, para ∈ doc ->
     re_search true crossword_header_pattern (strip (para_text para)) = None) ->
  exists after,
    extract_crossword_puzzles self doc = Some after /\
    crossword_puzzles after = [].
Proof.
  intros Hdoc. unfold extract_crossword_puzzles.
  destruct (cw_loop_keeps cw_nothing_yet doc (length doc) cw_initial)
    as (final & -> & Hdone & Hcur).
  - intros st para Hst Hpara. apply cw_body_nothing_yet; [|assumption].
    apply Hdoc. apply list_elem_of_lookup_2 in Hpara. assumption.
  - cbn [i cw_initial]. lia.
  - split; reflexivity.
  - eexists. split; [reflexivity|]. cbn [crossword_puzzles]. unfold cw_finish.
    rewrite Hcur, Hdone. reflexivity.
Qed.

Lemma no_crossword_without_header_witness :
  exists after,
    extract_crossword_puzzles reset clues_without_header = Some after /\
    crossword_puzzles after = [].
Proof.
  apply (no_crossword_without_header reset clues_without_header).
  intros para Hpara. unfold clues_without_header in Hpara.
  repeat (apply elem_of_cons in Hpara as [->|Hpara]; [vm_compute; reflexivity|]).
  inversion Hpara.
Defined.

(** ** The run of [process_docx] *)

Lemma str_of_nat_inj (n m : nat) : str_of_nat n = str_of_nat m -> n = m.
Proof.
  unfold str_of_nat, L. intros H.
  apply (f_equal string_of_list_ascii) in H.
  rewrite !string_of_list_ascii_of_string in H.
  apply (f_equal DecimalString.NilEmpty.uint_of_string) in H.
  rewrite !DecimalString.NilEmpty.usu in H. injection H as H.
  apply (f_equal Nat.of_uint) in H.
  rewrite !DecimalNat.Unsigned.of_to in H. exact H.
Qed.

Lemma file_name_inj (kind : string) (n m : nat) :
  file_name kind n = file_name kind m -> n = m.
Proof.
  unfold file_name. intros H. apply app_inv_head in H.
  apply app_inv_tail in H. apply str_of_nat_inj. exact H.
Qed.

Lemma enumerate_names {A B} (name : nat -> str) (g : nat -> A -> B)
    (start : nat) (l : list A) :
  map fst (map (fun '(i, x) => (name i, g i x)) (enumerate_from start l))
  = map name (seq start (length l)).
Proof.
  unfold enumerate_from. revert start.
  induction l as [|x l IH]; intros start; [reflexivity|].
  cbn [length seq combine map fst]. rewrite IH. reflexivity.
Qed.

Lemma enumerate_entries {A B} (name : nat -> str) (g : nat -> A -> B)
    (start : nat) (l : list A) (n : str) (j : B) :
  (n, j) ∈ map (fun '(i, x) => (name i, g i x)) (enumerate_from start l) ->
  exists i x, x ∈ l /\ n = name i /\ j = g i x.
Proof.
  unfold enumerate_from. revert start.
  induction l as [|x l IH]; intros start H.
  - inversion H.
  - cbn [length seq combine map] in H. apply elem_of_cons in H as [H|H].
    + injection H as -> ->. exists start, x. split; [left|]. split; reflexivity.
    + destruct (IH _ H) as (i & y & Hy & Hn & Hj). exists i, y.
      split; [right; assumption|]. split; assumption.
Qed.

Lemma names_distinct (kind : string) (n : nat) :
  NoDup (map (file_name kind) (seq 1 n)).
Proof.
  apply NoDup_fmap_2; [|apply NoDup_seq].
  intros a b. apply file_name_inj.
Qed.

Lemma name_of_kind (kind : string) (l : list nat) (n : str) :
  n ∈ map (file_name kind) l -> is_prefix (L kind) n = true.
Proof.
  intros H. apply list_elem_of_fmap in H as (i & -> & _).
  apply is_prefix_app.
Qed.

Lemma first_letter (a b : str) (c d : ascii) :
  is_prefix (c :: a) (d :: b) = true -> c = d.
Proof.
  simpl. intros H. apply andb_true_iff in H as [H _].
  apply Ascii.eqb_eq. assumption.
Qed.

Lemma crossword_pass (self : Converter) (doc : Document) :
  exists final,
    extract_crossword_puzzles self doc =
      Some {| multiple_choice_questions := multiple_choice_questions self;
              true_false_questions := true_false_questions self;
              crossword_puzzles := cw_finish final;
              images := images self;
              shared_image_id := shared_image_id self |} /\
    cw_found doc = cw_finish final /\
    all_have_clues (cw_finish final).
Proof.
  destruct (cw_loop_keeps (fun st => all_have_clues (crosswords st))
              doc (length doc) cw_initial)
    as (final & Hfinal & Hclues).
  - intros st para Hst _. apply cw_body_keeps_clues. assumption.
  - cbn [i cw_initial]. lia.
  - constructor.
  - exists final. unfold cw_found, extract_crossword_puzzles.
    rewrite Hfinal. repeat split.
    unfold cw_finish. apply flush_keeps_clues. assumption.
Qed.

Lemma tf_pass_list (self : Converter) (doc : Document) :
  true_false_questions (extract_true_false_questions self doc) =
  true_false_questions self ++ tf_found doc.
Proof.
  unfold tf_found, extract_true_false_questions.
  cbn [true_false_questions reset].
  pose proof (tf_fold_with_older (true_false_questions self) doc
                {| in_true_false_section := false; tf_out := [] |}) as H.
  unfold tf_with_older at 1 in H. cbn [in_true_false_section tf_out] in H.
  rewrite app_nil_r in H. rewrite H. reflexivity.
Qed.

Lemma mc_pass_list (self : Converter) (doc : Document)
    (images_info : list (str * ImageInfo)) :
  multiple_choice_questions
    (extract_multiple_choice_questions self doc images_info) =
  multiple_choice_questions self ++ mc_found doc.
Proof.
  unfold mc_found, extract_multiple_choice_questions.
  cbn [multiple_choice_questions reset shared_image_id].
  apply (mc_fold_same_scan doc (multiple_choice_questions self)).
  repeat split; cbn [mc_out]. rewrite app_nil_r. reflexivity.
Qed.

(** X15: [process_docx] returns on every document.  It leaves the list of
    multiple-choice questions and the list of true/false questions it found,
    each followed by the questions of the document; the crosswords of the
    document, in place of the ones it found; and the images of the
    package. *)
Theorem process_docx_lists (self : Converter) (doc : Document)
    (rels : list (str * Relationship)) (uuid4 : nat -> str) :
  exists after written,
    process_docx self doc rels uuid4 = Some (after, written) /\
    multiple_choice_questions after =
      multiple_choice_questions self ++ mc_found doc /\
    true_false_questions after = true_false_questions self ++ tf_found doc /\
    crossword_puzzles after = cw_found doc /\
    images after = extract_images_from_docx rels.
Proof.
  unfold process_docx.
  destruct (crossword_pass
              (extract_true_false_questions
                 (extract_multiple_choice_questions self doc
                    (extract_images_from_docx rels)) doc) doc)
    as (final & -> & Hfound & _).
  eexists. eexists. split; [reflexivity|].
  cbn [multiple_choice_questions true_false_questions crossword_puzzles images].
  split; [|split; [|split]].
  - apply mc_pass_list.
  - rewrite tf_pass_list. reflexivity.
  - symmetry. assumption.
  - reflexivity.
Qed.

(** X16: the JSON files [process_docx] writes for one document have
    pairwise distinct names, and there is one file for each question and
    each crossword of the three lists. *)
Theorem json_file_names_distinct (self : Converter) (doc : Document)
    (rels : list (str * Relationship)) (uuid4 : nat -> str) :
  exists after written,
    process_docx self doc rels uuid4 = Some (after, written) /\
    NoDup (map fst (json_files written)) /\
    length (json_files written) =
      length (multiple_choice_questions after)
      + length (true_false_questions after)
      + length (crossword_puzzles after).
Proof.
  unfold process_docx.
  destruct (crossword_pass
              (extract_true_false_questions
                 (extract_multiple_choice_questions self doc
                    (extract_images_from_docx rels)) doc) doc)
    as (final & -> & _).
  eexists. eexists. split; [reflexivity|].
  unfold process_docx_files. cbn [json_files]. split.
  - rewrite !map_app.
    rewrite (enumerate_names (file_name "question_")).
    rewrite (enumerate_names (file_name "true_false_")
               (fun _ tf_data => create_h5p_true_false_json tf_data)).
    rewrite (enumerate_names (file_name "crossword_")
               (fun _ crossword_data => create_h5p_crossword_json crossword_data)).
    apply NoDup_app. split; [apply names_distinct|]. split.
    + intros n Hq Hrest. apply name_of_kind in Hq.
      apply elem_of_app in Hrest as [Hn|Hn]; apply name_of_kind in Hn;
        destruct n as [|c n]; try discriminate;
        apply first_letter in Hq; apply first_letter in Hn; congruence.
    + apply NoDup_app. split; [apply names_distinct|].
      split; [|apply names_distinct].
      intros n Ht Hc. apply name_of_kind in Ht. apply name_of_kind in Hc.
      destruct n as [|c n]; try discriminate.
      apply first_letter in Ht. apply first_letter in Hc. congruence.
  - rewrite !length_app, !length_map. unfold enumerate_from.
    rewrite !length_combine, !length_seq. lia.
Qed.

Lemma json_files_cases (self : Converter) (uuid4 : nat -> str) (n : str)
    (j : json) :
  (n, j) ∈ json_files (process_docx_files self uuid4) ->
  (exists i q, q ∈ multiple_choice_questions self /\
               n = file_name "question_" i /\
               j = create_h5p_question_json self q (uuid4 i)) \/
  (exists i q, q ∈ true_false_questions self /\
               n = file_name "true_false_" i /\
               j = create_h5p_true_false_json q) \/
  (exists i cw, cw ∈ crossword_puzzles self /\
                n = file_name "crossword_" i /\
                j = create_h5p_crossword_json cw).
Proof.
  unfold process_docx_files. cbn [json_files]. intros H.
  apply elem_of_app in H as [H|H]; [|apply elem_of_app in H as [H|H]].
  - left.
    apply (enumerate_entries (file_name "question_")
             (fun i q => create_h5p_question_json self q (uuid4 i))) in H.
    exact H.
  - right. left.
    apply (enumerate_entries (file_name "true_false_")
             (fun _ q => create_h5p_true_false_json q)) in H.
    exact H.
  - right. right.
    apply (enumerate_entries (file_name "crossword_")
             (fun _ cw => create_h5p_crossword_json cw)) in H.
    exact H.
Qed.

Lemma other_kind (kind kind' : string) (i : nat) (c c' : ascii)
    (rest rest' : string) :
  kind = String c rest -> kind' = String c' rest' -> c <> c' ->
  is_prefix (L kind) (file_name kind' i) = false.
Proof.
  intros -> -> Hc. unfold file_name. cbn [L list_ascii_of_string app is_prefix].
  destruct (Ascii.eqb c c') eqn:Heq; [|reflexivity].
  apply Ascii.eqb_eq in Heq. contradiction.
Qed.

(** X17: on a fresh converter, every file whose name starts with
    "question_" is written for a question of the document: it holds the
    text of the question between paragraph tags and one answer for each
    option, in the order of the options, and there is at least one. *)
Theorem question_files_hold_answers (doc : Document)
    (rels : list (str * Relationship)) (uuid4 : nat -> str) :
  exists after written,
    process_docx reset doc rels uuid4 = Some (after, written) /\
    forall name j,
      (name, j) ∈ json_files written ->
      is_prefix (L "question_") name = true ->
      exists q,
        q ∈ mc_found doc /\
        jget "question" j =
          Some (JStr (L "<p>" ++ mc_question q ++ L "</p>" ++ nl)) /\
        jget "answers" j = Some (JList (map answer_json (mc_options q))) /\
        mc_options q <> [].
Proof.
  unfold process_docx.
  destruct (crossword_pass
              (extract_true_false_questions
                 (extract_multiple_choice_questions reset doc
                    (extract_images_from_docx rels)) doc) doc)
    as (final & -> & _).
  eexists. eexists. split; [reflexivity|].
  intros name j Hfile Hname.
  apply json_files_cases in Hfile
    as [(i & q & Hq & -> & ->)|[(i & q & _ & -> & _)|(i & cw & _ & -> & _)]].
  - cbn [multiple_choice_questions extract_true_false_questions] in Hq.
    rewrite mc_pass_list in Hq. cbn [multiple_choice_questions reset app] in Hq.
    exists q. split; [assumption|].
    assert (Hall : Forall question_well_formed (mc_found doc)).
    { unfold mc_found, extract_multiple_choice_questions.
      cbn [multiple_choice_questions]. apply mc_fold_well_formed. constructor. }
    rewrite Forall_forall in Hall. destruct (Hall q Hq) as (_ & Hopts & _).
    unfold create_h5p_question_json.
    destruct (if truthy_str (mc_image_id q) then _ else None);
      repeat split; assumption.
  - rewrite (other_kind _ _ i "q" "t" _ _ eq_refl eq_refl) in Hname;
      [discriminate|discriminate].
  - rewrite (other_kind _ _ i "q" "c" _ _ eq_refl eq_refl) in Hname;
      [discriminate|discriminate].
Qed.

(** X18: on a fresh converter, every file whose name starts with
    "true_false_" is written for a question of the document: it has the
    answer of the question under "correct" and the text of the question,
    between paragraph tags, under "question", and neither is empty. *)
Theorem true_false_files_hold_questions (doc : Document)
    (rels : list (str * Relationship)) (uuid4 : nat -> str) :
  exists after written,
    process_docx reset doc rels uuid4 = Some (after, written) /\
    forall name j,
      (name, j) ∈ json_files written ->
      is_prefix (L "true_false_") name = true ->
      exists q,
        q ∈ tf_found doc /\
        jget "correct" j = Some (JStr (tf_correct_answer q)) /\
        jget "question" j =
          Some (JStr (L "<p>" ++ tf_question q ++ L "</p>" ++ nl)) /\
        tf_question q <> [] /\ tf_correct_answer q <> [].
Proof.
  unfold process_docx.
  destruct (crossword_pass
              (extract_true_false_questions
                 (extract_multiple_choice_questions reset doc
                    (extract_images_from_docx rels)) doc) doc)
    as (final & -> & _).
  eexists. eexists. split; [reflexivity|].
  intros name j Hfile Hname.
  apply json_files_cases in Hfile
    as [(i & q & _ & -> & _)|[(i & q & Hq & -> & ->)|(i & cw & _ & -> & _)]].
  - rewrite (other_kind _ _ i "t" "q" _ _ eq_refl eq_refl) in Hname;
      [discriminate|discriminate].
  - cbn [true_false_questions] in Hq. rewrite tf_pass_list in Hq.
    cbn [true_false_questions extract_multiple_choice_questions reset app]
      in Hq.
    assert (Hall : Forall (tf_question_of doc) (tf_found doc)).
    { unfold tf_found, extract_true_false_questions.
      cbn [true_false_questions].
      apply tf_fold_question_of; [auto|constructor]. }
    rewrite Forall_forall in Hall.
    destruct (Hall q Hq) as (Hquestion & Hanswer & _).
    exists q. repeat split; assumption.
  - rewrite (other_kind _ _ i "t" "c" _ _ eq_refl eq_refl) in Hname;
      [discriminate|discriminate].
Qed.

(** X19: every file whose name starts with "crossword_" is written for a
    crossword of the document: it has the title, between paragraph tags,
    under "taskDescription" and one word for each clue, in the order of the
    clues, under "words", and there is at least one. *)
Theorem crossword_files_hold_clues (self : Converter) (doc : Document)
    (rels : list (str * Relationship)) (uuid4 : nat -> str) :
  exists after written,
    process_docx self doc rels uuid4 = Some (after, written) /\
    forall name j,
      (name, j) ∈ json_files written ->
      is_prefix (L "crossword_") name = true ->
      exists cw,
        cw ∈ cw_found doc /\
        jget "taskDescription" j =
          Some (JStr (L "<p>" ++ cw_title cw ++ L "</p>" ++ nl)) /\
        jget "words" j = Some (JList (map word_entry_json (cw_clues cw))) /\
        cw_clues cw <> [].
Proof.
  unfold process_docx.
  destruct (crossword_pass
              (extract_true_false_questions
                 (extract_multiple_choice_questions self doc
                    (extract_images_from_docx rels)) doc) doc)
    as (final & -> & Hfound & Hclues).
  eexists. eexists. split; [reflexivity|].
  intros name j Hfile Hname.
  apply json_files_cases in Hfile
    as [(i & q & _ & -> & _)|[(i & q & _ & -> & _)|(i & cw & Hcw & -> & ->)]].
  - rewrite (other_kind _ _ i "c" "q" _ _ eq_refl eq_refl) in Hname;
      [discriminate|discriminate].
  - rewrite (other_kind _ _ i "c" "t" _ _ eq_refl eq_refl) in Hname;
      [discriminate|discriminate].
  - cbn [crossword_puzzles] in Hcw.
    unfold all_have_clues in Hclues. rewrite Forall_forall in Hclues.
    exists cw. rewrite Hfound. repeat split; [assumption|].
    apply Hclues. assumption.
Qed.

Lemma dict_get_elem {V} (k : str) (d : list (str * V)) (v : V) :
  dict_get k d = Some v -> (k, v) ∈ d.
Proof.
  induction d as [|[k' v'] d IH]; simpl; [discriminate|].
  unfold Str.eqb. destruct (bool_decide (k' = k)) eqn:Hk.
  - apply bool_decide_eq_true in Hk as ->. intros [= ->]. left.
  - intros H. right. apply IH. assumption.
Qed.

Lemma media_path_question (self : Converter) (q : MultipleChoiceQuestion)
    (uuid : str) :
  media_path (create_h5p_question_json self q uuid) =
  if truthy_str (mc_image_id q)
  then img_info ← dict_get (default [] (mc_image_id q)) (images self);
       Some (L "images/" ++ img_name img_info)
  else None.
Proof.
  unfold create_h5p_question_json.
  destruct (truthy_str (mc_image_id q)).
  - destruct (dict_get _ (images self)) as [img_info|]; reflexivity.
  - reflexivity.
Qed.

(** X20: only question files refer to an image file, and the path a
    question file refers to is the path of a file that [save_images]
    writes. *)
Theorem question_image_is_saved (self : Converter) (doc : Document)
    (rels : list (str * Relationship)) (uuid4 : nat -> str) :
  exists after written,
    process_docx self doc rels uuid4 = Some (after, written) /\
    forall name j path,
      (name, j) ∈ json_files written ->
      media_path j = Some path ->
      is_prefix (L "question_") name = true /\
      path ∈ map fst (image_files written).
Proof.
  unfold process_docx.
  destruct (crossword_pass
              (extract_true_false_questions
                 (extract_multiple_choice_questions self doc
                    (extract_images_from_docx rels)) doc) doc)
    as (final & -> & _).
  eexists. eexists. split; [reflexivity|].
  intros name j path Hfile Hpath.
  apply json_files_cases in Hfile
    as [(i & q & _ & -> & ->)|[(i & q & _ & -> & ->)|(i & cw & _ & -> & ->)]].
  - split; [apply is_prefix_app|].
    rewrite media_path_question in Hpath.
    destruct (truthy_str _); [|discriminate].
    destruct (dict_get _ _) as [img_info|] eqn:Hget; [|discriminate].
    injection Hpath as <-. apply dict_get_elem in Hget.
    unfold process_docx_files, save_images. cbn [image_files].
    apply list_elem_of_fmap. eexists (_, _). split; [reflexivity|].
    apply list_elem_of_fmap. eexists (_, _). split; [reflexivity|].
    exact Hget.
  - discriminate.
  - discriminate.
Qed.

Lemma process_workbook :
  exists after written,
    process_docx reset workbook workbook_rels fixed_uuid = Some (after, written).
Proof. vm_compute. eexists. eexists. reflexivity. Qed.

Lemma dict_set_elem {V} (k k' : str) (v v' : V) (d : list (str * V)) :
  (k', v') ∈ dict_set k v d -> (k', v') = (k, v) \/ (k', v') ∈ d.
Proof.
  induction d as [|[k0 v0] d IH]; simpl.
  - intros H. apply list_elem_of_singleton in H. left. assumption.
  - destruct (Str.eqb k0 k).
    + intros H. apply elem_of_cons in H as [H|H]; [left; assumption|].
      right. right. assumption.
    + intros H. apply elem_of_cons in H as [H|H].
      * right. rewrite H. left.
      * destruct (IH H) as [Heq|Hd]; [left; assumption|].
        right. right. assumption.
Qed.

Lemma images_loop_entries (rels : list (str * Relationship))
    (images_info : list (str * ImageInfo)) (P : str -> ImageInfo -> Prop) :
  (forall rel_id rel info, (rel_id, rel) ∈ rels -> image_of rel_id rel info ->
                           P rel_id info) ->
  (forall rel_id info, (rel_id, info) ∈ images_info -> P rel_id info) ->
  forall rel_id info,
    (rel_id, info) ∈ images_loop rels images_info -> P rel_id info.
Proof.
  revert images_info.
  induction rels as [|[id rel] rels IH]; intros images_info Hrels Hacc;
    cbn [images_loop]; [assumption|].
  destruct (contains (L "image") (target_ref rel)) eqn:Href.
  - destruct (target_part rel) as [image_part|] eqn:Hpart; [|assumption].
    apply IH.
    + intros rel_id rel' info Hin. apply Hrels. right. assumption.
    + intros rel_id info Hin. apply dict_set_elem in Hin as [Heq|Hin];
        [|apply Hacc; assumption].
      injection Heq as -> ->. apply (Hrels id rel); [left|].
      split; [assumption|]. eexists. eexists.
      split; [exact Hpart|]. cbn [img_bytes img_mime img_size img_width
                                  img_height img_name].
      repeat split.
      unfold Str.eqb. destruct (bool_decide _) eqn:Hext; [discriminate|].
      apply bool_decide_eq_false in Hext. assumption.
  - apply IH; [|assumption].
    intros rel_id rel' info Hin. apply Hrels. right. assumption.
Qed.

(** X21: every image [extract_images_from_docx] records is recorded under
    the id of a relationship whose target holds "image"; it has the bytes
    and the content type of the part, the size of the bytes, width 600 and
    height 400, and a name "image_<id>.<ext>" whose extension is never
    "jpeg". *)
Theorem images_come_from_image_rels (rels : list (str * Relationship))
    (rel_id : str) (info : ImageInfo) :
  (rel_id, info) ∈ extract_images_from_docx rels ->
  exists rel, (rel_id, rel) ∈ rels /\ image_of rel_id rel info.
Proof.
  unfold extract_images_from_docx.
  apply (images_loop_entries rels []
           (fun rel_id info =>
              exists rel, (rel_id, rel) ∈ rels /\ image_of rel_id rel info)).
  - intros id rel info' Hin Himage. exists rel. split; assumption.
  - intros id info' Hin. inversion Hin.
Qed.

Lemma images_come_from_image_rels_witness :
  exists rel,
    (L "rId7", rel) ∈ workbook_rels /\
    image_of (L "rId7") rel
      {| img_name := L "image_rId7.jpg"; img_bytes := L "JFIF";
         img_mime := L "image/jpeg"; img_size := 4;
         img_width := 600; img_height := 400 |}.
Proof.
  apply (images_come_from_image_rels workbook_rels).
  vm_compute. left.
Defined.

Lemma images_loop_stops (before after : list (str * Relationship))
    (rel_id : str) (rel : Relationship) (images_info : list (str * ImageInfo)) :
  contains (L "image") (target_ref rel) = true ->
  target_part rel = None ->
  images_loop (before ++ (rel_id, rel) :: after) images_info =
  images_loop before images_info.
Proof.
  intros Href Hpart. revert images_info.
  induction before as [|[id r] before IH]; intros images_info;
    cbn [app images_loop].
  - rewrite Href, Hpart. reflexivity.
  - destruct (contains (L "image") (target_ref r)); [|apply IH].
    destruct (target_part r); [apply IH|reflexivity].
Qed.

(** X22: a relationship whose target holds "image" and whose part cannot be
    read ends the extraction: the images are those of the relationships
    before it, and the images after it are lost. *)
Theorem image_extraction_stops_at_failure
    (before after : list (str * Relationship)) (rel_id : str)
    (rel : Relationship) :
  contains (L "image") (target_ref rel) = true ->
  target_part rel = None ->
  extract_images_from_docx (before ++ (rel_id, rel) :: after) =
  extract_images_from_docx before.
Proof. intros Href Hpart. apply images_loop_stops; assumption. Qed.

Lemma image_extraction_stops_at_failure_witness :
  extract_images_from_docx
    ([(L "rId1", styles_rel)] ++ (L "rId5", linked_rel) :: [(L "rId7", jpeg_rel)])
  = extract_images_from_docx [(L "rId1", styles_rel)].
Proof.
  apply (image_extraction_stops_at_failure [(L "rId1", styles_rel)]
           [(L "rId7", jpeg_rel)] (L "rId5") linked_rel); reflexivity.
Defined.

Lemma true_false_files_hold_questions_witness :
  exists after written,
    process_docx reset workbook workbook_rels fixed_uuid
      = Some (after, written) /\
    exists j q,
      (L "true_false_1.json", j) ∈ json_files written /\
      q ∈ tf_found workbook /\
      jget "correct" j = Some (JStr (tf_correct_answer q)).
Proof.
  destruct (true_false_files_hold_questions workbook workbook_rels fixed_uuid)
    as (after & written & Hrun & Hfiles).
  exists after, written. split; [exact Hrun|].
  vm_compute in Hrun. injection Hrun as <- <-.
  eexists.
  edestruct (Hfiles (L "true_false_1.json")) as (q & Hq & Hcorrect & _);
    [right; left|reflexivity|].
  exists q. split; [right; left|]. split; assumption.
Defined.

Lemma crossword_files_hold_clues_witness :
  exists after written,
    process_docx reset workbook workbook_rels fixed_uuid
      = Some (after, written) /\
    exists j cw,
      (L "crossword_1.json", j) ∈ json_files written /\
      cw ∈ cw_found workbook /\
      jget "words" j = Some (JList (map word_entry_json (cw_clues cw))) /\
      cw_clues cw <> [].
Proof.
  destruct (crossword_files_hold_clues reset workbook workbook_rels fixed_uuid)
    as (after & written & Hrun & Hfiles).
  exists after, written. split; [exact Hrun|].
  vm_compute in Hrun. injection Hrun as <- <-.
  eexists.
  edestruct (Hfiles (L "crossword_1.json")) as (cw & Hcw & _ & Hwords & Hne);
    [right; right; left|reflexivity|].
  exists cw. split; [right; right; left|]. repeat split; assumption.
Defined.

Lemma question_image_is_saved_witness :
  exists after written,
    process_docx reset workbook workbook_rels fixed_uuid
      = Some (after, written) /\
    L "images/image_rId7.jpg" ∈ map fst (image_files written).
Proof.
  destruct (question_image_is_saved reset workbook workbook_rels fixed_uuid)
    as (after & written & Hrun & Hfiles).
  exists after, written. split; [exact Hrun|].
  vm_compute in Hrun. injection Hrun as <- <-.
  eapply (Hfiles (L "question_1.json")); [left|reflexivity].
Defined.
